(** * User registration and activation service: a shallow embedding

    The development follows the Python sources:

    - [src/schemas/common/errors.py]      error enumerations and messages
    - [src/domain/exceptions/__init__.py] the service exceptions
    - [src/domain/user/entities.py]       [User], [ActivationCode],
                                          [PasswordValidator]
    - [src/infrastructure/database/postgresql_client.py]
                                          the two tables and [execute_query]
    - [src/domain/user/repository.py]     [UserRepository],
                                          [ActivationCodeRepository]
    - [src/infrastructure/email/email_service.py] [send_activation_code]
    - [src/domain/user/service.py]        [UserService]

    Modelling decisions.

    - A Python [str] is a [string]; a character is read as the code point
      of the same number, so the model covers strings over U+0000..U+00FF
      and [isalpha], [isdigit], [isspace] follow Python's tables there.
    - A [datetime] is a number of microseconds ([Z]).
    - Every observation of the outside world (wall clock, random source,
      uuid, salt, event-loop time) is the next reading of an oracle carried
      by the [World]; the counter [tick] numbers the readings.
    - The relational store is a pair of tables, each a list of rows in
      storage order.  [fetchrow] returns the first matching row, [UPDATE]
      rewrites every matching row in place, [DELETE] filters, [INSERT]
      appends after checking the keys declared by [create_tables]
      (primary keys, the unique email, the foreign key).  Column types are
      respected by construction (the status column holds a [UserStatus]).
    - A raised exception leaves the effects performed before it in place:
      a computation is a function [World -> Result A * World].
    - The connection pool and the message broker are reachable: the only
      driver errors are the constraint violations above. *)

From Stdlib Require Import Bool Arith ZArith List Ascii String Lia.
From Stdlib Require Import DecimalString DecimalNat.
Import ListNotations.

Local Open Scope string_scope.
Local Open Scope Z_scope.

(* ===================================================================== *)
(** * Python strings *)
(* ===================================================================== *)

Module Py.

Definition ord (c : ascii) : N := N_of_ascii c.

Definition in_range (lo hi : N) (c : ascii) : bool :=
  (N.leb lo (ord c) && N.leb (ord c) hi)%bool.

(** [c in "a-z"], [c in "A-Z"], [c in "0-9"]: the ASCII ranges that occur
    in the regular expression of [User.validate_email] and in [int()]. *)
Definition is_ascii_lower (c : ascii) : bool := in_range 97 122 c.
Definition is_ascii_upper (c : ascii) : bool := in_range 65 90 c.
Definition is_ascii_letter (c : ascii) : bool :=
  (is_ascii_lower c || is_ascii_upper c)%bool.
Definition is_ascii_digit (c : ascii) : bool := in_range 48 57 c.

(** [str.isalpha] on one character: general category L*.  Below U+0100
    these are the ASCII letters, U+00AA, U+00B5, U+00BA and
    U+00C0..U+00FF without the two operators U+00D7 and U+00F7. *)
Definition isalpha (c : ascii) : bool :=
  (is_ascii_letter c
   || N.eqb (ord c) 170 || N.eqb (ord c) 181 || N.eqb (ord c) 186
   || in_range 192 214 c || in_range 216 246 c || in_range 248 255 c)%bool.

(** [str.isdigit] on one character: Numeric_Type Decimal or Digit.  Below
    U+0100 these are the ASCII digits and the superscripts U+00B2, U+00B3,
    U+00B9. *)
Definition isdigit (c : ascii) : bool :=
  (is_ascii_digit c
   || N.eqb (ord c) 178 || N.eqb (ord c) 179 || N.eqb (ord c) 185)%bool.

(** [str.isspace] on one character. *)
Definition isspace (c : ascii) : bool :=
  (in_range 9 13 c || in_range 28 32 c
   || N.eqb (ord c) 133 || N.eqb (ord c) 160)%bool.

(** [any(p(c) for c in s)] and [all(p(c) for c in s)]. *)
Fixpoint any (p : ascii -> bool) (s : string) : bool :=
  match s with
  | EmptyString => false
  | String c s' => (p c || any p s')%bool
  end.

Fixpoint all (p : ascii -> bool) (s : string) : bool :=
  match s with
  | EmptyString => true
  | String c s' => (p c && all p s')%bool
  end.

(** [len(s)]. *)
Definition len (s : string) : Z := Z.of_nat (String.length s).

(** [s.isdigit()]: non-empty and every character a digit. *)
Definition str_isdigit (s : string) : bool :=
  match s with
  | EmptyString => false
  | _ => all isdigit s
  end.

(** [str(n)] for a natural number. *)
Definition str_of_nat (n : nat) : string :=
  NilEmpty.string_of_uint (Nat.to_uint n).

(** ["0" * k]. *)
Fixpoint zeros (k : nat) : string :=
  match k with
  | O => EmptyString
  | S k' => String "0" (zeros k')
  end.

(** Left padding with zeros up to [width] characters. *)
Definition zfill (width : nat) (s : string) : string :=
  zeros (width - String.length s) ++ s.

(** [f"{z:04d}"]: sign-aware zero padding to four characters. *)
Definition format_04d (z : Z) : string :=
  if z <? 0
  then String "-" (zfill 3 (str_of_nat (Z.to_nat (- z))))
  else zfill 4 (str_of_nat (Z.to_nat z)).

(** [int(s)] for a string that passed [s.isdigit()]: the superscript
    digits are digits for [isdigit] but not decimal literals, and [int]
    raises [ValueError] on them ([None] here). *)
Definition int (s : string) : option nat :=
  match s with
  | EmptyString => None
  | _ =>
      if all is_ascii_digit s
      then match NilEmpty.uint_of_string s with
           | Some d => Some (Nat.of_uint d)
           | None => None
           end
      else None
  end.

(** [s.split()]: maximal runs of non-whitespace characters.  [cur] holds
    the run being read, reversed. *)
Fixpoint rev_string (acc s : string) : string :=
  match s with
  | EmptyString => acc
  | String c s' => rev_string (String c acc) s'
  end.

Fixpoint split_from (cur : string) (s : string) : list string :=
  match s with
  | EmptyString =>
      match cur with
      | EmptyString => []
      | _ => [rev_string EmptyString cur]
      end
  | String c s' =>
      if isspace c
      then match cur with
           | EmptyString => split_from EmptyString s'
           | _ => rev_string EmptyString cur :: split_from EmptyString s'
           end
      else split_from (String c cur) s'
  end.

Definition split (s : string) : list string := split_from EmptyString s.

End Py.

(* ===================================================================== *)
(** * Error schema ([src/schemas/common/errors.py]) *)
(* ===================================================================== *)

Inductive ErrorType :=
| INVALID_REQUEST | AUTHENTICATION_FAILED | SERVER_NOT_AVAILABLE
| INVALID_REQUEST_ERROR | DUPLICATE_REQUEST | OBJECT_NOT_FOUND
| VALIDATION_ERROR | PROCESSING_ERROR | UNAUTHORIZED_ERROR
| UNEXPECTED_ERROR | EXPIRED_ERROR.

Inductive ErrorStatusCode :=
| STATUS_400 | STATUS_401 | STATUS_403 | STATUS_404 | STATUS_405
| STATUS_409 | STATUS_422 | STATUS_429 | STATUS_500 | STATUS_501
| STATUS_502 | STATUS_503 | STATUS_504.

(** [ErrorStatusCode.value] *)
Definition status_value (s : ErrorStatusCode) : Z :=
  match s with
  | STATUS_400 => 400 | STATUS_401 => 401 | STATUS_403 => 403
  | STATUS_404 => 404 | STATUS_405 => 405 | STATUS_409 => 409
  | STATUS_422 => 422 | STATUS_429 => 429 | STATUS_500 => 500
  | STATUS_501 => 501 | STATUS_502 => 502 | STATUS_503 => 503
  | STATUS_504 => 504
  end.

Inductive DmErrorCode :=
| DM_REG_0001 | DM_REG_0002 | DM_REG_0003 | DM_REG_0004 | DM_REG_0005
| DM_REG_0006 | DM_REG_0007 | DM_REG_0008 | DM_REG_0009 | DM_REG_0010
| DM_REG_0050.

(** [DmErrorCode.value] *)
Definition code_value (c : DmErrorCode) : string :=
  match c with
  | DM_REG_0001 => "DM_REG_0001" | DM_REG_0002 => "DM_REG_0002"
  | DM_REG_0003 => "DM_REG_0003" | DM_REG_0004 => "DM_REG_0004"
  | DM_REG_0005 => "DM_REG_0005" | DM_REG_0006 => "DM_REG_0006"
  | DM_REG_0007 => "DM_REG_0007" | DM_REG_0008 => "DM_REG_0008"
  | DM_REG_0009 => "DM_REG_0009" | DM_REG_0010 => "DM_REG_0010"
  | DM_REG_0050 => "DM_REG_0050"
  end.

(** [ErrorMessage]: a pair (message, handling) per error code. *)
Module ErrorMessage.
Definition MESSAGE_REG_0001 : string * string :=
  ("Invalid email format provided",
   "Please provide a valid email address").
Definition MESSAGE_REG_0002 : string * string :=
  ("Invalid password format",
   "Password must be at least 8 characters long and contain letters and numbers").
Definition MESSAGE_REG_0003 : string * string :=
  ("Email address already exists",
   "Please use a different email address or try logging in").
Definition MESSAGE_REG_0004 : string * string :=
  ("User not found",
   "Please check the email address and try again").
Definition MESSAGE_REG_0005 : string * string :=
  ("Invalid activation code",
   "Please check the 4-digit code and try again").
Definition MESSAGE_REG_0006 : string * string :=
  ("Activation code has expired",
   "Please request a new activation code").
Definition MESSAGE_REG_0007 : string * string :=
  ("User account is already activated",
   "No action required. You can now login to your account").
Definition MESSAGE_REG_0008 : string * string :=
  ("Database operation failed",
   "Please try again later or contact support").
Definition MESSAGE_REG_0009 : string * string :=
  ("Email service temporarily unavailable",
   "Please try again later or contact support").
Definition MESSAGE_REG_0010 : string * string :=
  ("Invalid authentication credentials",
   "Please check your email and password and try again").
End ErrorMessage.

(* ===================================================================== *)
(** * Exceptions ([src/domain/exceptions/__init__.py]) *)
(* ===================================================================== *)

(** The subclasses of [BaseServiceException]. *)
Inductive ExceptionClass :=
| ValidationException | UserNotFoundException | EmailAlreadyExistsException
| InvalidActivationCodeException | ActivationCodeExpiredException
| UserAlreadyActivatedException | DatabaseException | EmailServiceException
| AuthenticationException.

(** The attributes set by [BaseServiceException.__init__]. *)
Record ServiceError := mkServiceError {
  exc_class : ExceptionClass;
  err_code : string;
  err_status_code : ErrorStatusCode;
  err_type : ErrorType;
  err_message : string;
  err_handling : string
}.

(** Errors raised by the database driver on a violated constraint; the
    argument names the constraint. *)
Inductive DriverError :=
| UniqueViolationError (constraint : string)
| ForeignKeyViolationError (constraint : string).

(** What a Python [raise] can carry in this program. *)
Inductive Exn :=
| Service (e : ServiceError)
| Driver (e : DriverError)
| ValueError
| IndexError.

Module Exc.

Definition ValidationException_
    (err_message err_handling : string) (err_code : string) : ServiceError :=
  mkServiceError ValidationException err_code STATUS_422 VALIDATION_ERROR
                 err_message err_handling.

Definition UserNotFoundException_ : ServiceError :=
  mkServiceError UserNotFoundException (code_value DM_REG_0004) STATUS_404
                 OBJECT_NOT_FOUND
                 (fst ErrorMessage.MESSAGE_REG_0004)
                 (snd ErrorMessage.MESSAGE_REG_0004).

Definition EmailAlreadyExistsException_ : ServiceError :=
  mkServiceError EmailAlreadyExistsException (code_value DM_REG_0003)
                 STATUS_409 DUPLICATE_REQUEST
                 (fst ErrorMessage.MESSAGE_REG_0003)
                 (snd ErrorMessage.MESSAGE_REG_0003).

Definition InvalidActivationCodeException_ : ServiceError :=
  mkServiceError InvalidActivationCodeException (code_value DM_REG_0005)
                 STATUS_400 VALIDATION_ERROR
                 (fst ErrorMessage.MESSAGE_REG_0005)
                 (snd ErrorMessage.MESSAGE_REG_0005).

Definition ActivationCodeExpiredException_ : ServiceError :=
  mkServiceError ActivationCodeExpiredException (code_value DM_REG_0006)
                 STATUS_400 EXPIRED_ERROR
                 (fst ErrorMessage.MESSAGE_REG_0006)
                 (snd ErrorMessage.MESSAGE_REG_0006).

Definition UserAlreadyActivatedException_ : ServiceError :=
  mkServiceError UserAlreadyActivatedException (code_value DM_REG_0007)
                 STATUS_400 PROCESSING_ERROR
                 (fst ErrorMessage.MESSAGE_REG_0007)
                 (snd ErrorMessage.MESSAGE_REG_0007).

(** [DatabaseException(message)]; [message] is never empty at the call
    sites of this program, so [message or MESSAGE_REG_0008[0]] is
    [message] unless it is the empty string. *)
Definition DatabaseException_ (message : string) : ServiceError :=
  mkServiceError DatabaseException (code_value DM_REG_0008) STATUS_500
                 SERVER_NOT_AVAILABLE
                 (match message with
                  | EmptyString => fst ErrorMessage.MESSAGE_REG_0008
                  | _ => message
                  end)
                 (snd ErrorMessage.MESSAGE_REG_0008).

Definition EmailServiceException_ : ServiceError :=
  mkServiceError EmailServiceException (code_value DM_REG_0009) STATUS_503
                 SERVER_NOT_AVAILABLE
                 (fst ErrorMessage.MESSAGE_REG_0009)
                 (snd ErrorMessage.MESSAGE_REG_0009).

Definition AuthenticationException_ : ServiceError :=
  mkServiceError AuthenticationException (code_value DM_REG_0010) STATUS_401
                 UNAUTHORIZED_ERROR
                 (fst ErrorMessage.MESSAGE_REG_0010)
                 (snd ErrorMessage.MESSAGE_REG_0010).

End Exc.


(* ===================================================================== *)
(** * Entities: the data ([src/domain/user/entities.py]) *)
(* ===================================================================== *)

Inductive UserStatus := PENDING | ACTIVE | INACTIVE | SUSPENDED.

Definition UserStatus_eqb (a b : UserStatus) : bool :=
  match a, b with
  | PENDING, PENDING | ACTIVE, ACTIVE
  | INACTIVE, INACTIVE | SUSPENDED, SUSPENDED => true
  | _, _ => false
  end.

(** A [datetime], in microseconds. *)
Definition datetime := Z.

(** [timedelta(minutes=m)] *)
Definition timedelta_minutes (m : Z) : Z := m * 60 * 1000000.

(** The dataclass [User]; also a row of the table [users], whose columns
    are the same seven fields. *)
Module User.
Record t := mk {
  user_id : string;
  email : string;
  password_hash : string;
  status : UserStatus;
  created_at : option datetime;
  updated_at : option datetime;
  activated_at : option datetime
}.
End User.

(** The dataclass [ActivationCode]; also a row of the table
    [activation_codes]. *)
Module ActivationCode.
Record t := mk {
  user_id : string;
  code : string;
  expires_at : datetime;
  created_at : option datetime;
  used_at : option datetime;
  is_used : bool
}.
End ActivationCode.

(** The message published by [EmailService.send_activation_code]. *)
Record Message := mkMessage {
  msg_type : string;
  recipient : string;
  activation_code : string;
  msg_user_id : string;
  subject : string;
  template : string;
  timestamp : Z
}.

(* ===================================================================== *)
(** * The world: oracles, tables, queue *)
(* ===================================================================== *)

(** What the program observes but does not compute.  Each stream is
    indexed by the number of the observation. *)
Record Env := mkEnv {
  clock : nat -> datetime;             (* wall clock, also the store's NOW() *)
  entropy : nat -> Z;                  (* the random module's source *)
  uuid4 : nat -> string;               (* str(uuid.uuid4()) *)
  gensalt : nat -> string;             (* bcrypt.gensalt(rounds=12) *)
  loop_time : nat -> Z;                (* asyncio event loop time *)
  hashpw : string -> string -> string; (* bcrypt.hashpw(password, salt) *)
  checkpw : string -> string -> bool;  (* bcrypt.checkpw(password, hash),
                                          False where it would raise *)
  render : Exn -> string               (* str(e) *)
}.

Record World := mkWorld {
  env : Env;
  users : list User.t;
  activation_codes : list ActivationCode.t;
  queue : list Message;
  tick : nat
}.

Definition set_users (us : list User.t) (w : World) : World :=
  mkWorld (env w) us (activation_codes w) (queue w) (tick w).

Definition set_activation_codes (cs : list ActivationCode.t) (w : World)
  : World :=
  mkWorld (env w) (users w) cs (queue w) (tick w).

Definition set_queue (q : list Message) (w : World) : World :=
  mkWorld (env w) (users w) (activation_codes w) q (tick w).

Definition next_tick (w : World) : World :=
  mkWorld (env w) (users w) (activation_codes w) (queue w) (S (tick w)).

(* ===================================================================== *)
(** * Computations with state and exceptions *)
(* ===================================================================== *)

Inductive Result (A : Type) :=
| Ok (a : A)
| Raise (e : Exn).

Arguments Ok {A} a.
Arguments Raise {A} e.

Definition M (A : Type) : Type := World -> Result A * World.

Definition ret {A} (a : A) : M A := fun w => (Ok a, w).

Definition bind {A B} (m : M A) (k : A -> M B) : M B :=
  fun w =>
    match m w with
    | (Ok a, w') => k a w'
    | (Raise e, w') => (Raise e, w')
    end.

Definition raise {A} (e : Exn) : M A := fun w => (Raise e, w).

(** [try: m  except Exception as e: h(e)] *)
Definition try_except {A} (m : M A) (h : Exn -> M A) : M A :=
  fun w =>
    match m w with
    | (Ok a, w') => (Ok a, w')
    | (Raise e, w') => h e w'
    end.

Declare Scope py_scope.
Delimit Scope py_scope with py.
Notation "x <- m ;; k" := (bind m (fun x => k))
  (at level 61, m at next level, right associativity) : py_scope.
Notation "m ;; k" := (bind m (fun _ => k))
  (at level 61, right associativity) : py_scope.
Local Open Scope py_scope.

(** One observation of the outside world through the oracle [f]. *)
Definition observe {A} (f : Env -> nat -> A) : M A :=
  fun w => (Ok (f (env w) (tick w)), next_tick w).

(** A pure function of the environment. *)
Definition ask {A} (f : Env -> A) : M A := fun w => (Ok (f (env w)), w).

(** [utc_now()] of entities.py, and [datetime.utcnow()]. *)
Definition utc_now : M datetime := observe clock.
Definition datetime_utcnow : M datetime := observe clock.

(** [random.randint(a, b)]: an integer between [a] and [b] inclusive. *)
Definition randint (a b : Z) : M Z :=
  e <- observe entropy ;;
  ret (a + e mod (b - a + 1)).

(** [str(e)] *)
Definition str_exn (e : Exn) : M string := ask (fun E => render E e).

Definition raise_service {A} (e : ServiceError) : M A := raise (Service e).


(* ===================================================================== *)
(** * Regular expressions, as far as [validate_email] needs them *)
(* ===================================================================== *)

Module Re.

Inductive regex :=
| Void                          (* matches nothing *)
| Eps                           (* the empty string *)
| Class (p : ascii -> bool)     (* one character of a class *)
| Seq (r1 r2 : regex)
| Alt (r1 r2 : regex)
| Star (r : regex).

(** [r+] and [r{2,}] *)
Definition Plus (r : regex) : regex := Seq r (Star r).
Definition AtLeast2 (r : regex) : regex := Seq r (Seq r (Star r)).

Fixpoint nullable (r : regex) : bool :=
  match r with
  | Void => false
  | Eps => true
  | Class _ => false
  | Seq r1 r2 => nullable r1 && nullable r2
  | Alt r1 r2 => nullable r1 || nullable r2
  | Star _ => true
  end.

(** The derivative of [r] by the character [c]. *)
Fixpoint deriv (c : ascii) (r : regex) : regex :=
  match r with
  | Void => Void
  | Eps => Void
  | Class p => if p c then Eps else Void
  | Seq r1 r2 =>
      if nullable r1
      then Alt (Seq (deriv c r1) r2) (deriv c r2)
      else Seq (deriv c r1) r2
  | Alt r1 r2 => Alt (deriv c r1) (deriv c r2)
  | Star r' => Seq (deriv c r') (Star r')
  end.

(** [r] matches the whole of [s]. *)
Fixpoint fullmatch (r : regex) (s : string) : bool :=
  match s with
  | EmptyString => nullable r
  | String c s' => fullmatch (deriv c r) s'
  end.

(** [s] without its last character when that is a line feed. *)
Fixpoint chomp (s : string) : option string :=
  match s with
  | EmptyString => None
  | String c EmptyString =>
      if Ascii.eqb c "010"%char then Some EmptyString else None
  | String c s' =>
      match chomp s' with
      | Some t => Some (String c t)
      | None => None
      end
  end.

(** [re.match("^" r "$", s)] for an [r] that matches no line feed: [$]
    holds at the end of the string and also just before a line feed that
    ends the string. *)
Definition match_anchored (r : regex) (s : string) : bool :=
  fullmatch r s
  || match chomp s with
     | Some t => fullmatch r t
     | None => false
     end.

End Re.

(* ===================================================================== *)
(** * Entities: the methods *)
(* ===================================================================== *)

Definition is_char (c : ascii) (x : ascii) : bool := Ascii.eqb x c.

(** [[a-zA-Z0-9._%+-]] *)
Definition local_part_char (x : ascii) : bool :=
  Py.is_ascii_letter x || Py.is_ascii_digit x
  || is_char "." x || is_char "_" x || is_char "%" x || is_char "+" x
  || is_char "-" x.

(** [[a-zA-Z0-9.-]] *)
Definition domain_char (x : ascii) : bool :=
  Py.is_ascii_letter x || Py.is_ascii_digit x
  || is_char "." x || is_char "-" x.

(** [r'^[a-zA-Z0-9._%+-]+@[a-zA-Z0-9.-]+\.[a-zA-Z]{2,}$'] *)
Definition email_regex : Re.regex :=
  Re.Seq (Re.Plus (Re.Class local_part_char))
 (Re.Seq (Re.Class (is_char "@"))
 (Re.Seq (Re.Plus (Re.Class domain_char))
 (Re.Seq (Re.Class (is_char "."))
         (Re.AtLeast2 (Re.Class Py.is_ascii_letter))))).

(** The condition under which [User.validate_email] does not raise. *)
Definition email_ok (email : string) : bool :=
  match email with
  | EmptyString => false
  | _ => Re.match_anchored email_regex email
  end.

(** [User.validate_email] *)
Definition validate_email (email : string) : M unit :=
  if email_ok email
  then ret tt
  else raise_service
         (Exc.ValidationException_
            (fst ErrorMessage.MESSAGE_REG_0001)
            (snd ErrorMessage.MESSAGE_REG_0001)
            (code_value DM_REG_0001)).

(** [User(...)]: the dataclass constructor followed by [__post_init__].
    [user_id] and [created_at] are filled in when they are falsy,
    [updated_at] is always overwritten. *)
Definition User_init (email password_hash : string) (status : UserStatus)
    (user_id : option string) (created_at updated_at activated_at : option datetime)
  : M User.t :=
  validate_email email ;;
  uid <- match user_id with
         | None | Some EmptyString => observe uuid4
         | Some u => ret u
         end ;;
  c <- match created_at with
       | None => utc_now
       | Some c => ret c
       end ;;
  u <- utc_now ;;
  ret (User.mk uid email password_hash status (Some c) (Some u) activated_at).

(** [User.is_active] *)
Definition is_active (u : User.t) : bool :=
  UserStatus_eqb (User.status u) ACTIVE.

(** [ActivationCode(...)]: constructor followed by [__post_init__]. *)
Definition ActivationCode_init (user_id code : string) (expires_at : datetime)
    (created_at used_at : option datetime) (is_used : bool)
  : M ActivationCode.t :=
  c <- match created_at with
       | None => utc_now
       | Some c => ret c
       end ;;
  ret (ActivationCode.mk user_id code expires_at (Some c) used_at is_used).

(** [ActivationCode.generate_for_user] *)
Definition generate_for_user (user_id : string) : M ActivationCode.t :=
  n <- randint 1000 9999 ;;
  let code := Py.format_04d n in
  now <- utc_now ;;
  let expires_at := now + timedelta_minutes 1 in
  ActivationCode_init user_id code expires_at None None false.

(** [ActivationCode.is_valid] *)
Definition is_valid (ac : ActivationCode.t) : M bool :=
  if negb (ActivationCode.is_used ac)
  then now <- utc_now ;; ret (now <? ActivationCode.expires_at ac)
  else ret false.

(** [ActivationCode.is_expired] *)
Definition is_expired (ac : ActivationCode.t) : M bool :=
  now <- utc_now ;;
  ret (ActivationCode.expires_at ac <=? now).

(** The exception of both branches of [PasswordValidator.validate]. *)
Definition invalid_password : ServiceError :=
  Exc.ValidationException_
    (fst ErrorMessage.MESSAGE_REG_0002)
    (snd ErrorMessage.MESSAGE_REG_0002)
    (code_value DM_REG_0002).

Module PasswordValidator.

(** [PasswordValidator.validate] *)
Definition validate (password : string) : M unit :=
  if (match password with EmptyString => true | _ => false end)
     || (Py.len password <? 8)
  then raise_service invalid_password
  else
    let has_letter := Py.any Py.isalpha password in
    let has_number := Py.any Py.isdigit password in
    if negb (has_letter && has_number)
    then raise_service invalid_password
    else ret tt.

End PasswordValidator.


(* ===================================================================== *)
(** * The relational store
      ([src/infrastructure/database/postgresql_client.py]) *)
(* ===================================================================== *)

(** The statements the repositories send, each with the meaning the
    schema of [create_tables] gives it:

    - [users(user_id PRIMARY KEY, email UNIQUE, ...)]
    - [activation_codes(user_id REFERENCES users, code, ...,
                        PRIMARY KEY (user_id, code))] *)
Module Sql.

Definition user_has_email (email : string) (r : User.t) : bool :=
  String.eqb (User.email r) email.

Definition user_has_id (user_id : string) (r : User.t) : bool :=
  String.eqb (User.user_id r) user_id.

Definition code_of_user (user_id : string) (r : ActivationCode.t) : bool :=
  String.eqb (ActivationCode.user_id r) user_id.

Definition code_has_key (user_id code : string) (r : ActivationCode.t)
  : bool :=
  String.eqb (ActivationCode.user_id r) user_id
  && String.eqb (ActivationCode.code r) code.

(** [SELECT ... FROM users WHERE email = $1], fetched with [fetchrow]. *)
Definition select_user_by_email (email : string) : M (option User.t) :=
  fun w => (Ok (find (user_has_email email) (users w)), w).

(** [SELECT ... FROM users WHERE user_id = $1], fetched with [fetchrow]. *)
Definition select_user_by_id (user_id : string) : M (option User.t) :=
  fun w => (Ok (find (user_has_id user_id) (users w)), w).

(** [INSERT INTO users (user_id, email, password_hash, status, created_at,
    updated_at) VALUES (...)]; [activated_at] is left NULL. *)
Definition insert_user (user_id email password_hash : string)
    (status : UserStatus) (created_at updated_at : option datetime)
  : M string :=
  fun w =>
    if existsb (user_has_id user_id) (users w)
    then (Raise (Driver (UniqueViolationError "users_pkey")), w)
    else if existsb (user_has_email email) (users w)
    then (Raise (Driver (UniqueViolationError "users_email_key")), w)
    else (Ok "INSERT 0 1",
          set_users
            (users w ++
             [User.mk user_id email password_hash status
                      created_at updated_at None])
            w).

Definition set_status (status : UserStatus)
    (updated_at activated_at : option datetime) (r : User.t) : User.t :=
  User.mk (User.user_id r) (User.email r) (User.password_hash r)
          status (User.created_at r) updated_at activated_at.

(** [UPDATE users SET status = $2, updated_at = $3, activated_at = $4
    WHERE user_id = $1] *)
Definition update_user_status (user_id : string) (status : UserStatus)
    (updated_at activated_at : option datetime) : M string :=
  fun w =>
    let n := List.length (filter (user_has_id user_id) (users w)) in
    (Ok ("UPDATE " ++ Py.str_of_nat n),
     set_users
       (map (fun r => if user_has_id user_id r
                      then set_status status updated_at activated_at r
                      else r)
            (users w))
       w).

(** [INSERT INTO activation_codes (user_id, code, expires_at, created_at,
    is_used) VALUES (...)]; [used_at] is left NULL. *)
Definition insert_activation_code (user_id code : string)
    (expires_at : datetime) (created_at : option datetime) (is_used : bool)
  : M string :=
  fun w =>
    if existsb (code_has_key user_id code) (activation_codes w)
    then (Raise (Driver (UniqueViolationError "activation_codes_pkey")), w)
    else if negb (existsb (user_has_id user_id) (users w))
    then (Raise (Driver (ForeignKeyViolationError
                           "activation_codes_user_id_fkey")), w)
    else (Ok "INSERT 0 1",
          set_activation_codes
            (activation_codes w ++
             [ActivationCode.mk user_id code expires_at created_at None
                                is_used])
            w).

(** [SELECT ... FROM activation_codes WHERE user_id = $1 AND code = $2],
    fetched with [fetchrow]. *)
Definition select_activation_code (user_id code : string)
  : M (option ActivationCode.t) :=
  fun w => (Ok (find (code_has_key user_id code) (activation_codes w)), w).

Definition set_used (used_at : datetime) (r : ActivationCode.t)
  : ActivationCode.t :=
  ActivationCode.mk (ActivationCode.user_id r) (ActivationCode.code r)
                    (ActivationCode.expires_at r)
                    (ActivationCode.created_at r) (Some used_at) true.

(** The rows of an [UPDATE activation_codes SET is_used = TRUE,
    used_at = ...  WHERE sel]. *)
Definition update_codes (sel : ActivationCode.t -> bool) (used_at : datetime)
  : M string :=
  fun w =>
    let n := List.length (filter sel (activation_codes w)) in
    (Ok ("UPDATE " ++ Py.str_of_nat n),
     set_activation_codes
       (map (fun r => if sel r then set_used used_at r else r)
            (activation_codes w))
       w).

(** [UPDATE activation_codes SET is_used = TRUE, used_at = $3
    WHERE user_id = $1 AND code = $2] *)
Definition mark_code_used (user_id code : string) (used_at : datetime)
  : M string :=
  update_codes (code_has_key user_id code) used_at.

(** [UPDATE activation_codes SET is_used = TRUE, used_at = $2
    WHERE user_id = $1 AND is_used = FALSE] *)
Definition invalidate_unused (user_id : string) (used_at : datetime)
  : M string :=
  update_codes
    (fun r => code_of_user user_id r && negb (ActivationCode.is_used r))
    used_at.

(** The [WHERE] clause [expires_at < NOW() OR is_used = TRUE]. *)
Definition expired_or_used (now : datetime) (r : ActivationCode.t) : bool :=
  (ActivationCode.expires_at r <? now) || ActivationCode.is_used r.

(** [DELETE FROM activation_codes WHERE expires_at < NOW()
    OR is_used = TRUE]; the command tag carries the number of rows
    deleted. *)
Definition delete_expired_or_used : M string :=
  now <- observe clock ;;
  fun w =>
    let n := List.length (filter (expired_or_used now) (activation_codes w)) in
    (Ok ("DELETE " ++ Py.str_of_nat n),
     set_activation_codes
       (filter (fun r => negb (expired_or_used now r)) (activation_codes w))
       w).

End Sql.

(** [PostgreSQLClient.execute_query]: the statement runs inside
    [get_connection]; an exception of the statement is wrapped by
    [execute_query] and the wrapper is wrapped again when it leaves the
    connection's context manager. *)
Definition execute_query {A} (stmt : M A) : M A :=
  try_except
    (try_except stmt
       (fun e =>
          s <- str_exn e ;;
          raise_service
            (Exc.DatabaseException_ ("Query execution failed: " ++ s))))
    (fun e =>
       s <- str_exn e ;;
       raise_service
         (Exc.DatabaseException_ ("Database operation failed: " ++ s))).


(* ===================================================================== *)
(** * Repositories ([src/domain/user/repository.py]) *)
(* ===================================================================== *)

(** [except Exception as e: raise DatabaseException(f"{prefix}{str(e)}")] *)
Definition reraise_as_database {A} (prefix : string) (e : Exn) : M A :=
  s <- str_exn e ;;
  raise_service (Exc.DatabaseException_ (prefix ++ s)).

(** [isinstance(e, UserNotFoundException)] *)
Definition is_UserNotFoundException (e : Exn) : bool :=
  match e with
  | Service s =>
      match exc_class s with
      | UserNotFoundException => true
      | _ => false
      end
  | _ => false
  end.

(** The entity built from a row of [users]. *)
Definition User_of_row (r : User.t) : M User.t :=
  User_init (User.email r) (User.password_hash r) (User.status r)
            (Some (User.user_id r))
            (User.created_at r) (User.updated_at r) (User.activated_at r).

(** The entity built from a row of [activation_codes]. *)
Definition ActivationCode_of_row (r : ActivationCode.t) : M ActivationCode.t :=
  ActivationCode_init (ActivationCode.user_id r) (ActivationCode.code r)
                      (ActivationCode.expires_at r)
                      (ActivationCode.created_at r)
                      (ActivationCode.used_at r)
                      (ActivationCode.is_used r).

Module UserRepository.

(** [UserRepository.get_user_by_email] *)
Definition get_user_by_email (email : string) (raise_if_not_found : bool)
  : M (option User.t) :=
  try_except
    (result <- execute_query (Sql.select_user_by_email email) ;;
     match result with
     | None =>
         if raise_if_not_found
         then raise_service Exc.UserNotFoundException_
         else ret None
     | Some row =>
         u <- User_of_row row ;;
         ret (Some u)
     end)
    (fun e =>
       if is_UserNotFoundException e
       then raise e
       else reraise_as_database "Failed to get user by email: " e).

(** [UserRepository.get_user_by_id] *)
Definition get_user_by_id (user_id : string) : M User.t :=
  try_except
    (result <- execute_query (Sql.select_user_by_id user_id) ;;
     match result with
     | None => raise_service Exc.UserNotFoundException_
     | Some row => User_of_row row
     end)
    (fun e =>
       if is_UserNotFoundException e
       then raise e
       else reraise_as_database "Failed to get user by ID: " e).

(** [UserRepository.create_user], up to the existence check. *)
Definition create_user_check (email : string) : M unit :=
  existing_user <- get_user_by_email email false ;;
  match existing_user with
  | Some _ => raise_service Exc.EmailAlreadyExistsException_
  | None => ret tt
  end.

(** [UserRepository.create_user], from the hashing of the password on. *)
Definition create_user_insert (email password : string) : M User.t :=
  salt <- observe gensalt ;;
  password_hash <- ask (fun E => hashpw E password salt) ;;
  user <- User_init email password_hash PENDING None None None None ;;
  try_except
    (execute_query
       (Sql.insert_user (User.user_id user) (User.email user)
                        (User.password_hash user) (User.status user)
                        (User.created_at user) (User.updated_at user)) ;;
     ret user)
    (reraise_as_database "Failed to create user: ").

(** [UserRepository.create_user] *)
Definition create_user (email password : string) : M User.t :=
  create_user_check email ;;
  create_user_insert email password.


(** [UserRepository.update_user_status] *)
Definition update_user_status (user_id : string) (status : UserStatus)
    (activated_at : option datetime) : M User.t :=
  try_except
    (updated_at <- datetime_utcnow ;;
     execute_query
       (Sql.update_user_status user_id status (Some updated_at)
                               activated_at) ;;
     get_user_by_id user_id)
    (reraise_as_database "Failed to update user status: ").

(** [UserRepository.verify_password] *)
Definition verify_password (user : User.t) (password : string) : M bool :=
  ask (fun E => checkpw E password (User.password_hash user)).

End UserRepository.

Module ActivationCodeRepository.

(** [ActivationCodeRepository.invalidate_user_codes] *)
Definition invalidate_user_codes (user_id : string) : M unit :=
  try_except
    (used_at <- datetime_utcnow ;;
     execute_query (Sql.invalidate_unused user_id used_at) ;;
     ret tt)
    (reraise_as_database "Failed to invalidate user codes: ").

(** [ActivationCodeRepository.create_activation_code] *)
Definition create_activation_code (activation_code : ActivationCode.t)
  : M ActivationCode.t :=
  invalidate_user_codes (ActivationCode.user_id activation_code) ;;
  try_except
    (execute_query
       (Sql.insert_activation_code
          (ActivationCode.user_id activation_code)
          (ActivationCode.code activation_code)
          (ActivationCode.expires_at activation_code)
          (ActivationCode.created_at activation_code)
          (ActivationCode.is_used activation_code)) ;;
     ret activation_code)
    (reraise_as_database "Failed to create activation code: ").

(** [ActivationCodeRepository.get_activation_code] *)
Definition get_activation_code (user_id code : string)
  : M (option ActivationCode.t) :=
  try_except
    (result <- execute_query (Sql.select_activation_code user_id code) ;;
     match result with
     | None => ret None
     | Some row =>
         ac <- ActivationCode_of_row row ;;
         ret (Some ac)
     end)
    (reraise_as_database "Failed to get activation code: ").

(** [ActivationCodeRepository.mark_code_as_used] *)
Definition mark_code_as_used (user_id code : string) : M unit :=
  try_except
    (used_at <- datetime_utcnow ;;
     execute_query (Sql.mark_code_used user_id code used_at) ;;
     ret tt)
    (reraise_as_database "Failed to mark activation code as used: ").

(** [int(result.split()[-1]) if result and result.split()[-1].isdigit()
    else 0] *)
Definition count_of_tag (result : string) : M Z :=
  match result with
  | EmptyString => ret 0
  | _ =>
      match List.last (map Some (Py.split result)) None with
      | None => raise IndexError
      | Some token =>
          if Py.str_isdigit token
          then match Py.int token with
               | Some n => ret (Z.of_nat n)
               | None => raise ValueError
               end
          else ret 0
      end
  end.

(** [ActivationCodeRepository.cleanup_expired_codes] *)
Definition cleanup_expired_codes : M Z :=
  try_except
    (result <- execute_query Sql.delete_expired_or_used ;;
     count_of_tag result)
    (reraise_as_database "Failed to cleanup expired codes: ").

End ActivationCodeRepository.

(* ===================================================================== *)
(** * Email service ([src/infrastructure/email/email_service.py]) *)
(* ===================================================================== *)

Module EmailService.

(** [RabbitMQClient.publish_message] on the configured queue. *)
Definition publish_message (m : Message) : M unit :=
  fun w => (Ok tt, set_queue (queue w ++ [m]) w).

(** [EmailService.send_activation_code] *)
Definition send_activation_code (email activation_code user_id : string)
  : M unit :=
  t <- observe loop_time ;;
  let message :=
    mkMessage "activation_code" email activation_code user_id
              "Your Dailymotion Activation Code" "activation_code" t in
  try_except
    (publish_message message)
    (fun _ => raise_service Exc.EmailServiceException_).

End EmailService.

(* ===================================================================== *)
(** * The service ([src/domain/user/service.py]) *)
(* ===================================================================== *)

Module UserService.

(** [UserService._authenticate_user] *)
Definition _authenticate_user (email password : string) : M User.t :=
  try_except
    (user <- UserRepository.get_user_by_email email true ;;
     match user with
     | None => raise_service Exc.AuthenticationException_
     | Some user =>
         ok <- UserRepository.verify_password user password ;;
         if negb ok
         then raise_service Exc.AuthenticationException_
         else ret user
     end)
    (fun e =>
       if is_UserNotFoundException e
       then raise_service Exc.AuthenticationException_
       else raise e).

(** [UserService._generate_and_send_activation_code] *)
Definition _generate_and_send_activation_code (user : User.t) : M unit :=
  activation_code <- generate_for_user (User.user_id user) ;;
  ActivationCodeRepository.create_activation_code activation_code ;;
  EmailService.send_activation_code
    (User.email user)
    (ActivationCode.code activation_code)
    (User.user_id user).

(** [UserService._verify_activation_code] *)
Definition _verify_activation_code (user_id code : string) : M unit :=
  activation_code <-
    ActivationCodeRepository.get_activation_code user_id code ;;
  match activation_code with
  | None => raise_service Exc.InvalidActivationCodeException_
  | Some activation_code =>
      if ActivationCode.is_used activation_code
      then raise_service Exc.InvalidActivationCodeException_
      else
        expired <- is_expired activation_code ;;
        if expired
        then raise_service Exc.ActivationCodeExpiredException_
        else ret tt
  end.

(** [UserService.register_user] *)
Definition register_user (email password : string) : M User.t :=
  PasswordValidator.validate password ;;
  user <- UserRepository.create_user email password ;;
  _generate_and_send_activation_code user ;;
  ret user.

(** [UserService.activate_user] *)
Definition activate_user (email password activation_code : string)
  : M User.t :=
  user <- _authenticate_user email password ;;
  if is_active user
  then raise_service Exc.UserAlreadyActivatedException_
  else
    _verify_activation_code (User.user_id user) activation_code ;;
    now <- utc_now ;;
    activated_user <-
      UserRepository.update_user_status (User.user_id user) ACTIVE
                                        (Some now) ;;
    ActivationCodeRepository.mark_code_as_used (User.user_id user)
                                               activation_code ;;
    ret activated_user.

(** [UserService.resend_activation_code] *)
Definition resend_activation_code (email password : string) : M unit :=
  user <- _authenticate_user email password ;;
  if is_active user
  then raise_service Exc.UserAlreadyActivatedException_
  else _generate_and_send_activation_code user.

(** [UserService.get_user_by_email] *)
Definition get_user_by_email (email : string) : M (option User.t) :=
  UserRepository.get_user_by_email email false.

(** [UserService.cleanup_expired_codes] *)
Definition cleanup_expired_codes : M Z :=
  try_except
    ActivationCodeRepository.cleanup_expired_codes
    (fun _ => ret 0).

End UserService.


(* ===================================================================== *)
(** * The consumer of the email queue *)
(* ===================================================================== *)

Module EmailConsumer.













End EmailConsumer.

(* ===================================================================== *)
(** * Basic authentication headers *)
(* ===================================================================== *)

Module BasicAuth.

(** A [bytes] object: a string of 8-bit characters. *)
Definition bytes := string.

(** The codecs of the standard library that the two functions call.
    [None] stands for the exception of the decoder: [binascii.Error] or
    [ValueError] for [b64decode], [UnicodeDecodeError] for [decode]. *)
Record Codec := mkCodec {
  encode_utf8 : string -> bytes;            (* str.encode('utf-8') *)
  decode_utf8 : bytes -> option string;     (* bytes.decode('utf-8') *)
  b64encode : bytes -> string;    (* base64.b64encode(b).decode('ascii') *)
  b64decode : string -> option bytes        (* base64.b64decode(s) *)
}.

(** [s.startswith(p)] *)
Fixpoint startswith (p s : string) : bool :=
  match p, s with
  | EmptyString, _ => true
  | String a p', String b s' => Ascii.eqb a b && startswith p' s'
  | String _ _, EmptyString => false
  end.

(** [s[n:]] *)
Fixpoint slice_from (n : nat) (s : string) : string :=
  match n, s with
  | O, _ => s
  | S n', String _ s' => slice_from n' s'
  | S _, EmptyString => EmptyString
  end.

(** [c in s] for a character [c]. *)
Fixpoint contains (c : ascii) (s : string) : bool :=
  match s with
  | EmptyString => false
  | String x s' => Ascii.eqb x c || contains c s'
  end.

(** [s.split(c, 1)] for an [s] that contains [c]: what is before the
    first [c] and what is after it. *)
Fixpoint split_once (c : ascii) (s : string) : string * string :=
  match s with
  | EmptyString => (EmptyString, EmptyString)
  | String x s' =>
      if Ascii.eqb x c
      then (EmptyString, s')
      else let (a, b) := split_once c s' in (String x a, b)
  end.

(** [decode_basic_auth]: every failure ends in
    [AuthenticationException]. *)
Definition decode_basic_auth (C : Codec) (auth_header : string)
  : Result (string * string) :=
  if negb (startswith "Basic " auth_header)
  then Raise (Service Exc.AuthenticationException_)
  else
    let encoded_credentials := slice_from 6 auth_header in
    match b64decode C encoded_credentials with
    | None => Raise (Service Exc.AuthenticationException_)
    | Some decoded_bytes =>
        match decode_utf8 C decoded_bytes with
        | None => Raise (Service Exc.AuthenticationException_)
        | Some decoded_str =>
            if negb (contains ":" decoded_str)
            then Raise (Service Exc.AuthenticationException_)
            else Ok (split_once ":" decoded_str)
        end
    end.

(** [create_basic_auth_header] *)
Definition create_basic_auth_header (C : Codec) (username password : string)
  : string :=
  let credentials := username ++ ":" ++ password in
  let encoded_credentials := b64encode C (encode_utf8 C credentials) in
  "Basic " ++ encoded_credentials.

End BasicAuth.

(*END-MODEL*)
(* ===================================================================== *)
(** * Sample worlds *)
(* ===================================================================== *)

Module Sample.

(** A deterministic environment: the clock advances by one microsecond
    per reading, the n-th random draw is 3817 + n (so that the draw of
    the first registration, the fifth observation, makes
    [randint 1000 9999] return 4821), the n-th uuid is ["u" ++ str(n)],
    and the password hash is the salt followed by the password. *)
Definition sample_env : Env :=
  mkEnv (fun n => 1000 + Z.of_nat n)
        (fun n => 3817 + Z.of_nat n)
        (fun n => "u" ++ Py.str_of_nat n)
        (fun _ => "salt")
        (fun n => Z.of_nat n)
        (fun p s => s ++ "$" ++ p)
        (fun p h => String.eqb h ("salt$" ++ p))
        (fun _ => "error").

(** The same environment with a clock that jumps by two minutes per
    reading. *)
Definition slow_env : Env :=
  mkEnv (fun n => 1000 + 120000000 * Z.of_nat n)
        (entropy sample_env) (uuid4 sample_env) (gensalt sample_env)
        (loop_time sample_env) (hashpw sample_env) (checkpw sample_env)
        (render sample_env).

Definition run {A} (m : M A) (w : World) : World := snd (m w).

(** The empty store. *)
Definition empty : World := mkWorld sample_env [] [] [] 0.

(** After [register("a@x.com", "pass1234")]: one PENDING user, the live
    code ["4821"]. *)
Definition registered : World :=
  run (UserService.register_user "a@x.com" "pass1234") empty.

(** After the activation of that user with the code ["4821"]. *)
Definition activated : World :=
  run (UserService.activate_user "a@x.com" "pass1234" "4821") registered.

(** After a second code was requested for the pending user: the code
    ["4821"] is flagged used, the new code is live. *)
Definition resent : World :=
  run (UserService.resend_activation_code "a@x.com" "pass1234") registered.


(** [registered] seen through the slow clock. *)
Definition registered_late : World :=
  mkWorld slow_env (users registered) (activation_codes registered)
          (queue registered) (tick registered).

End Sample.

(* ===================================================================== *)
(** * Notions used in the statements *)
(* ===================================================================== *)

(** The exception that leaves [execute_query] when the statement raises
    [e]: a [DatabaseException] around a [DatabaseException]. *)
Definition wrapped_twice (E : Env) (e : Exn) : ServiceError :=
  Exc.DatabaseException_
    ("Database operation failed: " ++
     render E (Service (Exc.DatabaseException_
                          ("Query execution failed: " ++ render E e)))).

(** The tables, the queue and the oracles of two worlds agree; only the
    number of observations made may differ. *)
Definition same_store (w w' : World) : Prop :=
  env w' = env w /\ users w' = users w
  /\ activation_codes w' = activation_codes w /\ queue w' = queue w.

(** The entity [u] was built from the row [row]: the constructor keeps
    every column but the two timestamps it defaults or overwrites (and
    replaces an empty id, which a stored row does not have). *)
Definition entity_of (row u : User.t) : Prop :=
  User.email u = User.email row
  /\ User.password_hash u = User.password_hash row
  /\ User.status u = User.status row
  /\ User.activated_at u = User.activated_at row
  /\ (User.user_id row <> "" -> User.user_id u = User.user_id row).

(** The exception of [User.validate_email]. *)
Definition invalid_email : ServiceError :=
  Exc.ValidationException_
    (fst ErrorMessage.MESSAGE_REG_0001)
    (snd ErrorMessage.MESSAGE_REG_0001)
    (code_value DM_REG_0001).

(** [m] never changes the tables, the queue or the oracles. *)
Definition frame {A} (m : M A) : Prop :=
  forall w r w', m w = (r, w') -> same_store w w'.

(** [e] is an instance of [DatabaseException]. *)
Definition is_DatabaseException (e : Exn) : Prop :=
  match e with
  | Service s => exc_class s = DatabaseException
  | _ => False
  end.

(** Every exception that leaves [m] satisfies [P]. *)
Definition raises_only {A} (P : Exn -> Prop) (m : M A) : Prop :=
  forall w e w', m w = (Raise e, w') -> P e.

(** The number of clock readings [ActivationCode(...)] takes for a row:
    one when the column [created_at] is NULL. *)
Definition code_reads (row : ActivationCode.t) : nat :=
  match ActivationCode.created_at row with
  | None => 1
  | Some _ => 0
  end.

(** The reading of the clock that [is_expired] takes when
    [_verify_activation_code] starts in [w] and finds [row]. *)
Definition check_time (w : World) (row : ActivationCode.t) : datetime :=
  clock (env w) (tick w + code_reads row).

(** The rows of [users] after the [UPDATE] of [update_user_status]. *)
Definition users_with_status (user_id : string) (status : UserStatus)
    (updated_at activated_at : option datetime) (us : list User.t)
  : list User.t :=
  map (fun r => if Sql.user_has_id user_id r
                then Sql.set_status status updated_at activated_at r
                else r)
      us.

(** The rows of [activation_codes] after the [UPDATE] of
    [mark_code_as_used]. *)
Definition codes_with_used (user_id code : string) (used_at : datetime)
    (cs : list ActivationCode.t) : list ActivationCode.t :=
  map (fun r => if Sql.code_has_key user_id code r
                then Sql.set_used used_at r
                else r)
      cs.

(** The [WHERE] clause of [invalidate_user_codes]: the unused rows of a
    user. *)
Definition unused_of (user_id : string) (r : ActivationCode.t) : bool :=
  Sql.code_of_user user_id r && negb (ActivationCode.is_used r).

(** The rows of [activation_codes] after the [UPDATE] of
    [invalidate_user_codes]. *)
Definition codes_invalidated (user_id : string) (used_at : datetime)
    (cs : list ActivationCode.t) : list ActivationCode.t :=
  map (fun r => if unused_of user_id r then Sql.set_used used_at r else r)
      cs.

(** The row that [create_activation_code] inserts for an entity:
    [used_at] is not among the inserted columns. *)
Definition row_of (ac : ActivationCode.t) : ActivationCode.t :=
  ActivationCode.mk (ActivationCode.user_id ac) (ActivationCode.code ac)
                    (ActivationCode.expires_at ac)
                    (ActivationCode.created_at ac) None
                    (ActivationCode.is_used ac).


(** [e] is a [DatabaseException] as its constructor builds it: code
    DM_REG_0008, status 500, whatever the message. *)
Definition database_error (e : Exn) : Prop :=
  exists message, e = Service (Exc.DatabaseException_ message).

(** The exceptions that [activate_user] lets out. *)
Definition activation_error (e : Exn) : Prop :=
  e = Service Exc.AuthenticationException_
  \/ e = Service Exc.UserAlreadyActivatedException_
  \/ e = Service Exc.InvalidActivationCodeException_
  \/ e = Service Exc.ActivationCodeExpiredException_
  \/ database_error e.

(** The HTTP status that [service_exception_handler] gives an
    exception of the service; anything else is answered by
    [generic_exception_handler] with 500. *)
Definition http_status (e : Exn) : Z :=
  match e with
  | Service s => status_value (err_status_code s)
  | _ => 500
  end.

(** The code that [generate_for_user] builds in the world [w] (see
    [generate_for_user_run]). *)
Definition new_code (user_id : string) (w : World) : ActivationCode.t :=
  ActivationCode.mk
    user_id
    (Py.format_04d (1000 + entropy (env w) (tick w) mod 9000))
    (clock (env w) (S (tick w)) + 60000000)
    (Some (clock (env w) (S (S (tick w)))))
    None
    false.

(** The message that [send_activation_code] publishes in the world
    [w]. *)
Definition new_message (email code user_id : string) (w : World) : Message :=
  mkMessage "activation_code" email code user_id
            "Your Dailymotion Activation Code" "activation_code"
            (loop_time (env w) (tick w)).

(** [w] after [n] more observations. *)
Fixpoint ticks (n : nat) (w : World) : World :=
  match n with
  | O => w
  | S n' => next_tick (ticks n' w)
  end.

(** [Sample.registered] with a random source that repeats itself: the
    next draw gives the code "4821" again. *)
Definition registered_redraw : World :=
  mkWorld (mkEnv (clock Sample.sample_env) (fun _ => 3821)
                 (uuid4 Sample.sample_env) (gensalt Sample.sample_env)
                 (loop_time Sample.sample_env) (hashpw Sample.sample_env)
                 (checkpw Sample.sample_env) (render Sample.sample_env))
          (users Sample.registered) (activation_codes Sample.registered)
          (queue Sample.registered) (tick Sample.registered).

(** The primary key of a row of [activation_codes]. *)
Definition code_key (r : ActivationCode.t) : string * string :=
  (ActivationCode.user_id r, ActivationCode.code r).

(** Every run of [m] relates the world before to the world after by
    [R]. *)
Definition respects {A} (R : World -> World -> Prop) (m : M A) : Prop :=
  forall w r w', m w = (r, w') -> R w w'.

(** The constraints that [create_tables] declares: the primary key and
    the unique email of [users], the primary key of [activation_codes]
    and its foreign key. *)
Definition store_ok (w : World) : Prop :=
  NoDup (map User.user_id (users w))
  /\ NoDup (map User.email (users w))
  /\ NoDup (map code_key (activation_codes w))
  /\ (forall c, In c (activation_codes w) ->
                existsb (Sql.user_has_id (ActivationCode.user_id c))
                        (users w) = true).

(** [store_ok] is kept. *)
Definition keeps_ok (w w' : World) : Prop := store_ok w -> store_ok w'.

(** How the tables may change in the course of a registration, an
    activation or a resend: every user row stays, with its id, email,
    password hash and creation time, and its status is what it was or
    ACTIVE; every code row stays, with its key, expiry and creation time,
    and a used row stays used. *)
Definition evolves (w w' : World) : Prop :=
  (forall r, In r (users w) ->
     exists r', In r' (users w')
                /\ User.user_id r' = User.user_id r
                /\ User.email r' = User.email r
                /\ User.password_hash r' = User.password_hash r
                /\ User.created_at r' = User.created_at r
                /\ (User.status r' = User.status r
                    \/ User.status r' = ACTIVE))
  /\ (forall c, In c (activation_codes w) ->
        exists c', In c' (activation_codes w')
                   /\ code_key c' = code_key c
                   /\ ActivationCode.expires_at c'
                      = ActivationCode.expires_at c
                   /\ ActivationCode.created_at c'
                      = ActivationCode.created_at c
                   /\ (ActivationCode.is_used c = true ->
                       ActivationCode.is_used c' = true)).

(** The requests of the service and of the periodic sweep. *)
Inductive request :=
| Register (email password : string)
| Activate (email password code : string)
| Resend (email password : string)
| Sweep.

(** The world after a request, whatever its outcome. *)
Definition handle (q : request) (w : World) : World :=
  match q with
  | Register email password =>
      snd (UserService.register_user email password w)
  | Activate email password code =>
      snd (UserService.activate_user email password code w)
  | Resend email password =>
      snd (UserService.resend_activation_code email password w)
  | Sweep => snd (UserService.cleanup_expired_codes w)
  end.

(** The world after a sequence of requests. *)
Definition handle_all (qs : list request) (w : World) : World :=
  fold_left (fun w q => handle q w) qs w.

(** The strings that a regular expression denotes. *)
Inductive Matches : Re.regex -> string -> Prop :=
| MEps : Matches Re.Eps ""
| MClass (p : ascii -> bool) (c : ascii) :
    p c = true -> Matches (Re.Class p) (String c "")
| MSeq (r1 r2 : Re.regex) (s1 s2 : string) :
    Matches r1 s1 -> Matches r2 s2 -> Matches (Re.Seq r1 r2) (s1 ++ s2)
| MAltL (r1 r2 : Re.regex) (s : string) :
    Matches r1 s -> Matches (Re.Alt r1 r2) s
| MAltR (r1 r2 : Re.regex) (s : string) :
    Matches r2 s -> Matches (Re.Alt r1 r2) s
| MStar0 (r : Re.regex) : Matches (Re.Star r) ""
| MStarS (r : Re.regex) (s1 s2 : string) :
    Matches r s1 -> Matches (Re.Star r) s2 -> Matches (Re.Star r) (s1 ++ s2).

(** A line feed. *)
Definition LF : string := String "010" "".

(** The shape of an email address: a local part, ["@"], a domain, ["."]
    and a top-level part of two letters or more. *)
Definition address (l d t : string) : string :=
  l ++ "@" ++ d ++ "." ++ t.





(** The two codecs undo each other: what the standard library
    guarantees of [b64decode] after [b64encode] and of [decode] after
    [encode]. *)
Definition codec_round_trip (C : BasicAuth.Codec) : Prop :=
  (forall b, BasicAuth.b64decode C (BasicAuth.b64encode C b) = Some b)
  /\ (forall s, BasicAuth.decode_utf8 C (BasicAuth.encode_utf8 C s) = Some s).

(** Base64 with padding (RFC 4648) and UTF-8 for the code points below
    256, bit by bit: an instance of the codecs. *)
Module SampleCodec.

Definition alphabet : string :=
  "ABCDEFGHIJKLMNOPQRSTUVWXYZabcdefghijklmnopqrstuvwxyz0123456789+/".

Definition sextet : Type := bool * bool * bool * bool * bool * bool.

(** The value of a sextet, most significant bit first. *)
Definition sextet_value (s : sextet) : nat :=
  let '(b5, b4, b3, b2, b1, b0) := s in
  let v (b : bool) (n : nat) := if b then n else O in
  (v b5 32 + v b4 16 + v b3 8 + v b2 4 + v b1 2 + v b0 1)%nat.

Definition enc_char (s : sextet) : ascii :=
  match String.get (sextet_value s) alphabet with
  | Some c => c
  | None => "="%char
  end.

(** The sextet of a value below 64. *)
Definition sextet_of (n : nat) : sextet :=
  (Nat.testbit n 5, Nat.testbit n 4, Nat.testbit n 3,
   Nat.testbit n 2, Nat.testbit n 1, Nat.testbit n 0).

Fixpoint index_of (c : ascii) (s : string) : option nat :=
  match s with
  | EmptyString => None
  | String x s' =>
      if Ascii.eqb x c then Some O else option_map S (index_of c s')
  end.

Definition dec_char (c : ascii) : option sextet :=
  option_map sextet_of (index_of c alphabet).

(** Three bytes as four characters. *)
Definition enc3 (a b c : ascii) : string :=
  let '(Ascii a0 a1 a2 a3 a4 a5 a6 a7) := a in
  let '(Ascii b0 b1 b2 b3 b4 b5 b6 b7) := b in
  let '(Ascii c0 c1 c2 c3 c4 c5 c6 c7) := c in
  String (enc_char (a7, a6, a5, a4, a3, a2))
 (String (enc_char (a1, a0, b7, b6, b5, b4))
 (String (enc_char (b3, b2, b1, b0, c7, c6))
 (String (enc_char (c5, c4, c3, c2, c1, c0)) EmptyString))).

Definition enc2 (a b : ascii) : string :=
  let '(Ascii a0 a1 a2 a3 a4 a5 a6 a7) := a in
  let '(Ascii b0 b1 b2 b3 b4 b5 b6 b7) := b in
  String (enc_char (a7, a6, a5, a4, a3, a2))
 (String (enc_char (a1, a0, b7, b6, b5, b4))
 (String (enc_char (b3, b2, b1, b0, false, false))
 (String "="%char EmptyString))).

Definition enc1 (a : ascii) : string :=
  let '(Ascii a0 a1 a2 a3 a4 a5 a6 a7) := a in
  String (enc_char (a7, a6, a5, a4, a3, a2))
 (String (enc_char (a1, a0, false, false, false, false))
 (String "="%char (String "="%char EmptyString))).

Fixpoint b64encode (b : BasicAuth.bytes) : string :=
  match b with
  | EmptyString => EmptyString
  | String a EmptyString => enc1 a
  | String a (String b EmptyString) => enc2 a b
  | String a (String b (String c rest)) => enc3 a b c ++ b64encode rest
  end.

Definition byte1 (s1 s2 : sextet) : ascii :=
  let '(a7, a6, a5, a4, a3, a2) := s1 in
  let '(a1, a0, _, _, _, _) := s2 in
  Ascii a0 a1 a2 a3 a4 a5 a6 a7.

Definition byte2 (s2 s3 : sextet) : ascii :=
  let '(_, _, b7, b6, b5, b4) := s2 in
  let '(b3, b2, b1, b0, _, _) := s3 in
  Ascii b0 b1 b2 b3 b4 b5 b6 b7.

Definition byte3 (s3 s4 : sextet) : ascii :=
  let '(_, _, _, _, c7, c6) := s3 in
  let '(c5, c4, c3, c2, c1, c0) := s4 in
  Ascii c0 c1 c2 c3 c4 c5 c6 c7.

(** A strict decoder: groups of four characters, padding only in the
    last group. *)
Fixpoint b64decode (s : string) : option BasicAuth.bytes :=
  match s with
  | EmptyString => Some EmptyString
  | String x1 (String x2 (String x3 (String x4 rest))) =>
      match dec_char x1, dec_char x2 with
      | Some s1, Some s2 =>
          match dec_char x3, dec_char x4, rest with
          | Some s3, Some s4, _ =>
              match b64decode rest with
              | Some b =>
                  Some (String (byte1 s1 s2)
                          (String (byte2 s2 s3) (String (byte3 s3 s4) b)))
              | None => None
              end
          | Some s3, None, EmptyString =>
              if Ascii.eqb x4 "="
              then Some (String (byte1 s1 s2)
                           (String (byte2 s2 s3) EmptyString))
              else None
          | None, None, EmptyString =>
              if Ascii.eqb x3 "=" && Ascii.eqb x4 "="
              then Some (String (byte1 s1 s2) EmptyString)
              else None
          | _, _, _ => None
          end
      | _, _ => None
      end
  | _ => None
  end.

(** UTF-8 of a code point below 256: one byte below 128, two bytes from
    128 on. *)
Definition encode_char (c : ascii) : string :=
  let '(Ascii a0 a1 a2 a3 a4 a5 a6 a7) := c in
  if a7
  then String (Ascii a6 a7 false false false false true true)
         (String (Ascii a0 a1 a2 a3 a4 a5 false true) EmptyString)
  else String c EmptyString.

Fixpoint encode_utf8 (s : string) : BasicAuth.bytes :=
  match s with
  | EmptyString => EmptyString
  | String c s' => encode_char c ++ encode_utf8 s'
  end.

(** The decoder of those sequences; any other byte sequence is refused
    (the strings of this development have no code point from 256 on). *)
Fixpoint decode_utf8 (b : BasicAuth.bytes) : option string :=
  match b with
  | EmptyString => Some EmptyString
  | String (Ascii a0 a1 a2 a3 a4 a5 a6 false) rest =>
      option_map (String (Ascii a0 a1 a2 a3 a4 a5 a6 false))
                 (decode_utf8 rest)
  | String (Ascii a6 true false false false false true true)
           (String (Ascii a0 a1 a2 a3 a4 a5 false true) rest) =>
      option_map (String (Ascii a0 a1 a2 a3 a4 a5 a6 true))
                 (decode_utf8 rest)
  | _ => None
  end.

Definition codec : BasicAuth.Codec :=
  BasicAuth.mkCodec encode_utf8 decode_utf8 b64encode b64decode.

End SampleCodec.

(*END-NOTIONS*)
(* ===================================================================== *)
(** * Facts about the Python string functions *)
(* ===================================================================== *)

Lemma ascii_digit_isdigit (c : ascii) :
  Py.is_ascii_digit c = true -> Py.isdigit c = true.
Proof.
  unfold Py.isdigit. intros ->. reflexivity.
Qed.

Lemma ascii_digit_not_space (c : ascii) :
  Py.is_ascii_digit c = true -> Py.isspace c = false.
Proof.
  destruct c as [[] [] [] [] [] [] [] []]; vm_compute; congruence.
Qed.

Lemma all_impl (p q : ascii -> bool) (s : string) :
  (forall c, p c = true -> q c = true) ->
  Py.all p s = true -> Py.all q s = true.
Proof.
  intros Hpq. induction s as [|c s IH]; simpl; auto.
  rewrite !andb_true_iff. intros [Hc Hs]. split; auto.
Qed.

Lemma all_app (p : ascii -> bool) (s t : string) :
  Py.all p (s ++ t) = Py.all p s && Py.all p t.
Proof.
  induction s as [|c s IH]; simpl; auto.
  now rewrite IH, andb_assoc.
Qed.

Lemma string_of_uint_digits (d : Decimal.uint) :
  Py.all Py.is_ascii_digit (NilEmpty.string_of_uint d) = true.
Proof.
  induction d; simpl; auto.
Qed.

Lemma to_uint_nonnil (n : nat) : Nat.to_uint n <> Decimal.Nil.
Proof.
  rewrite <- (Unsigned.of_to n) at 1.
  rewrite Unsigned.to_of. apply DecimalFacts.unorm_nonnil.
Qed.

Lemma str_of_nat_digits (n : nat) :
  Py.all Py.is_ascii_digit (Py.str_of_nat n) = true.
Proof. apply string_of_uint_digits. Qed.

Lemma str_of_nat_nonempty (n : nat) : Py.str_of_nat n <> EmptyString.
Proof.
  unfold Py.str_of_nat. pose proof (to_uint_nonnil n) as H.
  destruct (Nat.to_uint n); simpl; congruence.
Qed.

(** [int(str(n)) == n] *)
Lemma int_str_of_nat (n : nat) : Py.int (Py.str_of_nat n) = Some n.
Proof.
  unfold Py.int.
  pose proof (str_of_nat_nonempty n) as Hne.
  rewrite str_of_nat_digits.
  unfold Py.str_of_nat in *. rewrite NilEmpty.usu, Unsigned.of_to.
  destruct (NilEmpty.string_of_uint (Nat.to_uint n)); congruence.
Qed.

Lemma zeros_digits (k : nat) : Py.all Py.is_ascii_digit (Py.zeros k) = true.
Proof. induction k; simpl; auto. Qed.

Lemma uint_of_string_zeros (k : nat) (s : string) (d : Decimal.uint) :
  NilEmpty.uint_of_string s = Some d ->
  exists d', NilEmpty.uint_of_string (Py.zeros k ++ s) = Some d'
             /\ Nat.of_uint d' = Nat.of_uint d.
Proof.
  intros Hs. induction k as [|k [d' [H1 H2]]]; simpl.
  - eauto.
  - rewrite H1. simpl. exists (Decimal.D0 d'). split; auto.
Qed.

(** Leading zeros do not change the value read by [int]. *)
Lemma int_zfill (w n : nat) :
  Py.int (Py.zfill w (Py.str_of_nat n)) = Some n.
Proof.
  unfold Py.zfill, Py.int.
  set (k := (w - String.length (Py.str_of_nat n))%nat).
  rewrite all_app, zeros_digits, str_of_nat_digits. simpl.
  destruct (uint_of_string_zeros k (Py.str_of_nat n) (Nat.to_uint n))
    as [d' [H1 H2]].
  { apply NilEmpty.usu. }
  rewrite H1, H2, Unsigned.of_to.
  pose proof (str_of_nat_nonempty n) as Hne.
  destruct (Py.zeros k ++ Py.str_of_nat n)%string eqn:E; auto.
  destruct (Py.zeros k), (Py.str_of_nat n); simpl in E; congruence.
Qed.

(** [int(f"{z:04d}") == z] for a non-negative [z]. *)
Lemma int_format_04d (z : Z) :
  0 <= z -> Py.int (Py.format_04d z) = Some (Z.to_nat z).
Proof.
  intros Hz. unfold Py.format_04d.
  destruct (Z.ltb_spec z 0); [lia|]. apply int_zfill.
Qed.

Lemma append_nil_r (s : string) : (s ++ "")%string = s.
Proof. induction s as [|c s IH]; simpl; congruence. Qed.

Lemma rev_string_involutive (s a b : string) :
  Py.rev_string a (Py.rev_string b s) = Py.rev_string (s ++ a) b.
Proof.
  revert a b. induction s as [|c s IH]; intros a b; simpl; auto.
Qed.

Lemma split_from_no_space (s cur : string) :
  Py.all (fun c => negb (Py.isspace c)) s = true ->
  Py.split_from cur s =
    match Py.rev_string cur s with
    | EmptyString => []
    | t => [Py.rev_string EmptyString t]
    end.
Proof.
  revert cur. induction s as [|c s IH]; intros cur; simpl.
  - destruct cur; auto.
  - rewrite andb_true_iff, negb_true_iff. intros [-> Hs]. now apply IH.
Qed.

(** A command tag [DELETE n] splits into the verb and the count. *)
Lemma split_delete_tag (n : nat) :
  Py.split ("DELETE " ++ Py.str_of_nat n) = ["DELETE"; Py.str_of_nat n].
Proof.
  unfold Py.split. cbn -[Py.str_of_nat Py.split_from Py.isspace].
  change (Py.split_from EmptyString ("DELETE " ++ Py.str_of_nat n))
    with (Py.split_from "ETELED" (String " " (Py.str_of_nat n))).
  cbn -[Py.str_of_nat]. f_equal.
  rewrite split_from_no_space.
  - pose proof (rev_string_involutive (Py.str_of_nat n) "" "") as H.
    rewrite append_nil_r in H. simpl in H.
    destruct (Py.rev_string "" (Py.str_of_nat n)) eqn:E.
    + simpl in H. exfalso. now apply (str_of_nat_nonempty n).
    + now rewrite H.
  - apply all_impl with (p := Py.is_ascii_digit).
    + intros c Hc. now rewrite ascii_digit_not_space.
    + apply str_of_nat_digits.
Qed.

(* ===================================================================== *)
(** * Running computations *)
(* ===================================================================== *)

Lemma bind_ok {A B} (m : M A) (k : A -> M B) (w w1 : World) (a : A) :
  m w = (Ok a, w1) -> bind m k w = k a w1.
Proof. unfold bind. now intros ->. Qed.

Lemma bind_raise {A B} (m : M A) (k : A -> M B) (w w1 : World) (e : Exn) :
  m w = (Raise e, w1) -> bind m k w = (Raise e, w1).
Proof. unfold bind. now intros ->. Qed.

Lemma try_except_ok {A} (m : M A) (h : Exn -> M A) (w w1 : World) (a : A) :
  m w = (Ok a, w1) -> try_except m h w = (Ok a, w1).
Proof. unfold try_except. now intros ->. Qed.

Lemma try_except_raise {A} (m : M A) (h : Exn -> M A) (w w1 : World)
    (e : Exn) :
  m w = (Raise e, w1) -> try_except m h w = h e w1.
Proof. unfold try_except. now intros ->. Qed.

Lemma bind_inv {A B} (m : M A) (k : A -> M B) (w w' : World)
    (r : Result B) :
  bind m k w = (r, w') ->
  (exists a w1, m w = (Ok a, w1) /\ k a w1 = (r, w'))
  \/ (exists e, m w = (Raise e, w') /\ r = Raise e).
Proof.
  unfold bind. destruct (m w) as [[a|e] w1]; intros H.
  - left. eauto.
  - right. inversion H; subst. eauto.
Qed.

Lemma execute_query_ok {A} (stmt : M A) (w w1 : World) (a : A) :
  stmt w = (Ok a, w1) -> execute_query stmt w = (Ok a, w1).
Proof.
  intros H. unfold execute_query.
  apply try_except_ok. now apply try_except_ok.
Qed.

Lemma execute_query_raise {A} (stmt : M A) (w w1 : World) (e : Exn) :
  stmt w = (Raise e, w1) ->
  execute_query stmt w = (Raise (Service (wrapped_twice (env w1) e)), w1).
Proof.
  intros H. unfold execute_query, try_except. rewrite H. reflexivity.
Qed.

(* ===================================================================== *)
(** * The sweep *)
(* ===================================================================== *)

Lemma count_of_delete_tag (n : nat) (w : World) :
  ActivationCodeRepository.count_of_tag ("DELETE " ++ Py.str_of_nat n) w
  = (Ok (Z.of_nat n), w).
Proof.
  unfold ActivationCodeRepository.count_of_tag.
  rewrite split_delete_tag.
  cbn -[Py.str_of_nat Py.str_isdigit Py.int].
  assert (Hd : Py.str_isdigit (Py.str_of_nat n) = true).
  { unfold Py.str_isdigit. pose proof (str_of_nat_nonempty n).
    destruct (Py.str_of_nat n) eqn:E; [congruence|]. rewrite <- E.
    apply all_impl with (p := Py.is_ascii_digit);
      auto using ascii_digit_isdigit, str_of_nat_digits. }
  rewrite Hd, int_str_of_nat. reflexivity.
Qed.

Lemma filter_none {A} (p : A -> bool) (l : list A) :
  (forall x, In x l -> p x = false) -> filter p l = [].
Proof.
  induction l as [|x l IH]; simpl; intros H; auto.
  rewrite (H x) by auto. auto.
Qed.

Lemma filter_all {A} (p : A -> bool) (l : list A) :
  (forall x, In x l -> p x = true) -> filter p l = l.
Proof.
  induction l as [|x l IH]; simpl; intros H; auto.
  rewrite (H x) by auto. f_equal. auto.
Qed.

Lemma filter_partition_length {A} (p : A -> bool) (l : list A) :
  List.length l
  = (List.length (filter (fun x => negb (p x)) l)
     + List.length (filter p l))%nat.
Proof.
  induction l as [|x l IH]; simpl; auto.
  destruct (p x); simpl; lia.
Qed.

(** What one run of the sweep does, in terms of the reading [now] of the
    store's clock. *)
Lemma cleanup_run (w : World) :
  let now := clock (env w) (tick w) in
  ActivationCodeRepository.cleanup_expired_codes w
  = (Ok (Z.of_nat
           (List.length
              (filter (Sql.expired_or_used now) (activation_codes w)))),
     set_activation_codes
       (filter (fun r => negb (Sql.expired_or_used now r))
               (activation_codes w))
       (next_tick w)).
Proof.
  intros now. unfold ActivationCodeRepository.cleanup_expired_codes.
  apply try_except_ok.
  set (n := List.length
              (filter (Sql.expired_or_used now) (activation_codes w))).
  erewrite bind_ok.
  2:{ apply execute_query_ok. unfold Sql.delete_expired_or_used.
      erewrite bind_ok by reflexivity. reflexivity. }
  apply count_of_delete_tag.
Qed.

(** Claim C8.  One run of the sweep ([cleanup_expired_codes]), with [now]
    the reading of the store's clock it takes: it returns the number of
    rows with [expires_at < now] or [is_used], the table keeps exactly the
    other rows (same rows, same order), users and queue are untouched, and
    the service-level entry point returns the same.  A second run directly
    after it, when none of the remaining rows has passed its expiry at the
    second reading of the clock (nothing new qualifies), deletes nothing
    and returns 0. *)
Theorem sweep_exact_and_idempotent (w : World) :
  let now := clock (env w) (tick w) in
  let removed := filter (Sql.expired_or_used now) (activation_codes w) in
  let w' := snd (ActivationCodeRepository.cleanup_expired_codes w) in
  ActivationCodeRepository.cleanup_expired_codes w
    = (Ok (Z.of_nat (List.length removed)), w')
  /\ UserService.cleanup_expired_codes w
    = (Ok (Z.of_nat (List.length removed)), w')
  /\ activation_codes w'
     = filter (fun r => negb (Sql.expired_or_used now r)) (activation_codes w)
  /\ (forall r, In r (activation_codes w') <->
                In r (activation_codes w)
                /\ ~ (ActivationCode.expires_at r < now
                      \/ ActivationCode.is_used r = true))
  /\ (forall r, In r removed <->
                In r (activation_codes w)
                /\ (ActivationCode.expires_at r < now
                    \/ ActivationCode.is_used r = true))
  /\ (List.length (activation_codes w)
      = List.length (activation_codes w') + List.length removed)%nat
  /\ users w' = users w /\ queue w' = queue w /\ env w' = env w
  /\ ((forall r, In r (activation_codes w') ->
                 clock (env w') (tick w') <= ActivationCode.expires_at r) ->
      fst (ActivationCodeRepository.cleanup_expired_codes w') = Ok 0
      /\ activation_codes
           (snd (ActivationCodeRepository.cleanup_expired_codes w'))
         = activation_codes w').
Proof.
  intros now removed w'.
  pose proof (cleanup_run w) as Hrun. cbv zeta in Hrun.
  fold now in Hrun. fold removed in Hrun.
  assert (Hw' : w' = set_activation_codes
                       (filter (fun r => negb (Sql.expired_or_used now r))
                               (activation_codes w))
                       (next_tick w)).
  { unfold w'. now rewrite Hrun. }
  assert (Hcrit : forall r, Sql.expired_or_used now r = true <->
                            (ActivationCode.expires_at r < now
                             \/ ActivationCode.is_used r = true)).
  { intros r. unfold Sql.expired_or_used.
    rewrite orb_true_iff, Z.ltb_lt. tauto. }
  assert (Hunused : forall r, In r (activation_codes w') ->
                              ActivationCode.is_used r = false).
  { intros r Hr. rewrite Hw' in Hr. simpl in Hr. apply filter_In in Hr.
    destruct Hr as [_ Hr]. apply negb_true_iff in Hr.
    unfold Sql.expired_or_used in Hr. now apply orb_false_iff in Hr. }
  split; [now rewrite Hw'|].
  split.
  { unfold UserService.cleanup_expired_codes.
    erewrite try_except_ok by exact Hrun. now rewrite Hw'. }
  split; [now rewrite Hw'|].
  split.
  { intros r. rewrite Hw'. simpl. rewrite filter_In, negb_true_iff.
    rewrite <- Hcrit. destruct (Sql.expired_or_used now r); intuition congruence. }
  split.
  { intros r. unfold removed. rewrite filter_In, Hcrit. tauto. }
  split.
  { rewrite Hw'. simpl. apply filter_partition_length. }
  split; [now rewrite Hw'|].
  split; [now rewrite Hw'|].
  split; [now rewrite Hw'|].
  intros Hlive.
  assert (Hkeep : forall r, In r (activation_codes w') ->
            Sql.expired_or_used (clock (env w') (tick w')) r = false).
  { intros r Hr. unfold Sql.expired_or_used.
    rewrite (Hunused r Hr), orb_false_r. apply Z.ltb_ge. now apply Hlive. }
  rewrite (cleanup_run w'). simpl. split.
  - rewrite filter_none; [reflexivity | exact Hkeep].
  - apply filter_all. intros r Hr. apply negb_true_iff. now apply Hkeep.
Qed.

(** The sweep on [Sample.resent] (one used code, one live code) removes
    the used row; the second sweep returns 0. *)
Lemma sweep_exact_and_idempotent_witness :
  fst (ActivationCodeRepository.cleanup_expired_codes Sample.resent) = Ok 1
  /\ fst (ActivationCodeRepository.cleanup_expired_codes
            (snd (ActivationCodeRepository.cleanup_expired_codes
                    Sample.resent))) = Ok 0.
Proof.
  split.
  - vm_compute. reflexivity.
  - apply (sweep_exact_and_idempotent Sample.resent).
    vm_compute. intros r [<- | []]. discriminate.
Defined.

(* ===================================================================== *)
(** * The activation code generator *)
(* ===================================================================== *)

(** The three observations of [generate_for_user]: the random draw, the
    clock for [expires_at], the clock for [created_at]. *)
Lemma generate_for_user_run (user_id : string) (w : World) :
  generate_for_user user_id w
  = (Ok (ActivationCode.mk
           user_id
           (Py.format_04d (1000 + entropy (env w) (tick w) mod 9000))
           (clock (env w) (S (tick w)) + 60000000)
           (Some (clock (env w) (S (S (tick w)))))
           None
           false),
     next_tick (next_tick (next_tick w))).
Proof. reflexivity. Qed.

Lemma length_string_of_uint (d : Decimal.uint) :
  String.length (NilEmpty.string_of_uint d) = Decimal.nb_digits d.
Proof. induction d; simpl; congruence. Qed.

Lemma nb_digits_succ (d : Decimal.uint) :
  (Decimal.nb_digits d <= Decimal.nb_digits (Decimal.Little.succ d))%nat.
Proof. induction d; simpl; lia. Qed.

(** The number of digits of [str(n)] does not decrease with [n]. *)
Lemma length_str_of_nat_mono (n m : nat) :
  (n <= m)%nat ->
  (String.length (Py.str_of_nat n) <= String.length (Py.str_of_nat m))%nat.
Proof.
  unfold Py.str_of_nat.
  rewrite !length_string_of_uint, !Unsigned.to_uint_alt,
    !DecimalFacts.nb_digits_rev.
  induction 1 as [|m Hle IH]; [lia|].
  simpl. pose proof (nb_digits_succ (Unsigned.to_lu m)). lia.
Qed.

(** In the range of the draw the code has exactly four decimal digits. *)
Lemma format_04d_four_digits (z : Z) :
  1000 <= z <= 9999 ->
  String.length (Py.format_04d z) = 4%nat
  /\ Py.all Py.is_ascii_digit (Py.format_04d z) = true.
Proof.
  intros Hz. unfold Py.format_04d.
  destruct (Z.ltb_spec z 0); [lia|].
  assert (Hlen : String.length (Py.str_of_nat (Z.to_nat z)) = 4%nat).
  { pose proof (length_str_of_nat_mono (Z.to_nat 1000) (Z.to_nat z)
                  ltac:(lia)) as Hlo.
    pose proof (length_str_of_nat_mono (Z.to_nat z) (Z.to_nat 9999)
                  ltac:(lia)) as Hhi.
    assert (H1 : String.length (Py.str_of_nat (Z.to_nat 1000)) = 4%nat)
      by (vm_compute; reflexivity).
    assert (H2 : String.length (Py.str_of_nat (Z.to_nat 9999)) = 4%nat)
      by (vm_compute; reflexivity).
    lia. }
  unfold Py.zfill. rewrite Hlen. simpl Py.zeros.
  split; [exact Hlen | apply str_of_nat_digits].
Qed.

Lemma format_04d_injective (n m : Z) :
  0 <= n -> 0 <= m -> Py.format_04d n = Py.format_04d m -> n = m.
Proof.
  intros Hn Hm E.
  pose proof (int_format_04d n Hn) as H1.
  pose proof (int_format_04d m Hm) as H2.
  rewrite E, H2 in H1. injection H1. lia.
Qed.

(** Claim C7, as the code has it.  For every user id and world,
    [generate_for_user] returns a code for that user whose string is
    [f"{n:04d}"] for the draw [n] of [randint(1000, 9999)]: exactly four
    decimal digits that read back as [n], with [1000 <= n <= 9999];
    [is_used] is false and [used_at] is unset; [expires_at] is exactly
    60 seconds after the clock reading taken for it, and [created_at] is
    the next reading of the clock (so [expires_at = created_at + 60 s]
    when the clock has not advanced in between); the store is untouched.
    Every value from "1000" through "9999" is a possible output, and
    different draws give different codes. *)
Theorem generated_code_shape (user_id : string) (w : World) :
  let n := 1000 + entropy (env w) (tick w) mod 9000 in
  let t_expiry := clock (env w) (S (tick w)) in
  let t_created := clock (env w) (S (S (tick w))) in
  let ac := ActivationCode.mk user_id (Py.format_04d n)
                              (t_expiry + timedelta_minutes 1)
                              (Some t_created) None false in
  (exists w', generate_for_user user_id w = (Ok ac, w') /\ same_store w w')
  /\ 1000 <= n <= 9999
  /\ String.length (ActivationCode.code ac) = 4%nat
  /\ Py.all Py.is_ascii_digit (ActivationCode.code ac) = true
  /\ Py.int (ActivationCode.code ac) = Some (Z.to_nat n)
  /\ ActivationCode.is_used ac = false
  /\ ActivationCode.used_at ac = None
  /\ ActivationCode.expires_at ac = t_expiry + 60 * 1000000
  /\ (t_created = t_expiry ->
      Some (ActivationCode.expires_at ac)
      = option_map (fun c => c + 60 * 1000000) (ActivationCode.created_at ac))
  /\ (forall m, 1000 <= m <= 9999 ->
        exists w0 ac0 w0',
          users w0 = users w
          /\ activation_codes w0 = activation_codes w
          /\ queue w0 = queue w
          /\ generate_for_user user_id w0 = (Ok ac0, w0')
          /\ ActivationCode.code ac0 = Py.format_04d m)
  /\ (forall m1 m2, 1000 <= m1 <= 9999 -> 1000 <= m2 <= 9999 ->
        Py.format_04d m1 = Py.format_04d m2 -> m1 = m2).
Proof.
  intros n t_expiry t_created ac.
  assert (Hn : 1000 <= n <= 9999).
  { unfold n. pose proof (Z.mod_pos_bound (entropy (env w) (tick w)) 9000).
    lia. }
  split.
  { eexists. split; [apply generate_for_user_run|].
    unfold same_store. simpl. auto. }
  split; [exact Hn|].
  split; [apply format_04d_four_digits; exact Hn|].
  split; [apply format_04d_four_digits; exact Hn|].
  split; [apply int_format_04d; lia|].
  split; [reflexivity|].
  split; [reflexivity|].
  split; [reflexivity|].
  split.
  { intros E. simpl. rewrite E. reflexivity. }
  split.
  { intros m Hm.
    exists (mkWorld (mkEnv (clock (env w)) (fun _ => m - 1000)
                           (uuid4 (env w)) (gensalt (env w))
                           (loop_time (env w)) (hashpw (env w))
                           (checkpw (env w)) (render (env w)))
                    (users w) (activation_codes w) (queue w) (tick w)).
    eexists. eexists.
    split; [reflexivity|]. split; [reflexivity|]. split; [reflexivity|].
    split; [apply generate_for_user_run|].
    cbn [ActivationCode.code env entropy tick].
    rewrite Z.mod_small by lia. f_equal. lia. }
  intros m1 m2 H1 H2. apply format_04d_injective; lia.
Qed.

(** The generator in [Sample.registered], and a world in which it issues
    the code "1234". *)
Lemma generated_code_shape_witness :
  (1000 <= 1234 <= 9999)
  /\ exists w0 ac0 w0',
       users w0 = users Sample.registered
       /\ activation_codes w0 = activation_codes Sample.registered
       /\ queue w0 = queue Sample.registered
       /\ generate_for_user "u1" w0 = (Ok ac0, w0')
       /\ ActivationCode.code ac0 = "1234".
Proof.
  split; [lia|].
  pose proof (generated_code_shape "u1" Sample.registered) as H.
  cbv zeta in H.
  destruct H as (_ & _ & _ & _ & _ & _ & _ & _ & _ & Hany & _).
  exact (Hany 1234 ltac:(lia)).
Defined.

(** Claim C7 as stated fails on the code.  No run of [generate_for_user]
    returns the code "0000" (nor any code below "1000"); and in
    [Sample.registered], where the clock advances by a microsecond per
    reading, [expires_at] is not [created_at] plus 60 seconds. *)
Lemma generated_code_counterexample :
  (~ exists user_id w ac w',
       generate_for_user user_id w = (Ok ac, w')
       /\ ActivationCode.code ac = "0000")
  /\ (exists ac w',
        generate_for_user "u1" Sample.registered = (Ok ac, w')
        /\ ActivationCode.created_at ac = Some 1011
        /\ ActivationCode.expires_at ac = 1010 + 60 * 1000000).
Proof.
  split.
  - intros (user_id & w & ac & w' & Hrun & Hcode).
    rewrite generate_for_user_run in Hrun.
    apply (f_equal (fun p => match fst p with
                             | Ok a => ActivationCode.code a
                             | Raise _ => EmptyString
                             end)) in Hrun.
    cbn [fst ActivationCode.code] in Hrun. rewrite Hcode in Hrun.
    pose proof (Z.mod_pos_bound (entropy (env w) (tick w)) 9000) as Hb.
    pose proof (int_format_04d (1000 + entropy (env w) (tick w) mod 9000))
      as Hint.
    rewrite Hrun in Hint. specialize (Hint ltac:(lia)).
    change (Py.int "0000") with (Some 0%nat) in Hint.
    assert (Z.to_nat (1000 + entropy (env w) (tick w) mod 9000) = 0%nat)
      by congruence.
    lia.
  - eexists. eexists. split; [apply generate_for_user_run|].
    vm_compute. auto.
Defined.

(* ===================================================================== *)
(** * The password policy *)
(* ===================================================================== *)

Lemma validate_weak (password : string) (w : World) :
  password = "" \/ Py.len password < 8
  \/ Py.any Py.isalpha password = false
  \/ Py.any Py.isdigit password = false ->
  PasswordValidator.validate password w = (Raise (Service invalid_password), w).
Proof.
  unfold PasswordValidator.validate, raise_service, raise.
  intros [-> | [Hlen | [Ha | Hd]]].
  - reflexivity.
  - apply Z.ltb_lt in Hlen. rewrite Hlen, orb_true_r. reflexivity.
  - rewrite Ha. simpl. now destruct (_ || _).
  - rewrite Hd, andb_false_r. simpl. now destruct (_ || _).
Qed.

Lemma validate_strong (password : string) (w : World) :
  8 <= Py.len password ->
  Py.any Py.isalpha password = true ->
  Py.any Py.isdigit password = true ->
  PasswordValidator.validate password w = (Ok tt, w).
Proof.
  unfold PasswordValidator.validate. intros Hlen -> ->.
  apply Z.ltb_ge in Hlen. rewrite Hlen.
  destruct password; [discriminate|]. reflexivity.
Qed.

(** Claim C9.  A password that is empty, shorter than 8 characters,
    without a letter or without a digit makes [register_user] raise the
    [ValidationException] of the password policy (code DM_REG_0002,
    status 422) and return the world as it received it: no user row, no
    code row, no message, not even an observation of the clock.  A
    password of length at least 8 with a letter and a digit passes
    [PasswordValidator.validate]. *)
Theorem weak_password_rejected_before_persistence
    (email password : string) (w : World) :
  (password = "" \/ Py.len password < 8
   \/ Py.any Py.isalpha password = false
   \/ Py.any Py.isdigit password = false ->
   UserService.register_user email password w
   = (Raise (Service invalid_password), w))
  /\ (8 <= Py.len password ->
      Py.any Py.isalpha password = true ->
      Py.any Py.isdigit password = true ->
      PasswordValidator.validate password w = (Ok tt, w))
  /\ exc_class invalid_password = ValidationException
  /\ err_code invalid_password = "DM_REG_0002"
  /\ status_value (err_status_code invalid_password) = 422.
Proof.
  split; [|split; [|auto]].
  - intros H. unfold UserService.register_user.
    apply bind_raise. now apply validate_weak.
  - apply validate_strong.
Qed.

(** The passwords of the test suite: "12345678" has no letter and is
    rejected in the empty store, "password123" passes the policy. *)
Lemma weak_password_rejected_before_persistence_witness :
  UserService.register_user "test@example.com" "12345678" Sample.empty
  = (Raise (Service invalid_password), Sample.empty)
  /\ PasswordValidator.validate "password123" Sample.empty
     = (Ok tt, Sample.empty).
Proof.
  split.
  - apply (weak_password_rejected_before_persistence
             "test@example.com" "12345678" Sample.empty).
    right. right. left. reflexivity.
  - apply (weak_password_rejected_before_persistence
             "test@example.com" "password123" Sample.empty).
    + vm_compute. discriminate.
    + reflexivity.
    + reflexivity.
Defined.

(* ===================================================================== *)
(** * Frames: what a computation leaves alone *)
(* ===================================================================== *)

Lemma same_store_refl (w : World) : same_store w w.
Proof. unfold same_store. auto. Qed.

Lemma same_store_trans (w1 w2 w3 : World) :
  same_store w1 w2 -> same_store w2 w3 -> same_store w1 w3.
Proof.
  unfold same_store. intros (A1 & A2 & A3 & A4) (B1 & B2 & B3 & B4).
  repeat split; congruence.
Qed.

Lemma same_store_next_tick (w : World) : same_store w (next_tick w).
Proof. unfold same_store. simpl. auto. Qed.

Create HintDb store.
#[local] Hint Resolve same_store_refl same_store_next_tick : store.

Lemma frame_ret {A} (a : A) : frame (ret a).
Proof. intros w r w' H. inversion H. apply same_store_refl. Qed.

Lemma frame_raise {A} (e : Exn) : frame (@raise A e).
Proof. intros w r w' H. inversion H. apply same_store_refl. Qed.

Lemma frame_observe {A} (f : Env -> nat -> A) : frame (observe f).
Proof. intros w r w' H. inversion H. apply same_store_next_tick. Qed.

Lemma frame_ask {A} (f : Env -> A) : frame (ask f).
Proof. intros w r w' H. inversion H. apply same_store_refl. Qed.

Lemma frame_bind {A B} (m : M A) (k : A -> M B) :
  frame m -> (forall a, frame (k a)) -> frame (bind m k).
Proof.
  intros Hm Hk w r w' H. unfold bind in H.
  destruct (m w) as [[a|e] w1] eqn:E.
  - eapply same_store_trans; [eapply Hm; eauto | eapply Hk; eauto].
  - inversion H; subst. eapply Hm; eauto.
Qed.

Lemma frame_try_except {A} (m : M A) (h : Exn -> M A) :
  frame m -> (forall e, frame (h e)) -> frame (try_except m h).
Proof.
  intros Hm Hh w r w' H. unfold try_except in H.
  destruct (m w) as [[a|e] w1] eqn:E.
  - inversion H; subst. eapply Hm; eauto.
  - eapply same_store_trans; [eapply Hm; eauto | eapply Hh; eauto].
Qed.

Lemma frame_pure {A} (f : World -> A) : frame (fun w => (Ok (f w), w)).
Proof. intros w r w' H. inversion H. apply same_store_refl. Qed.

(** One syntactic step of a frame proof; the frames of the functions
    already treated come from the hint database. *)
Ltac frame_step :=
  lazymatch goal with
  | |- frame (ret _) => apply frame_ret
  | |- frame (raise _) => apply frame_raise
  | |- frame (raise_service _) => apply frame_raise
  | |- frame (observe _) => apply frame_observe
  | |- frame utc_now => apply frame_observe
  | |- frame datetime_utcnow => apply frame_observe
  | |- frame (ask _) => apply frame_ask
  | |- frame (str_exn _) => apply frame_ask
  | |- frame (bind _ _) => apply frame_bind; [|intro]
  | |- frame (try_except _ _) => apply frame_try_except; [|intro]
  | |- frame (match ?x with _ => _ end) => destruct x
  | |- frame (fun w => (Ok _, w)) => apply frame_pure
  | |- frame _ => solve [eauto with store]
  end.

Ltac frame_auto := repeat frame_step.

Lemma frame_execute_query {A} (stmt : M A) :
  frame stmt -> frame (execute_query stmt).
Proof. intros H. unfold execute_query. frame_auto. Qed.

Lemma frame_reraise_as_database {A} (prefix : string) (e : Exn) :
  frame (@reraise_as_database A prefix e).
Proof. unfold reraise_as_database. frame_auto. Qed.

Lemma frame_select_user_by_email (email : string) :
  frame (Sql.select_user_by_email email).
Proof. unfold Sql.select_user_by_email. frame_auto. Qed.

Lemma frame_select_user_by_id (user_id : string) :
  frame (Sql.select_user_by_id user_id).
Proof. unfold Sql.select_user_by_id. frame_auto. Qed.

Lemma frame_select_activation_code (user_id code : string) :
  frame (Sql.select_activation_code user_id code).
Proof. unfold Sql.select_activation_code. frame_auto. Qed.

#[local] Hint Resolve frame_execute_query frame_reraise_as_database
  frame_select_user_by_email frame_select_user_by_id
  frame_select_activation_code : store.

Lemma frame_User_of_row (r : User.t) : frame (User_of_row r).
Proof. unfold User_of_row, User_init, validate_email. frame_auto. Qed.

Lemma frame_ActivationCode_of_row (r : ActivationCode.t) :
  frame (ActivationCode_of_row r).
Proof. unfold ActivationCode_of_row, ActivationCode_init. frame_auto. Qed.

#[local] Hint Resolve frame_User_of_row frame_ActivationCode_of_row : store.

Lemma frame_get_user_by_email (email : string) (flag : bool) :
  frame (UserRepository.get_user_by_email email flag).
Proof. unfold UserRepository.get_user_by_email. frame_auto. Qed.

Lemma frame_get_user_by_id (user_id : string) :
  frame (UserRepository.get_user_by_id user_id).
Proof. unfold UserRepository.get_user_by_id. frame_auto. Qed.

#[local] Hint Resolve frame_get_user_by_email frame_get_user_by_id : store.

Lemma frame_authenticate (email password : string) :
  frame (UserService._authenticate_user email password).
Proof.
  unfold UserService._authenticate_user, UserRepository.verify_password.
  frame_auto.
Qed.

Lemma frame_get_activation_code (user_id code : string) :
  frame (ActivationCodeRepository.get_activation_code user_id code).
Proof. unfold ActivationCodeRepository.get_activation_code. frame_auto. Qed.

#[local] Hint Resolve frame_authenticate frame_get_activation_code : store.

Lemma frame_verify_activation_code (user_id code : string) :
  frame (UserService._verify_activation_code user_id code).
Proof.
  unfold UserService._verify_activation_code, is_expired. frame_auto.
Qed.

#[local] Hint Resolve frame_verify_activation_code : store.

(* ===================================================================== *)
(** * Which exceptions leave the repositories *)
(* ===================================================================== *)

(** Unfolds the monadic layer, and nothing below it. *)
Ltac mrun :=
  cbv beta iota zeta delta
    [bind ret raise raise_service try_except observe ask utc_now
     datetime_utcnow str_exn reraise_as_database execute_query
     validate_email User_of_row User_init ActivationCode_of_row
     ActivationCode_init is_expired
     Sql.select_user_by_email Sql.select_user_by_id
     Sql.select_activation_code Sql.update_user_status Sql.update_codes
     Sql.mark_code_used Sql.invalidate_unused
     UserRepository.get_user_by_email UserRepository.get_user_by_id
     UserRepository.verify_password UserRepository.update_user_status
     ActivationCodeRepository.get_activation_code
     ActivationCodeRepository.mark_code_as_used
     ActivationCodeRepository.invalidate_user_codes
     UserService._authenticate_user UserService._verify_activation_code
     is_UserNotFoundException exc_class Exc.UserNotFoundException_
     Exc.AuthenticationException_ Exc.DatabaseException_
     Exc.ValidationException_].

Ltac mrun_in H :=
  cbv beta iota zeta delta
    [bind ret raise raise_service try_except observe ask utc_now
     datetime_utcnow str_exn reraise_as_database execute_query
     validate_email User_of_row User_init ActivationCode_of_row
     ActivationCode_init is_expired
     Sql.select_user_by_email Sql.select_user_by_id
     Sql.select_activation_code Sql.update_user_status Sql.update_codes
     Sql.mark_code_used Sql.invalidate_unused
     UserRepository.get_user_by_email UserRepository.get_user_by_id
     UserRepository.verify_password UserRepository.update_user_status
     ActivationCodeRepository.get_activation_code
     ActivationCodeRepository.mark_code_as_used
     ActivationCodeRepository.invalidate_user_codes
     UserService._authenticate_user UserService._verify_activation_code
     is_UserNotFoundException exc_class Exc.UserNotFoundException_
     Exc.AuthenticationException_ Exc.DatabaseException_
     Exc.ValidationException_] in H.

Lemma raises_only_reraise {A} (m : M A) (prefix : string) :
  raises_only is_DatabaseException
    (try_except m (reraise_as_database prefix)).
Proof.
  intros w e w' H. unfold try_except in H.
  destruct (m w) as [[a|e0] w1]; [discriminate|].
  mrun_in H. inversion H; subst. reflexivity.
Qed.

Lemma update_user_status_raises (user_id : string) (status : UserStatus)
    (activated_at : option datetime) :
  raises_only is_DatabaseException
    (UserRepository.update_user_status user_id status activated_at).
Proof. apply raises_only_reraise. Qed.

Lemma mark_code_as_used_raises (user_id code : string) :
  raises_only is_DatabaseException
    (ActivationCodeRepository.mark_code_as_used user_id code).
Proof. apply raises_only_reraise. Qed.

(* ===================================================================== *)
(** * Failed activations *)
(* ===================================================================== *)

(** Claim C10.  Whenever [activate_user] raises [AuthenticationException],
    [UserAlreadyActivatedException], [InvalidActivationCodeException] or
    [ActivationCodeExpiredException], the table of users, the table of
    activation codes and the queue are what they were before the call:
    no status, [activated_at], [is_used] or [used_at] has changed, and a
    wrong code has consumed nothing. *)
Theorem failed_activation_leaves_store
    (email password code : string) (w w' : World) (e : ServiceError) :
  UserService.activate_user email password code w = (Raise (Service e), w') ->
  exc_class e = AuthenticationException
  \/ exc_class e = UserAlreadyActivatedException
  \/ exc_class e = InvalidActivationCodeException
  \/ exc_class e = ActivationCodeExpiredException ->
  users w' = users w
  /\ activation_codes w' = activation_codes w
  /\ queue w' = queue w.
Proof.
  intros Hrun Hclass.
  assert (Hsame : same_store w w');
    [|destruct Hsame as (_ & ? & ? & ?); auto].
  unfold UserService.activate_user in Hrun.
  apply bind_inv in Hrun.
  destruct Hrun as [(user & w1 & Hauth & Hrest) | (e1 & Hauth & _)].
  2:{ eapply frame_authenticate; eauto. }
  apply frame_authenticate in Hauth.
  destruct (is_active user).
  { inversion Hrest; subst. exact Hauth. }
  apply bind_inv in Hrest.
  destruct Hrest as [([] & w2 & Hver & Hrest) | (e2 & Hver & _)].
  2:{ eapply same_store_trans; [exact Hauth|].
      eapply frame_verify_activation_code; eauto. }
  exfalso.
  apply bind_inv in Hrest.
  destruct Hrest as [(now & w3 & _ & Hrest) | (e3 & Hnow & _)];
    [|discriminate].
  apply bind_inv in Hrest.
  destruct Hrest as [(u & w4 & _ & Hrest) | (e4 & Hupd & He)].
  2:{ apply update_user_status_raises in Hupd.
      inversion He; subst. simpl in Hupd.
      destruct Hclass as [H|[H|[H|H]]]; congruence. }
  apply bind_inv in Hrest.
  destruct Hrest as [([] & w5 & _ & Hrest) | (e5 & Hmark & He)].
  - discriminate.
  - apply mark_code_as_used_raises in Hmark.
    inversion He; subst. simpl in Hmark.
    destruct Hclass as [H|[H|[H|H]]]; congruence.
Qed.

(** A wrong code for the pending user of [Sample.registered]: the call
    raises [InvalidActivationCodeException] and the live code "4821"
    stays as it was. *)
Lemma failed_activation_leaves_store_witness :
  let w' := snd (UserService.activate_user "a@x.com" "pass1234" "9999"
                   Sample.registered) in
  fst (UserService.activate_user "a@x.com" "pass1234" "9999"
         Sample.registered)
  = Raise (Service Exc.InvalidActivationCodeException_)
  /\ users w' = users Sample.registered
  /\ activation_codes w' = activation_codes Sample.registered
  /\ queue w' = queue Sample.registered.
Proof.
  intros w'. split; [vm_compute; reflexivity|].
  apply (failed_activation_leaves_store
           "a@x.com" "pass1234" "9999" Sample.registered w'
           Exc.InvalidActivationCodeException_).
  - vm_compute. reflexivity.
  - right. right. left. reflexivity.
Defined.

(* ===================================================================== *)
(** * Looking a user up and authenticating *)
(* ===================================================================== *)

Lemma find_has_email (email : string) (us : list User.t) (row : User.t) :
  find (Sql.user_has_email email) us = Some row ->
  In row us /\ User.email row = email.
Proof.
  intros H. apply find_some in H. destruct H as [Hin He].
  split; auto. now apply String.eqb_eq.
Qed.

Lemma find_has_id (user_id : string) (us : list User.t) (row : User.t) :
  find (Sql.user_has_id user_id) us = Some row ->
  In row us /\ User.user_id row = user_id.
Proof.
  intros H. apply find_some in H. destruct H as [Hin He].
  split; auto. now apply String.eqb_eq.
Qed.

(** A row with a well-formed email becomes an entity. *)
Lemma User_of_row_ok (row : User.t) (w : World) :
  email_ok (User.email row) = true ->
  exists u w',
    User_of_row row w = (Ok u, w')
    /\ entity_of row u /\ same_store w w'.
Proof.
  intros Hok. mrun. rewrite Hok.
  destruct (User.user_id row) as [|c s] eqn:Eid;
    destruct (User.created_at row) as [c0|];
    (eexists; eexists; split; [reflexivity|]; split;
     [unfold entity_of; simpl; intuition congruence
     |unfold same_store; simpl; auto]).
Qed.

(** A row with a malformed email does not: the constructor raises. *)
Lemma User_of_row_bad (row : User.t) (w : World) :
  email_ok (User.email row) = false ->
  User_of_row row w = (Raise (Service invalid_email), w).
Proof. intros Hbad. mrun. rewrite Hbad. reflexivity. Qed.

Lemma get_user_by_email_missing (email : string) (flag : bool) (w : World) :
  find (Sql.user_has_email email) (users w) = None ->
  UserRepository.get_user_by_email email flag w
  = if flag
    then (Raise (Service Exc.UserNotFoundException_), w)
    else (Ok None, w).
Proof. intros Hf. mrun. rewrite Hf. now destruct flag. Qed.

Lemma get_user_by_email_found (email : string) (flag : bool) (w : World)
    (row : User.t) :
  find (Sql.user_has_email email) (users w) = Some row ->
  email_ok email = true ->
  exists u w',
    UserRepository.get_user_by_email email flag w = (Ok (Some u), w')
    /\ entity_of row u /\ same_store w w'.
Proof.
  intros Hf Hok.
  destruct (find_has_email _ _ _ Hf) as [_ He].
  destruct (User_of_row_ok row w) as (u & w' & Hrow & Hent & Hsame);
    [congruence|].
  exists u, w'. split; [|auto].
  unfold UserRepository.get_user_by_email.
  erewrite try_except_ok; [reflexivity|].
  erewrite bind_ok.
  2:{ apply execute_query_ok. unfold Sql.select_user_by_email.
      rewrite Hf. reflexivity. }
  cbv beta iota. erewrite bind_ok by exact Hrow. reflexivity.
Qed.

Lemma get_user_by_email_malformed (email : string) (flag : bool) (w : World)
    (row : User.t) :
  find (Sql.user_has_email email) (users w) = Some row ->
  email_ok email = false ->
  exists e,
    UserRepository.get_user_by_email email flag w = (Raise (Service e), w)
    /\ exc_class e = DatabaseException.
Proof.
  intros Hf Hbad.
  destruct (find_has_email _ _ _ Hf) as [_ He].
  eexists. split.
  - unfold UserRepository.get_user_by_email.
    erewrite try_except_raise.
    2:{ erewrite bind_ok.
        2:{ apply execute_query_ok. unfold Sql.select_user_by_email.
            rewrite Hf. reflexivity. }
        cbv beta iota. apply bind_raise. apply User_of_row_bad.
        congruence. }
    reflexivity.
  - reflexivity.
Qed.

(** The four ways [_authenticate_user] can go. *)
Lemma authenticate_missing (email password : string) (w : World) :
  find (Sql.user_has_email email) (users w) = None ->
  UserService._authenticate_user email password w
  = (Raise (Service Exc.AuthenticationException_), w).
Proof.
  intros Hf. unfold UserService._authenticate_user.
  erewrite try_except_raise.
  2:{ apply bind_raise. rewrite get_user_by_email_missing by exact Hf.
      reflexivity. }
  reflexivity.
Qed.

Lemma authenticate_malformed (email password : string) (w : World)
    (row : User.t) :
  find (Sql.user_has_email email) (users w) = Some row ->
  email_ok email = false ->
  exists e,
    UserService._authenticate_user email password w = (Raise (Service e), w)
    /\ exc_class e = DatabaseException.
Proof.
  intros Hf Hbad.
  destruct (get_user_by_email_malformed email true w row Hf Hbad)
    as (e & Hget & Hcls).
  exists e. split; auto.
  unfold UserService._authenticate_user.
  erewrite try_except_raise by (apply bind_raise; exact Hget).
  unfold is_UserNotFoundException. rewrite Hcls. reflexivity.
Qed.

Lemma authenticate_wrong_password (email password : string) (w : World)
    (row : User.t) :
  find (Sql.user_has_email email) (users w) = Some row ->
  email_ok email = true ->
  checkpw (env w) password (User.password_hash row) = false ->
  exists w',
    UserService._authenticate_user email password w
    = (Raise (Service Exc.AuthenticationException_), w')
    /\ same_store w w'.
Proof.
  intros Hf Hok Hpw.
  destruct (get_user_by_email_found email true w row Hf Hok)
    as (u & w' & Hget & Hent & Hsame).
  exists w'. split; auto.
  unfold UserService._authenticate_user.
  erewrite try_except_raise.
  2:{ erewrite bind_ok by exact Hget. cbv beta iota.
      unfold UserRepository.verify_password.
      erewrite bind_ok by reflexivity.
      destruct Hent as (_ & Hh & _). destruct Hsame as (He & _).
      rewrite He, Hh, Hpw. reflexivity. }
  reflexivity.
Qed.

Lemma authenticate_good (email password : string) (w : World)
    (row : User.t) :
  find (Sql.user_has_email email) (users w) = Some row ->
  email_ok email = true ->
  checkpw (env w) password (User.password_hash row) = true ->
  exists u w',
    UserService._authenticate_user email password w = (Ok u, w')
    /\ entity_of row u /\ same_store w w'.
Proof.
  intros Hf Hok Hpw.
  destruct (get_user_by_email_found email true w row Hf Hok)
    as (u & w' & Hget & Hent & Hsame).
  exists u, w'. split; auto.
  unfold UserService._authenticate_user.
  erewrite try_except_ok; [reflexivity|].
  erewrite bind_ok by exact Hget. cbv beta iota.
  unfold UserRepository.verify_password.
  erewrite bind_ok by reflexivity.
  destruct Hent as (_ & Hh & _). destruct Hsame as (He & _).
  rewrite He, Hh, Hpw. reflexivity.
Qed.

(** What a successful authentication tells about the store. *)
Lemma authenticate_ok_inv (email password : string) (w w1 : World)
    (user : User.t) :
  UserService._authenticate_user email password w = (Ok user, w1) ->
  exists row,
    find (Sql.user_has_email email) (users w) = Some row
    /\ email_ok email = true
    /\ checkpw (env w) password (User.password_hash row) = true
    /\ entity_of row user /\ same_store w w1.
Proof.
  intros Hrun.
  destruct (find (Sql.user_has_email email) (users w)) as [row|] eqn:Hf.
  2:{ rewrite authenticate_missing in Hrun by exact Hf. discriminate. }
  destruct (email_ok email) eqn:Hok.
  2:{ destruct (authenticate_malformed email password w row Hf Hok)
        as (e & H & _). rewrite H in Hrun. discriminate. }
  destruct (checkpw (env w) password (User.password_hash row)) eqn:Hpw.
  2:{ destruct (authenticate_wrong_password email password w row Hf Hok Hpw)
        as (w' & H & _). rewrite H in Hrun. discriminate. }
  destruct (authenticate_good email password w row Hf Hok Hpw)
    as (u & w' & H & Hent & Hsame).
  rewrite H in Hrun. inversion Hrun; subst. exists row. auto.
Qed.

Lemma activate_auth_failure (email password code : string) (w w' : World)
    (e : Exn) :
  UserService._authenticate_user email password w = (Raise e, w') ->
  UserService.activate_user email password code w = (Raise e, w')
  /\ UserService.resend_activation_code email password w = (Raise e, w').
Proof.
  intros H. split.
  - unfold UserService.activate_user. now apply bind_raise.
  - unfold UserService.resend_activation_code. now apply bind_raise.
Qed.



(* ===================================================================== *)
(** * Users that are already active *)
(* ===================================================================== *)

Lemma entity_is_active (row u : User.t) :
  entity_of row u -> User.status row = ACTIVE -> is_active u = true.
Proof.
  intros (_ & _ & Hs & _) Ha. unfold is_active. now rewrite Hs, Ha.
Qed.

(** Claim C6, as the code has it.  For a stored user whose status is
    ACTIVE (and whose email is well-formed), [activate_user] and
    [resend_activation_code] raise [UserAlreadyActivatedException] whenever
    the password verifies, whatever the code submitted; when the password
    does not verify they raise [AuthenticationException], because the
    credentials are checked first.  In both cases the store is left
    alone. *)
Theorem active_user_rejected_after_authentication
    (w : World) (email password code : string) (row : User.t) :
  find (Sql.user_has_email email) (users w) = Some row ->
  User.status row = ACTIVE ->
  email_ok email = true ->
  let expected :=
    if checkpw (env w) password (User.password_hash row)
    then Exc.UserAlreadyActivatedException_
    else Exc.AuthenticationException_ in
  fst (UserService.activate_user email password code w)
  = Raise (Service expected)
  /\ fst (UserService.resend_activation_code email password w)
     = Raise (Service expected)
  /\ same_store w (snd (UserService.activate_user email password code w))
  /\ same_store w (snd (UserService.resend_activation_code email password w)).
Proof.
  intros Hf Hactive Hok expected. unfold expected.
  destruct (checkpw (env w) password (User.password_hash row)) eqn:Hpw.
  - destruct (authenticate_good email password w row Hf Hok Hpw)
      as (u & w' & Hauth & Hent & Hsame).
    pose proof (entity_is_active row u Hent Hactive) as Hact.
    unfold UserService.activate_user, UserService.resend_activation_code.
    rewrite !(bind_ok _ _ _ _ _ Hauth), Hact. simpl. auto.
  - destruct (authenticate_wrong_password email password w row Hf Hok Hpw)
      as (w' & Hauth & Hsame).
    destruct (activate_auth_failure email password code _ _ _ Hauth)
      as [A R].
    rewrite A, R. simpl. auto.
Qed.

(** The activated user of [Sample.activated], with the right password and
    an arbitrary code. *)
Lemma active_user_rejected_after_authentication_witness :
  fst (UserService.activate_user "a@x.com" "pass1234" "0000"
         Sample.activated)
  = Raise (Service Exc.UserAlreadyActivatedException_)
  /\ fst (UserService.resend_activation_code "a@x.com" "pass1234"
            Sample.activated)
     = Raise (Service Exc.UserAlreadyActivatedException_).
Proof.
  assert (Hrow : exists row,
             find (Sql.user_has_email "a@x.com") (users Sample.activated)
             = Some row
             /\ User.status row = ACTIVE
             /\ checkpw (env Sample.activated) "pass1234"
                        (User.password_hash row) = true).
  { eexists. repeat split; vm_compute; reflexivity. }
  destruct Hrow as (row & Hf & Hs & Hpw).
  pose proof (active_user_rejected_after_authentication
                Sample.activated "a@x.com" "pass1234" "0000" row
                Hf Hs ltac:(vm_compute; reflexivity)) as H.
  cbv zeta in H. rewrite Hpw in H.
  split; apply H.
Defined.

(** Claim C6 as stated fails on the code: the user of [Sample.activated]
    is ACTIVE, and a call naming that email with the password "wrong"
    raises [AuthenticationException], not
    [UserAlreadyActivatedException]. *)
Lemma active_user_wrong_password_counterexample :
  (exists row,
     find (Sql.user_has_email "a@x.com") (users Sample.activated) = Some row
     /\ User.status row = ACTIVE)
  /\ fst (UserService.activate_user "a@x.com" "wrong" "4821"
            Sample.activated)
     = Raise (Service Exc.AuthenticationException_)
  /\ fst (UserService.resend_activation_code "a@x.com" "wrong"
            Sample.activated)
     = Raise (Service Exc.AuthenticationException_)
  /\ Exc.AuthenticationException_ <> Exc.UserAlreadyActivatedException_.
Proof.
  split; [eexists; split; vm_compute; reflexivity|].
  split; [vm_compute; reflexivity|].
  split; [vm_compute; reflexivity|].
  discriminate.
Defined.

(* ===================================================================== *)
(** * Verifying a code *)
(* ===================================================================== *)

Lemma find_has_key (user_id code : string) (cs : list ActivationCode.t)
    (row : ActivationCode.t) :
  find (Sql.code_has_key user_id code) cs = Some row ->
  In row cs /\ ActivationCode.user_id row = user_id
  /\ ActivationCode.code row = code.
Proof.
  intros H. apply find_some in H. destruct H as [Hin He].
  unfold Sql.code_has_key in He. apply andb_true_iff in He.
  destruct He as [H1 H2]. apply String.eqb_eq in H1, H2. auto.
Qed.

Lemma add_0_r_tick (w : World) : (tick w + 0)%nat = tick w.
Proof. lia. Qed.

Lemma add_1_r_tick (w : World) : (tick w + 1)%nat = S (tick w).
Proof. lia. Qed.

(** The three ways [_verify_activation_code] raises, and the way it
    passes. *)
Lemma verify_absent (user_id code : string) (w : World) :
  find (Sql.code_has_key user_id code) (activation_codes w) = None ->
  UserService._verify_activation_code user_id code w
  = (Raise (Service Exc.InvalidActivationCodeException_), w).
Proof. intros Hf. mrun. rewrite Hf. reflexivity. Qed.

Lemma verify_used (user_id code : string) (w : World)
    (row : ActivationCode.t) :
  find (Sql.code_has_key user_id code) (activation_codes w) = Some row ->
  ActivationCode.is_used row = true ->
  exists w',
    UserService._verify_activation_code user_id code w
    = (Raise (Service Exc.InvalidActivationCodeException_), w')
    /\ same_store w w'.
Proof.
  intros Hf Hu. mrun. rewrite Hf.
  destruct (ActivationCode.created_at row); cbn; rewrite Hu;
    (eexists; split; [reflexivity|]); unfold same_store; simpl; auto.
Qed.

Lemma verify_unused (user_id code : string) (w : World)
    (row : ActivationCode.t) :
  find (Sql.code_has_key user_id code) (activation_codes w) = Some row ->
  ActivationCode.is_used row = false ->
  exists w',
    UserService._verify_activation_code user_id code w
    = (if ActivationCode.expires_at row <=? check_time w row
       then Raise (Service Exc.ActivationCodeExpiredException_)
       else Ok tt,
       w')
    /\ same_store w w'.
Proof.
  intros Hf Hu. unfold check_time, code_reads. mrun. rewrite Hf.
  destruct (ActivationCode.created_at row); cbn; rewrite Hu; cbn.
  - rewrite add_0_r_tick.
    destruct (ActivationCode.expires_at row <=? clock (env w) (tick w));
      (eexists; split; [reflexivity|]); unfold same_store; simpl; auto.
  - rewrite add_1_r_tick.
    destruct (ActivationCode.expires_at row <=? clock (env w) (S (tick w)));
      (eexists; split; [reflexivity|]); unfold same_store; simpl; auto.
Qed.


Lemma activate_after_authentication (email password code : string)
    (w w1 : World) (user : User.t) :
  UserService._authenticate_user email password w = (Ok user, w1) ->
  is_active user = false ->
  UserService.activate_user email password code w
  = bind (UserService._verify_activation_code (User.user_id user) code)
         (fun _ =>
            now <- utc_now ;;
            activated_user <-
              UserRepository.update_user_status (User.user_id user) ACTIVE
                                                (Some now) ;;
            ActivationCodeRepository.mark_code_as_used (User.user_id user)
                                                       code ;;
            ret activated_user)
         w1.
Proof.
  intros Hauth Hact. unfold UserService.activate_user.
  rewrite (bind_ok _ _ _ _ _ Hauth), Hact. reflexivity.
Qed.



(* ===================================================================== *)
(** * The two writes of an activation *)
(* ===================================================================== *)

Lemma find_map_preserved {A} (p : A -> bool) (f : A -> A) (l : list A) :
  (forall x, p (f x) = p x) ->
  find p (map f l) = option_map f (find p l).
Proof.
  intros Hp. induction l as [|x l IH]; simpl; auto.
  rewrite Hp. destruct (p x); auto.
Qed.

(** Under the primary key a row is the one its id selects. *)
Lemma find_by_primary_key (us : list User.t) (row : User.t) :
  NoDup (map User.user_id us) ->
  In row us ->
  find (Sql.user_has_id (User.user_id row)) us = Some row.
Proof.
  induction us as [|r us IH]; simpl; intros Hnd Hin; [contradiction|].
  inversion Hnd as [|? ? Hnotin Hnd']; subst.
  destruct Hin as [-> | Hin].
  - unfold Sql.user_has_id. now rewrite String.eqb_refl.
  - destruct (Sql.user_has_id (User.user_id row) r) eqn:E.
    + exfalso. apply Hnotin. apply String.eqb_eq in E. rewrite E.
      now apply in_map.
    + auto.
Qed.

Lemma get_user_by_id_found (user_id : string) (w : World) (row : User.t) :
  find (Sql.user_has_id user_id) (users w) = Some row ->
  email_ok (User.email row) = true ->
  exists u w',
    UserRepository.get_user_by_id user_id w = (Ok u, w')
    /\ entity_of row u /\ same_store w w'.
Proof.
  intros Hf Hok.
  destruct (User_of_row_ok row w Hok) as (u & w' & Hrow & Hent & Hsame).
  exists u, w'. split; [|auto].
  unfold UserRepository.get_user_by_id.
  erewrite try_except_ok; [reflexivity|].
  erewrite bind_ok.
  2:{ apply execute_query_ok. unfold Sql.select_user_by_id.
      rewrite Hf. reflexivity. }
  exact Hrow.
Qed.

Lemma update_user_status_run (user_id : string) (status : UserStatus)
    (activated_at : option datetime) (w : World) (row : User.t) :
  NoDup (map User.user_id (users w)) ->
  In row (users w) ->
  User.user_id row = user_id ->
  email_ok (User.email row) = true ->
  let t := clock (env w) (tick w) in
  exists u w',
    UserRepository.update_user_status user_id status activated_at w
    = (Ok u, w')
    /\ entity_of (Sql.set_status status (Some t) activated_at row) u
    /\ users w' = users_with_status user_id status (Some t) activated_at
                                    (users w)
    /\ activation_codes w' = activation_codes w
    /\ queue w' = queue w /\ env w' = env w.
Proof.
  intros Hnd Hin Hid Hok t.
  set (f := fun r => if Sql.user_has_id user_id r
                     then Sql.set_status status (Some t) activated_at r
                     else r).
  set (W := set_users (map f (users w)) (next_tick w)).
  assert (Hfind : find (Sql.user_has_id user_id) (users W)
                  = Some (Sql.set_status status (Some t) activated_at row)).
  { unfold W. simpl. rewrite find_map_preserved.
    - subst user_id. rewrite (find_by_primary_key _ _ Hnd Hin). simpl.
      unfold f, Sql.user_has_id. now rewrite String.eqb_refl.
    - intros x. unfold f.
      destruct (Sql.user_has_id user_id x) eqn:E; [|exact E].
      unfold Sql.user_has_id in *. simpl. exact E. }
  destruct (get_user_by_id_found user_id W _ Hfind Hok)
    as (u & w' & Hget & Hent & (He & Hu & Hc & Hq)).
  exists u, w'. split.
  - unfold UserRepository.update_user_status.
    erewrite try_except_ok; [reflexivity|].
    erewrite bind_ok by reflexivity.
    erewrite bind_ok by (apply execute_query_ok; reflexivity).
    exact Hget.
  - split; [exact Hent|]. rewrite Hu, Hc, Hq, He. unfold W. simpl. auto.
Qed.

Lemma mark_code_as_used_run (user_id code : string) (w : World) :
  ActivationCodeRepository.mark_code_as_used user_id code w
  = (Ok tt,
     set_activation_codes
       (codes_with_used user_id code (clock (env w) (tick w))
                        (activation_codes w))
       (next_tick w)).
Proof. reflexivity. Qed.

Lemma has_key_set_used (user_id code : string) (t : datetime)
    (r : ActivationCode.t) :
  Sql.code_has_key user_id code
    (if Sql.code_has_key user_id code r then Sql.set_used t r else r)
  = Sql.code_has_key user_id code r.
Proof. now destruct (Sql.code_has_key user_id code r) eqn:E. Qed.

Lemma has_email_set_status (email user_id : string) (s : UserStatus)
    (a b : option datetime) (r : User.t) :
  Sql.user_has_email email
    (if Sql.user_has_id user_id r then Sql.set_status s a b r else r)
  = Sql.user_has_email email r.
Proof. now destruct (Sql.user_has_id user_id r). Qed.

(* ===================================================================== *)
(** * A successful activation *)
(* ===================================================================== *)

(** Claim C1, as the code has it.  With the primary key of [users] in
    force (ids distinct and not empty): when the credentials
    authenticate a PENDING user and the store has a row for (user id,
    code) that is unused and not expired at the clock reading of the
    check, [activate_user] returns that user with status ACTIVE and
    [activated_at] set; the row of the user in [users] carries the new
    status and the same [activated_at]; the code row is flagged used with
    [used_at] set; nothing else changes.  A second [activate_user] with the
    same credentials and code then raises [UserAlreadyActivatedException]:
    the already-active guard comes before the code is looked at (the code
    itself would by now be rejected with
    [InvalidActivationCodeException]). *)
Theorem activation_succeeds_once
    (w w1 : World) (email password code : string)
    (user : User.t) (crow : ActivationCode.t) :
  UserService._authenticate_user email password w = (Ok user, w1) ->
  User.status user = PENDING ->
  NoDup (map User.user_id (users w)) ->
  ~ In EmptyString (map User.user_id (users w)) ->
  find (Sql.code_has_key (User.user_id user) code) (activation_codes w)
  = Some crow ->
  ActivationCode.is_used crow = false ->
  check_time w1 crow < ActivationCode.expires_at crow ->
  exists (activated : User.t) (t_act t_upd t_used : datetime) (w' : World),
    UserService.activate_user email password code w = (Ok activated, w')
    /\ User.status activated = ACTIVE
    /\ User.activated_at activated = Some t_act
    /\ User.user_id activated = User.user_id user
    /\ User.email activated = email
    /\ users w'
       = users_with_status (User.user_id user) ACTIVE (Some t_upd)
                           (Some t_act) (users w)
    /\ (exists row',
          find (Sql.user_has_email email) (users w') = Some row'
          /\ User.user_id row' = User.user_id user
          /\ User.status row' = ACTIVE
          /\ User.activated_at row' = Some t_act)
    /\ activation_codes w'
       = codes_with_used (User.user_id user) code t_used
                         (activation_codes w)
    /\ (exists crow',
          find (Sql.code_has_key (User.user_id user) code)
               (activation_codes w') = Some crow'
          /\ ActivationCode.is_used crow' = true
          /\ ActivationCode.used_at crow' = Some t_used)
    /\ queue w' = queue w
    /\ fst (UserService.activate_user email password code w')
       = Raise (Service Exc.UserAlreadyActivatedException_)
    /\ fst (UserService._verify_activation_code (User.user_id user) code w')
       = Raise (Service Exc.InvalidActivationCodeException_).
Proof.
  intros Hauth Hpending Hpk Hids Hf Hunused Hlive.
  destruct (authenticate_ok_inv _ _ _ _ _ Hauth)
    as (row & Hfrow & Hok & Hpw & Hent & Hsame).
  destruct (find_has_email _ _ _ Hfrow) as [Hin Hemail].
  assert (Hidne : User.user_id row <> "").
  { intros E. apply Hids. rewrite <- E. now apply in_map. }
  destruct Hent as (He & Hh & Hs & Ha & Hid). specialize (Hid Hidne).
  assert (Hact : is_active user = false).
  { unfold is_active. now rewrite Hpending. }
  rewrite (activate_after_authentication _ _ code _ _ _ Hauth Hact).
  destruct Hsame as (Henv1 & Hu1 & Hc1 & Hq1).
  destruct (verify_unused (User.user_id user) code w1 crow)
    as (w2 & Hv & (Henv2 & Hu2 & Hc2 & Hq2)); [now rewrite Hc1 | exact Hunused |].
  apply Z.leb_gt in Hlive. rewrite Hlive in Hv.
  erewrite bind_ok by exact Hv.
  erewrite bind_ok by reflexivity.
  set (now := clock (env w2) (tick w2)).
  destruct (update_user_status_run (User.user_id user) ACTIVE (Some now)
              (next_tick w2) row)
    as (u & w4 & Hupd & Hentu & Hu4 & Hc4 & Hq4 & Henv4).
  { simpl. now rewrite Hu2, Hu1. }
  { simpl. now rewrite Hu2, Hu1. }
  { now symmetry. }
  { now rewrite Hemail. }
  erewrite bind_ok by exact Hupd.
  erewrite bind_ok by apply mark_code_as_used_run.
  unfold ret.
  set (t_upd := clock (env (next_tick w2)) (tick (next_tick w2))) in *.
  set (t_used := clock (env w4) (tick w4)).
  set (w' := set_activation_codes
               (codes_with_used (User.user_id user) code t_used
                                (activation_codes w4))
               (next_tick w4)).
  assert (Husers : users w'
                   = users_with_status (User.user_id user) ACTIVE
                       (Some t_upd) (Some now) (users w)).
  { unfold w'. simpl. rewrite Hu4. simpl. now rewrite Hu2, Hu1. }
  assert (Hcodes : activation_codes w'
                   = codes_with_used (User.user_id user) code t_used
                                     (activation_codes w)).
  { unfold w'. simpl. rewrite Hc4. simpl. now rewrite Hc2, Hc1. }
  assert (Henv : env w' = env w).
  { unfold w'. simpl. rewrite Henv4. simpl. now rewrite Henv2, Henv1. }
  assert (Hrow' : find (Sql.user_has_email email) (users w')
                  = Some (Sql.set_status ACTIVE (Some t_upd) (Some now) row)).
  { rewrite Husers. unfold users_with_status.
    rewrite find_map_preserved by (intros; apply has_email_set_status).
    rewrite Hfrow. simpl. unfold Sql.user_has_id.
    now rewrite <- Hid, String.eqb_refl. }
  assert (Hcrow' : find (Sql.code_has_key (User.user_id user) code)
                        (activation_codes w')
                   = Some (Sql.set_used t_used crow)).
  { rewrite Hcodes. unfold codes_with_used.
    rewrite find_map_preserved by (intros; apply has_key_set_used).
    rewrite Hf. simpl.
    apply find_some in Hf. destruct Hf as [_ Hkey]. now rewrite Hkey. }
  destruct Hentu as (Hue & Huh & Hus & Hua & Huid).
  exists u, now, t_upd, t_used, w'.
  split; [reflexivity|].
  split; [exact Hus|].
  split; [exact Hua|].
  split; [rewrite Huid; simpl; congruence|].
  split; [rewrite Hue; simpl; exact Hemail|].
  split; [exact Husers|].
  split.
  { eexists. split; [exact Hrow'|]. simpl. auto. }
  split; [exact Hcodes|].
  split.
  { eexists. split; [exact Hcrow'|]. simpl. auto. }
  split; [unfold w'; simpl; rewrite Hq4; simpl; now rewrite Hq2, Hq1|].
  split.
  - destruct (authenticate_good email password w' _ Hrow' Hok)
      as (u2 & w2' & Hauth2 & Hent2 & _).
    { rewrite Henv. simpl. exact Hpw. }
    unfold UserService.activate_user.
    rewrite (bind_ok _ _ _ _ _ Hauth2).
    rewrite (entity_is_active _ _ Hent2 eq_refl). reflexivity.
  - destruct (verify_used _ _ _ _ Hcrow' eq_refl) as (w2' & Hv2 & _).
    now rewrite Hv2.
Qed.

(** The scenario of the specification on [Sample.registered]: the user
    "a@x.com" activates with the code "4821", and the same call repeated
    on the resulting store raises [UserAlreadyActivatedException]. *)
Lemma activation_succeeds_once_witness :
  exists (activated : User.t) (w' : World),
    UserService.activate_user "a@x.com" "pass1234" "4821" Sample.registered
    = (Ok activated, w')
    /\ User.status activated = ACTIVE
    /\ fst (UserService.activate_user "a@x.com" "pass1234" "4821" w')
       = Raise (Service Exc.UserAlreadyActivatedException_).
Proof.
  assert (Hfst : exists user,
             fst (UserService._authenticate_user "a@x.com" "pass1234"
                    Sample.registered) = Ok user
             /\ User.user_id user = "u1" /\ User.status user = PENDING).
  { vm_compute. eexists. repeat split. }
  assert (Htick : tick (snd (UserService._authenticate_user
                               "a@x.com" "pass1234" Sample.registered))
                  = 10%nat).
  { vm_compute. reflexivity. }
  destruct (UserService._authenticate_user "a@x.com" "pass1234"
              Sample.registered) as [r w1] eqn:Hauth.
  destruct Hfst as (user & Hr & Hid & Hst). simpl in Hr, Htick. subst r.
  pose proof (frame_authenticate _ _ _ _ _ Hauth) as (Henv & _).
  edestruct (activation_succeeds_once
               Sample.registered w1 "a@x.com" "pass1234" "4821" user)
    as (activated & t_act & t_upd & t_used & w' & Hrun & Hstatus & _ & _
        & _ & _ & _ & _ & _ & _ & Hsecond & _).
  - exact Hauth.
  - exact Hst.
  - vm_compute. constructor; [intros []|constructor].
  - vm_compute. intros [H|[]]. discriminate.
  - rewrite Hid. vm_compute. reflexivity.
  - reflexivity.
  - unfold check_time. rewrite Htick, Henv. vm_compute. reflexivity.
  - exists activated, w'. auto.
Defined.

(** Claim C1 as stated fails on the code in its last part.  In
    [Sample.registered] the activation with the code "4821" succeeds and
    gives [Sample.activated]; the second call with the same code does not
    raise [InvalidActivationCodeException] but
    [UserAlreadyActivatedException]. *)
Lemma second_activation_counterexample :
  (exists activated,
     UserService.activate_user "a@x.com" "pass1234" "4821" Sample.registered
     = (Ok activated, Sample.activated)
     /\ User.status activated = ACTIVE
     /\ User.activated_at activated = Some 1011)
  /\ fst (UserService.activate_user "a@x.com" "pass1234" "4821"
            Sample.activated)
     = Raise (Service Exc.UserAlreadyActivatedException_)
  /\ fst (UserService.activate_user "a@x.com" "pass1234" "4821"
            Sample.activated)
     <> Raise (Service Exc.InvalidActivationCodeException_).
Proof.
  assert (H2 : fst (UserService.activate_user "a@x.com" "pass1234" "4821"
                      Sample.activated)
               = Raise (Service Exc.UserAlreadyActivatedException_)).
  { vm_compute. reflexivity. }
  split; [|split; [exact H2|rewrite H2; discriminate]].
  unfold Sample.activated, Sample.run.
  destruct (UserService.activate_user "a@x.com" "pass1234" "4821"
              Sample.registered) as [r w'] eqn:E.
  assert (Hr : exists activated,
             r = Ok activated /\ User.status activated = ACTIVE
             /\ User.activated_at activated = Some 1011).
  { apply (f_equal fst) in E. vm_compute in E. subst r.
    eexists. repeat split. }
  destruct Hr as (activated & -> & Hs & Ha).
  exists activated. simpl. auto.
Defined.

(* ===================================================================== *)
(** * Issuing a code *)
(* ===================================================================== *)

Lemma find_app {A} (p : A -> bool) (l1 l2 : list A) :
  find p (l1 ++ l2)
  = match find p l1 with
    | Some x => Some x
    | None => find p l2
    end.
Proof.
  induction l1 as [|x l1 IH]; simpl; auto. now destruct (p x).
Qed.

Lemma find_exists {A} (p : A -> bool) (l : list A) (x : A) :
  In x l -> p x = true -> exists y, find p l = Some y.
Proof.
  intros Hin Hp. destruct (find p l) as [y|] eqn:E; [eauto|].
  rewrite (find_none _ _ E x Hin) in Hp. discriminate.
Qed.

Lemma existsb_map_preserved {A} (p : A -> bool) (f : A -> A) (l : list A) :
  (forall x, p (f x) = p x) -> existsb p (map f l) = existsb p l.
Proof.
  intros Hp. induction l as [|x l IH]; simpl; auto. now rewrite Hp, IH.
Qed.

Lemma has_key_invalidated (user_id code uid : string) (t : datetime)
    (r : ActivationCode.t) :
  Sql.code_has_key user_id code
    (if unused_of uid r then Sql.set_used t r else r)
  = Sql.code_has_key user_id code r.
Proof. now destruct (unused_of uid r). Qed.

Lemma of_user_invalidated (user_id uid : string) (t : datetime)
    (r : ActivationCode.t) :
  Sql.code_of_user user_id
    (if unused_of uid r then Sql.set_used t r else r)
  = Sql.code_of_user user_id r.
Proof. now destruct (unused_of uid r). Qed.

(** After the invalidation every row of the user is flagged used. *)
Lemma invalidated_all_used (user_id : string) (t : datetime)
    (cs : list ActivationCode.t) (r : ActivationCode.t) :
  In r (codes_invalidated user_id t cs) ->
  Sql.code_of_user user_id r = true ->
  ActivationCode.is_used r = true.
Proof.
  unfold codes_invalidated. rewrite in_map_iff.
  intros (r0 & <- & _) Hu. rewrite of_user_invalidated in Hu.
  unfold unused_of. rewrite Hu. simpl.
  destruct (ActivationCode.is_used r0) eqn:E; simpl; auto.
Qed.

(** The rows of other users are not touched by the invalidation. *)
Lemma invalidated_others (user_id : string) (t : datetime)
    (cs : list ActivationCode.t) (r : ActivationCode.t) :
  In r cs -> Sql.code_of_user user_id r = false ->
  In r (codes_invalidated user_id t cs).
Proof.
  intros Hin Hu. unfold codes_invalidated. apply in_map_iff.
  exists r. split; auto. unfold unused_of. now rewrite Hu.
Qed.

Lemma invalidate_user_codes_run (user_id : string) (w : World) :
  ActivationCodeRepository.invalidate_user_codes user_id w
  = (Ok tt,
     set_activation_codes
       (codes_invalidated user_id (clock (env w) (tick w))
                          (activation_codes w))
       (next_tick w)).
Proof. reflexivity. Qed.

(** [create_activation_code]: the invalidation, then the insert with its
    two constraints. *)
Lemma create_activation_code_run (ac : ActivationCode.t) (w : World) :
  let uid := ActivationCode.user_id ac in
  let old := codes_invalidated uid (clock (env w) (tick w))
                               (activation_codes w) in
  exists e,
    exc_class e = DatabaseException
    /\ ActivationCodeRepository.create_activation_code ac w
       = if existsb (Sql.code_has_key uid (ActivationCode.code ac))
                    (activation_codes w)
            || negb (existsb (Sql.user_has_id uid) (users w))
         then (Raise (Service e), set_activation_codes old (next_tick w))
         else (Ok ac,
               set_activation_codes (old ++ [row_of ac]) (next_tick w)).
Proof.
  intros uid old.
  unfold ActivationCodeRepository.create_activation_code.
  rewrite (bind_ok _ _ _ _ _ (invalidate_user_codes_run uid w)).
  fold old.
  set (W := set_activation_codes old (next_tick w)).
  assert (Hkey : existsb (Sql.code_has_key uid (ActivationCode.code ac))
                         (activation_codes W)
                 = existsb (Sql.code_has_key uid (ActivationCode.code ac))
                           (activation_codes w)).
  { unfold W, old, codes_invalidated. simpl.
    apply existsb_map_preserved. intros x. apply has_key_invalidated. }
  destruct (existsb (Sql.code_has_key uid (ActivationCode.code ac))
                    (activation_codes w)) eqn:Ek.
  - eexists. split; [|simpl orb; cbv iota].
    2:{ erewrite try_except_raise.
        2:{ apply bind_raise. apply execute_query_raise.
            unfold Sql.insert_activation_code. fold uid. rewrite Hkey.
            reflexivity. }
        reflexivity. }
    reflexivity.
  - destruct (existsb (Sql.user_has_id uid) (users w)) eqn:Eu.
    + exists (Exc.DatabaseException_ ""). split; [reflexivity|].
      simpl orb. cbv iota.
      erewrite try_except_ok; [reflexivity|].
      erewrite bind_ok.
      2:{ apply execute_query_ok. unfold Sql.insert_activation_code.
          fold uid. rewrite Hkey. unfold W at 1. simpl users. rewrite Eu.
          reflexivity. }
      reflexivity.
    + eexists. split; [|simpl orb; cbv iota].
      2:{ erewrite try_except_raise.
          2:{ apply bind_raise. apply execute_query_raise.
              unfold Sql.insert_activation_code. fold uid. rewrite Hkey.
              unfold W at 1. simpl users. rewrite Eu. reflexivity. }
          reflexivity. }
      reflexivity.
Qed.

Lemma of_user_iff (user_id : string) (r : ActivationCode.t) :
  Sql.code_of_user user_id r = true <-> ActivationCode.user_id r = user_id.
Proof. unfold Sql.code_of_user. apply String.eqb_eq. Qed.

(** After an issue the only unused row of the user is the new one. *)
Lemma unused_after_issue (ac : ActivationCode.t) (t : datetime)
    (cs : list ActivationCode.t) :
  ActivationCode.is_used ac = false ->
  filter (unused_of (ActivationCode.user_id ac))
         (codes_invalidated (ActivationCode.user_id ac) t cs ++ [row_of ac])
  = [row_of ac].
Proof.
  intros Hu. rewrite filter_app, filter_none.
  - simpl. unfold unused_of, Sql.code_of_user. simpl.
    now rewrite String.eqb_refl, Hu.
  - intros r Hin. unfold unused_of.
    destruct (Sql.code_of_user (ActivationCode.user_id ac) r) eqn:E; auto.
    now rewrite (invalidated_all_used _ _ _ _ Hin E).
Qed.

(** After an issue a code issued before is rejected as invalid. *)
Lemma old_code_invalid (uid : string) (t : datetime) (w' : World)
    (cs : list ActivationCode.t) (new r : ActivationCode.t) :
  activation_codes w' = (codes_invalidated uid t cs ++ [new])%list ->
  In r cs -> ActivationCode.user_id r = uid ->
  fst (UserService._verify_activation_code uid (ActivationCode.code r) w')
  = Raise (Service Exc.InvalidActivationCodeException_).
Proof.
  intros Hcodes Hin Hid.
  set (p := Sql.code_has_key uid (ActivationCode.code r)).
  assert (Hex : exists y, find p (codes_invalidated uid t cs) = Some y).
  { apply find_exists
      with (x := if unused_of uid r then Sql.set_used t r else r).
    - unfold codes_invalidated. apply in_map_iff. eauto.
    - unfold p. rewrite has_key_invalidated. unfold Sql.code_has_key.
      now rewrite Hid, !String.eqb_refl. }
  destruct Hex as (y & Hy).
  assert (Hfind : find p (activation_codes w') = Some y).
  { rewrite Hcodes, find_app, Hy. reflexivity. }
  assert (Hused : ActivationCode.is_used y = true).
  { apply find_some in Hy. destruct Hy as [Hyin Hyk].
    apply (invalidated_all_used uid t cs y Hyin).
    unfold p, Sql.code_has_key in Hyk. apply andb_true_iff in Hyk.
    unfold Sql.code_of_user. tauto. }
  destruct (verify_used _ _ _ _ Hfind Hused) as (w'' & Hv & _).
  now rewrite Hv.
Qed.

Lemma send_activation_code_run (email code user_id : string) (w : World) :
  EmailService.send_activation_code email code user_id w
  = (Ok tt,
     set_queue
       (queue w ++
        [mkMessage "activation_code" email code user_id
                   "Your Dailymotion Activation Code" "activation_code"
                   (loop_time (env w) (tick w))])
       (next_tick w)).
Proof. reflexivity. Qed.

(** The effect of [_generate_and_send_activation_code] when it returns. *)
Lemma generate_and_send_inv (user : User.t) (w w' : World) :
  UserService._generate_and_send_activation_code user w = (Ok tt, w') ->
  exists ac t,
    ActivationCode.is_used ac = false
    /\ ActivationCode.user_id ac = User.user_id user
    /\ activation_codes w'
       = (codes_invalidated (User.user_id user) t (activation_codes w)
          ++ [row_of ac])%list
    /\ users w' = users w
    /\ exists m, queue w' = (queue w ++ [m])%list
                 /\ activation_code m = ActivationCode.code ac
                 /\ recipient m = User.email user.
Proof.
  unfold UserService._generate_and_send_activation_code. intros H.
  rewrite (bind_ok _ _ _ _ _ (generate_for_user_run (User.user_id user) w))
    in H.
  match type of H with
  | context [ActivationCodeRepository.create_activation_code ?a] =>
      set (ac := a) in *
  end.
  set (w3 := next_tick (next_tick (next_tick w))) in *.
  destruct (create_activation_code_run ac w3) as (e & _ & Hc).
  cbv zeta in Hc.
  apply bind_inv in H.
  destruct H as [(ac' & w4 & Hcr & H) | (e' & _ & He)]; [|discriminate].
  rewrite Hc in Hcr.
  destruct (_ || _); [discriminate|].
  assert (Hw4 : w4 = set_activation_codes
                       (codes_invalidated (ActivationCode.user_id ac)
                          (clock (env w3) (tick w3)) (activation_codes w3)
                        ++ [row_of ac])
                       (next_tick w3)) by congruence.
  clear Hcr. rewrite send_activation_code_run in H.
  assert (Hw' : w' = set_queue
                       (queue w4 ++
                        [mkMessage "activation_code" (User.email user)
                           (ActivationCode.code ac) (User.user_id user)
                           "Your Dailymotion Activation Code"
                           "activation_code"
                           (loop_time (env w4) (tick w4))])
                       (next_tick w4)) by congruence.
  clear H. subst w' w4.
  exists ac, (clock (env w3) (tick w3)).
  split; [reflexivity|]. split; [reflexivity|].
  split; [reflexivity|]. split; [reflexivity|].
  eexists. split; [reflexivity|]. split; reflexivity.
Qed.

(** Claim C3.  For every store and every new (unused) activation code
    [ac]: [create_activation_code] returns exactly when the key
    (user, code) is free and the user exists; when it returns, the table
    is the old table with every unused row of that user flagged used,
    followed by the inserted row, which is unused: the invalidation
    precedes the insertion and does not reach the new row.  So every row
    the user had before is used, the new row is the only unused row of
    the user (at most one live code), the rows of other users, the users
    and the queue are as before, and a code issued earlier to that user
    is afterwards rejected with [InvalidActivationCodeException], not
    [ActivationCodeExpiredException].  The same holds along
    [_generate_and_send_activation_code], which issues the code of
    [generate_for_user]. *)
Theorem issuing_invalidates_previous_codes
    (w : World) (ac : ActivationCode.t) :
  ActivationCode.is_used ac = false ->
  let uid := ActivationCode.user_id ac in
  let t := clock (env w) (tick w) in
  ((exists w', ActivationCodeRepository.create_activation_code ac w
               = (Ok ac, w'))
   <-> (existsb (Sql.code_has_key uid (ActivationCode.code ac))
                (activation_codes w) = false
        /\ existsb (Sql.user_has_id uid) (users w) = true))
  /\ (forall ac' w',
        ActivationCodeRepository.create_activation_code ac w = (Ok ac', w') ->
        ac' = ac
        /\ activation_codes w'
           = (codes_invalidated uid t (activation_codes w)
              ++ [row_of ac])%list
        /\ (forall r, In r (codes_invalidated uid t (activation_codes w)) ->
                      ActivationCode.user_id r = uid ->
                      ActivationCode.is_used r = true)
        /\ ActivationCode.is_used (row_of ac) = false
        /\ filter (unused_of uid) (activation_codes w') = [row_of ac]
        /\ (forall r, In r (activation_codes w) ->
                      ActivationCode.user_id r <> uid ->
                      In r (activation_codes w'))
        /\ users w' = users w /\ queue w' = queue w
        /\ (forall r, In r (activation_codes w) ->
                      ActivationCode.user_id r = uid ->
                      fst (UserService._verify_activation_code
                             uid (ActivationCode.code r) w')
                      = Raise (Service Exc.InvalidActivationCodeException_)))
  /\ (forall user w0 w',
        UserService._generate_and_send_activation_code user w0 = (Ok tt, w') ->
        exists new,
          filter (unused_of (User.user_id user)) (activation_codes w') = [new]
          /\ ActivationCode.is_used new = false
          /\ (forall r, In r (activation_codes w0) ->
                        ActivationCode.user_id r = User.user_id user ->
                        fst (UserService._verify_activation_code
                               (User.user_id user) (ActivationCode.code r) w')
                        = Raise (Service
                                   Exc.InvalidActivationCodeException_))).
Proof.
  intros Hnew uid t.
  destruct (create_activation_code_run ac w) as (e & He & Hrun).
  cbv zeta in Hrun. fold uid t in Hrun.
  split; [|split].
  - rewrite Hrun.
    destruct (existsb (Sql.code_has_key uid (ActivationCode.code ac))
                      (activation_codes w)); simpl.
    + split; [intros (w' & H); discriminate | intros [H _]; discriminate].
    + destruct (existsb (Sql.user_has_id uid) (users w)); simpl.
      * split; eauto.
      * split; [intros (w' & H); discriminate | intros [_ H]; discriminate].
  - intros ac' w' H. rewrite Hrun in H.
    destruct (_ || _); [discriminate|]. inversion H; subst ac' w'. simpl.
    split; [reflexivity|]. split; [reflexivity|].
    split.
    { intros r Hin Hid. eapply invalidated_all_used; eauto.
      now apply of_user_iff. }
    split; [exact Hnew|].
    split; [now apply unused_after_issue|].
    split.
    { intros r Hin Hid. apply in_or_app. left.
      apply invalidated_others; auto.
      destruct (Sql.code_of_user uid r) eqn:E; auto.
      apply of_user_iff in E. contradiction. }
    split; [reflexivity|]. split; [reflexivity|].
    intros r Hin Hid.
    eapply old_code_invalid; eauto. reflexivity.
  - intros user w0 w' H.
    destruct (generate_and_send_inv user w0 w' H)
      as (ac0 & t0 & Hu0 & Hid0 & Hcodes & _).
    exists (row_of ac0). split; [|split; [exact Hu0|]].
    + rewrite Hcodes, <- Hid0. now apply unused_after_issue.
    + intros r Hin Hid. eapply old_code_invalid; eauto.
Qed.

(** Issuing the code "5555" to the user of [Sample.registered]: the call
    returns, and the earlier code "4821" is then rejected as invalid. *)
Lemma issuing_invalidates_previous_codes_witness :
  let ac := ActivationCode.mk "u1" "5555" 70000000 (Some 1010) None false in
  exists w',
    ActivationCodeRepository.create_activation_code ac Sample.registered
    = (Ok ac, w')
    /\ filter (unused_of "u1") (activation_codes w') = [row_of ac]
    /\ fst (UserService._verify_activation_code "u1" "4821" w')
       = Raise (Service Exc.InvalidActivationCodeException_).
Proof.
  intros ac.
  pose proof (issuing_invalidates_previous_codes Sample.registered ac
                eq_refl) as H.
  cbv zeta in H. destruct H as (Hiff & Hall & _).
  destruct (proj2 Hiff) as (w' & Hrun).
  { split; vm_compute; reflexivity. }
  destruct (Hall _ _ Hrun) as (_ & _ & _ & _ & Hone & _ & _ & _ & Hold).
  exists w'. split; [exact Hrun|]. split; [exact Hone|].
  assert (Hr : exists r, In r (activation_codes Sample.registered)
                         /\ ActivationCode.user_id r = "u1"
                         /\ ActivationCode.code r = "4821").
  { vm_compute. eexists. split; [left; reflexivity|]. split; reflexivity. }
  destruct Hr as (r & Hin & Hid & Hcode).
  rewrite <- Hcode. apply Hold; assumption.
Defined.

(* ===================================================================== *)
(** * Creating a user *)
(* ===================================================================== *)









(* ===================================================================== *)
(** * The exceptions that leave an activation *)
(* ===================================================================== *)

Lemma try_except_inv {A} (m : M A) (h : Exn -> M A) (w w' : World)
    (r : Result A) :
  try_except m h w = (r, w') ->
  (exists a, m w = (Ok a, w') /\ r = Ok a)
  \/ (exists e w1, m w = (Raise e, w1) /\ h e w1 = (r, w')).
Proof.
  unfold try_except. destruct (m w) as [[a|e] w1]; intros H.
  - left. inversion H; subst. eauto.
  - right. eauto.
Qed.

Lemma reraise_as_database_run {A} (prefix : string) (e : Exn) (w : World) :
  @reraise_as_database A prefix e w
  = (Raise (Service (Exc.DatabaseException_ (prefix ++ render (env w) e))),
     w).
Proof. reflexivity. Qed.

Lemma database_error_reraise {A} (m : M A) (prefix : string) :
  raises_only database_error (try_except m (reraise_as_database prefix)).
Proof.
  intros w e w' H. apply try_except_inv in H.
  destruct H as [(a & _ & H) | (e0 & w1 & _ & H)]; [discriminate|].
  rewrite reraise_as_database_run in H. inversion H; subst.
  eexists. reflexivity.
Qed.

Lemma get_user_by_email_raises (email : string) (flag : bool) :
  raises_only
    (fun e => e = Service Exc.UserNotFoundException_ \/ database_error e)
    (UserRepository.get_user_by_email email flag).
Proof.
  intros w e w' H. unfold UserRepository.get_user_by_email in H.
  apply try_except_inv in H.
  destruct H as [(a & _ & H) | (e0 & w1 & Hbody & H)]; [discriminate|].
  destruct (is_UserNotFoundException e0) eqn:Hnf.
  - inversion H; subst e0 w1. clear H.
    apply bind_inv in Hbody.
    destruct Hbody as [(res & w2 & Hq & Hrest) | (e1 & Hq & He)].
    + destruct res as [row|].
      * apply bind_inv in Hrest.
        destruct Hrest as [(u & w3 & _ & Hr) | (e2 & Hrow & He2)];
          [discriminate|].
        inversion He2; subst e2. clear He2.
        unfold User_of_row, User_init in Hrow.
        apply bind_inv in Hrow.
        destruct Hrow as [([] & w3 & _ & Hr) | (e3 & Hv & He3)].
        -- exfalso. revert Hr. mrun.
           destruct (User.user_id row) as [|c s];
             destruct (User.created_at row); discriminate.
        -- inversion He3; subst e3. unfold validate_email in Hv.
           destruct (email_ok (User.email row)); [discriminate|].
           inversion Hv; subst. discriminate Hnf.
      * destruct flag; inversion Hrest; subst; auto.
    + inversion He; subst e1.
      unfold execute_query in Hq. apply try_except_inv in Hq.
      destruct Hq as [(a & _ & Hd) | (e2 & w2 & _ & Hd)]; [discriminate|].
      revert Hd. mrun. intros Hd. inversion Hd; subst. discriminate Hnf.
  - right. rewrite reraise_as_database_run in H. inversion H; subst.
    eexists. reflexivity.
Qed.

Lemma authenticate_raises (email password : string) :
  raises_only
    (fun e => e = Service Exc.AuthenticationException_ \/ database_error e)
    (UserService._authenticate_user email password).
Proof.
  intros w e w' H. unfold UserService._authenticate_user in H.
  apply try_except_inv in H.
  destruct H as [(a & _ & H) | (e0 & w1 & Hbody & H)]; [discriminate|].
  assert (He0 : e0 = Service Exc.UserNotFoundException_
                \/ e0 = Service Exc.AuthenticationException_
                \/ database_error e0).
  { apply bind_inv in Hbody.
    destruct Hbody as [(res & w2 & _ & Hrest) | (e1 & Hq & He)].
    - destruct res as [user|].
      + apply bind_inv in Hrest.
        destruct Hrest as [(ok & w3 & _ & Hr) | (e2 & Hvp & _)];
          [|discriminate].
        destruct ok; inversion Hr; subst; auto.
      + inversion Hrest; subst; auto.
    - inversion He; subst e1.
      apply get_user_by_email_raises in Hq. tauto. }
  destruct He0 as [-> | [-> | Hdb]].
  - inversion H; subst. auto.
  - inversion H; subst. auto.
  - destruct Hdb as (msg & ->). inversion H; subst.
    right. eexists. reflexivity.
Qed.

Lemma verify_raises (user_id code : string) :
  raises_only
    (fun e => e = Service Exc.InvalidActivationCodeException_
              \/ e = Service Exc.ActivationCodeExpiredException_
              \/ database_error e)
    (UserService._verify_activation_code user_id code).
Proof.
  intros w e w' H. unfold UserService._verify_activation_code in H.
  apply bind_inv in H.
  destruct H as [(res & w1 & _ & Hrest) | (e1 & Hget & He)].
  - destruct res as [ac|]; [|inversion Hrest; subst; auto].
    destruct (ActivationCode.is_used ac); [inversion Hrest; subst; auto|].
    apply bind_inv in Hrest.
    destruct Hrest as [(b & w2 & _ & Hr) | (e2 & Hexp & _)];
      [|discriminate].
    destruct b; inversion Hr; subst; auto.
  - inversion He; subst e1.
    apply database_error_reraise in Hget. auto.
Qed.

Lemma activation_writes_database_error (user_id code : string) :
  raises_only database_error
    (now <- utc_now ;;
     activated_user <-
       UserRepository.update_user_status user_id ACTIVE (Some now) ;;
     ActivationCodeRepository.mark_code_as_used user_id code ;;
     ret activated_user).
Proof.
  intros w e w' H.
  apply bind_inv in H.
  destruct H as [(now & w1 & _ & H) | (e1 & H & _)]; [|discriminate].
  apply bind_inv in H.
  destruct H as [(u & w2 & _ & H) | (e2 & H & He)].
  2:{ inversion He; subst. eapply database_error_reraise; eauto. }
  apply bind_inv in H.
  destruct H as [([] & w3 & _ & H) | (e3 & H & He)]; [discriminate|].
  inversion He; subst. eapply database_error_reraise; eauto.
Qed.

(** Every exception that leaves [activate_user] is one of the four
    refusals or a [DatabaseException]: never [UserNotFoundException]
    (which the docstring lists), never an error of the driver, and the
    HTTP status of the answer is 400, 401 or 500, never 404. *)
Theorem activate_user_raises (email password code : string) (w w' : World)
    (e : Exn) :
  UserService.activate_user email password code w = (Raise e, w') ->
  activation_error e
  /\ e <> Service Exc.UserNotFoundException_
  /\ (http_status e = 400 \/ http_status e = 401 \/ http_status e = 500).
Proof.
  intros H.
  assert (Hcls : activation_error e).
  { unfold UserService.activate_user in H. apply bind_inv in H.
    destruct H as [(user & w1 & _ & H) | (e1 & Hauth & He)].
    - destruct (is_active user).
      { inversion H; subst. right. left. reflexivity. }
      apply bind_inv in H.
      destruct H as [([] & w2 & _ & H) | (e2 & Hver & He)].
      + apply activation_writes_database_error in H.
        unfold activation_error. auto 6.
      + inversion He; subst e2. apply verify_raises in Hver.
        unfold activation_error. tauto.
    - inversion He; subst e1. apply authenticate_raises in Hauth.
      unfold activation_error. tauto. }
  split; [exact Hcls|].
  destruct Hcls as [-> | [-> | [-> | [-> | (msg & ->)]]]];
    (split; [discriminate | simpl; auto]).
Qed.

(** The wrong code of the failed activation in [Sample.registered]. *)
Lemma activate_user_raises_witness :
  http_status (Service Exc.InvalidActivationCodeException_) = 400
  /\ activation_error (Service Exc.InvalidActivationCodeException_).
Proof.
  split; [reflexivity|].
  destruct (UserService.activate_user "a@x.com" "pass1234" "9999"
              Sample.registered) as [r w'] eqn:E.
  assert (Hr : r = Raise (Service Exc.InvalidActivationCodeException_)).
  { apply (f_equal fst) in E. vm_compute in E. now subst r. }
  subst r. exact (proj1 (activate_user_raises _ _ _ _ _ _ E)).
Defined.

(* ===================================================================== *)
(** * What an activation that returns guarantees *)
(* ===================================================================== *)

Lemma verify_ok_inv (user_id code : string) (w w' : World) :
  UserService._verify_activation_code user_id code w = (Ok tt, w') ->
  exists crow,
    find (Sql.code_has_key user_id code) (activation_codes w) = Some crow
    /\ ActivationCode.is_used crow = false
    /\ check_time w crow < ActivationCode.expires_at crow
    /\ same_store w w'.
Proof.
  intros H.
  destruct (find (Sql.code_has_key user_id code) (activation_codes w))
    as [crow|] eqn:Hf.
  2:{ rewrite verify_absent in H by exact Hf. discriminate. }
  destruct (ActivationCode.is_used crow) eqn:Hu.
  { destruct (verify_used _ _ _ _ Hf Hu) as (w2 & Hv & _).
    rewrite Hv in H. discriminate. }
  destruct (verify_unused _ _ _ _ Hf Hu) as (w2 & Hv & Hsame).
  rewrite Hv in H.
  destruct (Z.leb_spec (ActivationCode.expires_at crow) (check_time w crow));
    [discriminate|].
  inversion H; subst. exists crow. auto.
Qed.

Lemma get_user_by_id_ok_inv (user_id : string) (w w' : World) (u : User.t) :
  UserRepository.get_user_by_id user_id w = (Ok u, w') ->
  exists row,
    find (Sql.user_has_id user_id) (users w) = Some row
    /\ entity_of row u /\ same_store w w'.
Proof.
  intros H.
  destruct (find (Sql.user_has_id user_id) (users w)) as [row|] eqn:Hf.
  - destruct (email_ok (User.email row)) eqn:Hok.
    + destruct (get_user_by_id_found _ _ _ Hf Hok)
        as (u' & w2 & Hget & Hent & Hsame).
      rewrite Hget in H. inversion H; subst. eauto.
    + exfalso. revert H. mrun. rewrite Hf. mrun. rewrite Hok.
      discriminate.
  - exfalso. revert H. mrun. rewrite Hf. discriminate.
Qed.

Lemma update_user_status_ok_inv (user_id : string) (status : UserStatus)
    (activated_at : option datetime) (w w' : World) (u : User.t) :
  UserRepository.update_user_status user_id status activated_at w
  = (Ok u, w') ->
  User.status u = status
  /\ User.activated_at u = activated_at
  /\ users w'
     = users_with_status user_id status (Some (clock (env w) (tick w)))
                         activated_at (users w)
  /\ activation_codes w' = activation_codes w
  /\ queue w' = queue w /\ env w' = env w.
Proof.
  intros H. unfold UserRepository.update_user_status in H.
  apply try_except_inv in H.
  destruct H as [(a & H & Ha) | (e & w1 & _ & H)].
  2:{ rewrite reraise_as_database_run in H. discriminate. }
  inversion Ha; subst a. clear Ha.
  rewrite (bind_ok _ _ w (next_tick w) (clock (env w) (tick w))) in H
    by reflexivity.
  set (t := clock (env w) (tick w)) in *.
  set (W := set_users
              (users_with_status user_id status (Some t) activated_at
                                 (users w))
              (next_tick w)).
  rewrite (bind_ok _ _ (next_tick w) W
             ("UPDATE " ++ Py.str_of_nat
                (List.length (filter (Sql.user_has_id user_id) (users w)))))
    in H by (apply execute_query_ok; reflexivity).
  apply get_user_by_id_ok_inv in H.
  destruct H as (row & Hf & Hent & (He & Hu & Hc & Hq)).
  apply find_some in Hf. destruct Hf as [Hin Hid].
  unfold W in Hin. simpl in Hin. unfold users_with_status in Hin.
  apply in_map_iff in Hin. destruct Hin as (r0 & Hr0 & _).
  assert (Hrow : row = Sql.set_status status (Some t) activated_at r0).
  { destruct (Sql.user_has_id user_id r0) eqn:E; [now subst|].
    subst row. congruence. }
  destruct Hent as (_ & _ & Hs & Ha & _).
  rewrite Hs, Ha, Hrow, Hu, Hc, Hq, He. unfold W. simpl. auto 6.
Qed.

(** Soundness of the activation.  When [activate_user] returns, the
    email names a stored user whose password verified and that was not
    ACTIVE, the store had a row for that user and the submitted code that
    was unused and not expired at the clock reading of the check, the
    user returned is ACTIVE with [activated_at] set, and the store
    differs from the old one exactly by the two updates. *)
Theorem activation_is_sound (email password code : string) (w w' : World)
    (u : User.t) :
  UserService.activate_user email password code w = (Ok u, w') ->
  exists (user row : User.t) (w1 : World) (crow : ActivationCode.t)
         (t_act t_upd t_used : datetime),
    UserService._authenticate_user email password w = (Ok user, w1)
    /\ find (Sql.user_has_email email) (users w) = Some row
    /\ checkpw (env w) password (User.password_hash row) = true
    /\ User.status row <> ACTIVE
    /\ find (Sql.code_has_key (User.user_id user) code) (activation_codes w)
       = Some crow
    /\ ActivationCode.is_used crow = false
    /\ check_time w1 crow < ActivationCode.expires_at crow
    /\ User.status u = ACTIVE
    /\ User.activated_at u = Some t_act
    /\ users w'
       = users_with_status (User.user_id user) ACTIVE (Some t_upd)
                           (Some t_act) (users w)
    /\ activation_codes w'
       = codes_with_used (User.user_id user) code t_used
                         (activation_codes w)
    /\ queue w' = queue w.
Proof.
  intros H. unfold UserService.activate_user in H.
  apply bind_inv in H.
  destruct H as [(user & w1 & Hauth & H) | (e & _ & He)]; [|discriminate].
  destruct (authenticate_ok_inv _ _ _ _ _ Hauth)
    as (row & Hfrow & Hok & Hpw & Hent & (He1 & Hu1 & Hc1 & Hq1)).
  destruct (is_active user) eqn:Hact; [discriminate|].
  apply bind_inv in H.
  destruct H as [([] & w2 & Hver & H) | (e & _ & He)]; [|discriminate].
  destruct (verify_ok_inv _ _ _ _ Hver)
    as (crow & Hfc & Hunused & Hlive & (He2 & Hu2 & Hc2 & Hq2)).
  rewrite (bind_ok _ _ w2 (next_tick w2) (clock (env w2) (tick w2))) in H
    by reflexivity.
  apply bind_inv in H.
  destruct H as [(au & w4 & Hupd & H) | (e & _ & He)]; [|discriminate].
  apply update_user_status_ok_inv in Hupd.
  destruct Hupd as (Hs & Ha & Hu4 & Hc4 & Hq4 & He4).
  rewrite (bind_ok _ _ _ _ _ (mark_code_as_used_run _ _ w4)) in H.
  unfold ret in H.
  assert (Hau : au = u) by congruence.
  assert (Hw' : w' = set_activation_codes
                       (codes_with_used (User.user_id user) code
                          (clock (env w4) (tick w4)) (activation_codes w4))
                       (next_tick w4)) by congruence.
  clear H. subst au w'.
  exists user, row, w1, crow.
  exists (clock (env w2) (tick w2)),
         (clock (env (next_tick w2)) (tick (next_tick w2))),
         (clock (env w4) (tick w4)).
  split; [exact Hauth|]. split; [exact Hfrow|]. split; [exact Hpw|].
  split.
  { destruct Hent as (_ & _ & Hst & _). unfold is_active in Hact.
    rewrite Hst in Hact. intros E. rewrite E in Hact. discriminate. }
  split; [now rewrite <- Hc1|]. split; [exact Hunused|].
  split; [exact Hlive|]. split; [exact Hs|]. split; [exact Ha|].
  simpl. rewrite Hu4, Hc4, Hq4. simpl. rewrite Hu2, Hu1, Hc2, Hc1, Hq2, Hq1.
  auto.
Qed.

(** The activation of [Sample.registered] returns; the theorem then
    yields the code row it consumed. *)
Lemma activation_is_sound_witness :
  exists crow,
    find (Sql.code_has_key "u1" "4821") (activation_codes Sample.registered)
    = Some crow
    /\ ActivationCode.is_used crow = false.
Proof.
  destruct (UserService.activate_user "a@x.com" "pass1234" "4821"
              Sample.registered) as [r w'] eqn:E.
  assert (Hr : exists u, r = Ok u).
  { apply (f_equal fst) in E. vm_compute in E. subst r. eauto. }
  destruct Hr as (u & ->).
  destruct (activation_is_sound _ _ _ _ _ _ E)
    as (user & row & w1 & crow & t1 & t2 & t3 & Hauth & _ & _ & _ & Hfc
        & Hunused & _).
  assert (Hid : User.user_id user = "u1").
  { apply (f_equal fst) in Hauth. vm_compute in Hauth.
    inversion Hauth. reflexivity. }
  rewrite Hid in Hfc. exists crow. auto.
Defined.

(* ===================================================================== *)
(** * Issuing a code through the service *)
(* ===================================================================== *)

Lemma create_activation_code_raises (ac : ActivationCode.t) :
  raises_only database_error
    (ActivationCodeRepository.create_activation_code ac).
Proof.
  intros w e w' H.
  unfold ActivationCodeRepository.create_activation_code in H.
  apply bind_inv in H.
  destruct H as [([] & w1 & _ & H) | (e1 & H & He)].
  - eapply database_error_reraise; eauto.
  - inversion He; subst. eapply database_error_reraise; eauto.
Qed.

(** [_generate_and_send_activation_code] in full: the draw, the
    invalidation, then either the refused insert (the old codes stay
    invalidated, nothing is queued) or the insert and the message. *)
Lemma generate_and_send_run (user : User.t) (w : World) :
  let uid := User.user_id user in
  let ac := new_code uid w in
  let old := codes_invalidated uid (clock (env w) (S (S (S (tick w)))))
                               (activation_codes w) in
  if existsb (Sql.code_has_key uid (ActivationCode.code ac))
             (activation_codes w)
     || negb (existsb (Sql.user_has_id uid) (users w))
  then exists e,
         database_error e
         /\ UserService._generate_and_send_activation_code user w
            = (Raise e, set_activation_codes old (ticks 4 w))
  else UserService._generate_and_send_activation_code user w
       = (Ok tt,
          set_queue
            (queue w ++
             [new_message (User.email user) (ActivationCode.code ac) uid
                          (ticks 4 w)])
            (set_activation_codes (old ++ [row_of ac]) (ticks 5 w))).
Proof.
  intros uid ac old.
  unfold UserService._generate_and_send_activation_code.
  rewrite (bind_ok _ _ _ _ _ (generate_for_user_run uid w)).
  fold (new_code uid w). fold ac.
  destruct (create_activation_code_run ac (ticks 3 w)) as (e & _ & Hc).
  cbv zeta in Hc.
  change (ActivationCode.user_id ac) with uid in Hc.
  change (activation_codes (ticks 3 w)) with (activation_codes w) in Hc.
  change (users (ticks 3 w)) with (users w) in Hc.
  change (clock (env (ticks 3 w)) (tick (ticks 3 w)))
    with (clock (env w) (S (S (S (tick w))))) in Hc.
  fold old in Hc.
  change (next_tick (next_tick (next_tick w))) with (ticks 3 w).
  destruct (existsb (Sql.code_has_key uid (ActivationCode.code ac))
                    (activation_codes w)
            || negb (existsb (Sql.user_has_id uid) (users w))).
  - exists (Service e). split.
    + eapply create_activation_code_raises. exact Hc.
    + rewrite (bind_raise _ _ _ _ _ Hc). reflexivity.
  - rewrite (bind_ok _ _ _ _ _ Hc).
    rewrite send_activation_code_run. reflexivity.
Qed.

Lemma resend_after_authentication (email password : string)
    (w w1 : World) (user : User.t) :
  UserService._authenticate_user email password w = (Ok user, w1) ->
  is_active user = false ->
  UserService.resend_activation_code email password w
  = UserService._generate_and_send_activation_code user w1.
Proof.
  intros Hauth Hact. unfold UserService.resend_activation_code.
  rewrite (bind_ok _ _ _ _ _ Hauth), Hact. reflexivity.
Qed.

(** A resend that succeeds.  For an authenticated user that is not
    ACTIVE, when the code drawn is not yet a row of that user:
    [resend_activation_code] returns, the table is the old one with the
    user's unused rows flagged used followed by the new row, which is the
    only unused row of the user, the users are untouched, and exactly one
    message is queued, addressed to the user and carrying the new code. *)
Theorem resend_issues_single_live_code
    (w w1 : World) (email password : string) (user : User.t) :
  UserService._authenticate_user email password w = (Ok user, w1) ->
  is_active user = false ->
  let uid := User.user_id user in
  let ac := new_code uid w1 in
  existsb (Sql.code_has_key uid (ActivationCode.code ac))
          (activation_codes w) = false ->
  existsb (Sql.user_has_id uid) (users w) = true ->
  exists (t : datetime) (m : Message) (w' : World),
    UserService.resend_activation_code email password w = (Ok tt, w')
    /\ activation_codes w'
       = (codes_invalidated uid t (activation_codes w) ++ [row_of ac])%list
    /\ filter (unused_of uid) (activation_codes w') = [row_of ac]
    /\ users w' = users w
    /\ queue w' = (queue w ++ [m])%list
    /\ activation_code m = ActivationCode.code ac
    /\ recipient m = User.email user
    /\ msg_user_id m = uid.
Proof.
  intros Hauth Hact uid ac Hkey Huser.
  pose proof (frame_authenticate _ _ _ _ _ Hauth) as (He & Hu & Hc & Hq).
  rewrite (resend_after_authentication _ _ _ _ _ Hauth Hact).
  pose proof (generate_and_send_run user w1) as Hrun. cbv zeta in Hrun.
  fold uid in Hrun. fold ac in Hrun.
  rewrite Hc, Hu, Hkey, Huser in Hrun. simpl in Hrun.
  eexists. eexists. eexists. split; [exact Hrun|].
  simpl. rewrite Hu, Hq.
  split; [reflexivity|].
  split; [apply (unused_after_issue ac); reflexivity|].
  auto.
Qed.

(** A resend whose draw collides.  When the code drawn is already a
    row of that user (live, used or expired), the insert violates the
    primary key and [resend_activation_code] raises a
    [DatabaseException]; the invalidation that preceded it stays: every
    code of the user is now flagged used, so the user is left without a
    live code, and no message is queued. *)
Theorem resend_collision_leaves_no_live_code
    (w w1 : World) (email password : string) (user : User.t) :
  UserService._authenticate_user email password w = (Ok user, w1) ->
  is_active user = false ->
  let uid := User.user_id user in
  existsb (Sql.code_has_key uid (ActivationCode.code (new_code uid w1)))
          (activation_codes w) = true ->
  exists (e : Exn) (t : datetime) (w' : World),
    UserService.resend_activation_code email password w = (Raise e, w')
    /\ database_error e
    /\ activation_codes w' = codes_invalidated uid t (activation_codes w)
    /\ filter (unused_of uid) (activation_codes w') = []
    /\ users w' = users w
    /\ queue w' = queue w.
Proof.
  intros Hauth Hact uid Hkey.
  pose proof (frame_authenticate _ _ _ _ _ Hauth) as (He & Hu & Hc & Hq).
  rewrite (resend_after_authentication _ _ _ _ _ Hauth Hact).
  pose proof (generate_and_send_run user w1) as Hrun. cbv zeta in Hrun.
  fold uid in Hrun. rewrite Hc, Hkey in Hrun. simpl in Hrun.
  destruct Hrun as (e & Hdb & Hrun).
  exists e. eexists. eexists. split; [exact Hrun|].
  split; [exact Hdb|]. simpl. rewrite Hu, Hq.
  split; [reflexivity|]. split; [|auto].
  apply filter_none. intros r Hin. unfold unused_of.
  destruct (Sql.code_of_user uid r) eqn:E; auto.
  now rewrite (invalidated_all_used _ _ _ _ Hin E).
Qed.

(** The pending user of [Sample.registered] asks for a new code. *)
Lemma resend_issues_single_live_code_witness :
  exists w',
    UserService.resend_activation_code "a@x.com" "pass1234"
                                       Sample.registered = (Ok tt, w')
    /\ List.length (filter (unused_of "u1") (activation_codes w')) = 1%nat
    /\ List.length (queue w') = 2%nat.
Proof.
  assert (Hfst : exists user,
             fst (UserService._authenticate_user "a@x.com" "pass1234"
                    Sample.registered) = Ok user
             /\ User.user_id user = "u1" /\ is_active user = false).
  { vm_compute. eexists. repeat split. }
  assert (Htick : tick (snd (UserService._authenticate_user
                               "a@x.com" "pass1234" Sample.registered))
                  = 10%nat).
  { vm_compute. reflexivity. }
  destruct (UserService._authenticate_user "a@x.com" "pass1234"
              Sample.registered) as [r w1] eqn:Hauth.
  destruct Hfst as (user & Hr & Hid & Hact). simpl in Hr, Htick. subst r.
  pose proof (frame_authenticate _ _ _ _ _ Hauth) as (Henv & _).
  edestruct (resend_issues_single_live_code
               Sample.registered w1 "a@x.com" "pass1234" user Hauth Hact)
    as (t & m & w' & Hrun & _ & Hone & _ & Hq & _).
  - unfold new_code. cbn [ActivationCode.code].
    rewrite Henv, Htick, Hid. vm_compute. reflexivity.
  - rewrite Hid. vm_compute. reflexivity.
  - exists w'. split; [exact Hrun|]. rewrite Hid in Hone.
    rewrite Hone, Hq. split; reflexivity.
Defined.

(** In [registered_redraw] the draw repeats the live code "4821": the
    resend fails and the user has no live code left. *)
Lemma resend_collision_leaves_no_live_code_witness :
  exists e w',
    UserService.resend_activation_code "a@x.com" "pass1234"
                                       registered_redraw = (Raise e, w')
    /\ database_error e
    /\ filter (unused_of "u1") (activation_codes registered_redraw) <> []
    /\ filter (unused_of "u1") (activation_codes w') = [].
Proof.
  assert (Hfst : exists user,
             fst (UserService._authenticate_user "a@x.com" "pass1234"
                    registered_redraw) = Ok user
             /\ User.user_id user = "u1" /\ is_active user = false).
  { vm_compute. eexists. repeat split. }
  assert (Htick : tick (snd (UserService._authenticate_user
                               "a@x.com" "pass1234" registered_redraw))
                  = 10%nat).
  { vm_compute. reflexivity. }
  destruct (UserService._authenticate_user "a@x.com" "pass1234"
              registered_redraw) as [r w1] eqn:Hauth.
  destruct Hfst as (user & Hr & Hid & Hact). simpl in Hr, Htick. subst r.
  pose proof (frame_authenticate _ _ _ _ _ Hauth) as (Henv & _).
  edestruct (resend_collision_leaves_no_live_code
               registered_redraw w1 "a@x.com" "pass1234" user Hauth Hact)
    as (e & t & w' & Hrun & Hdb & _ & Hnone & _).
  - unfold new_code. cbn [ActivationCode.code].
    rewrite Henv, Htick, Hid. vm_compute. reflexivity.
  - exists e, w'. split; [exact Hrun|]. split; [exact Hdb|].
    rewrite Hid in Hnone. split; [|exact Hnone].
    vm_compute. discriminate.
Defined.

(* ===================================================================== *)
(** * Registering *)
(* ===================================================================== *)


Lemma existsb_false_all {A} (p : A -> bool) (l : list A) :
  existsb p l = false -> forall x, In x l -> p x = false.
Proof.
  intros H x Hin. destruct (p x) eqn:E; auto.
  assert (existsb p l = true) by (apply existsb_exists; eauto).
  congruence.
Qed.








(* ===================================================================== *)
(** * The sweep and the verification of a code *)
(* ===================================================================== *)

Lemma has_key_iff (user_id code : string) (r : ActivationCode.t) :
  Sql.code_has_key user_id code r = true <-> code_key r = (user_id, code).
Proof.
  unfold Sql.code_has_key, code_key.
  rewrite andb_true_iff, !String.eqb_eq. split.
  - intros [-> ->]. reflexivity.
  - intros H. inversion H. auto.
Qed.

(** Under the primary key the row of a key is the only one. *)
Lemma key_unique (cs : list ActivationCode.t) (r1 r2 : ActivationCode.t) :
  NoDup (map code_key cs) -> In r1 cs -> In r2 cs ->
  code_key r1 = code_key r2 -> r1 = r2.
Proof.
  induction cs as [|c cs IH]; simpl; intros Hnd H1 H2 Hk; [contradiction|].
  inversion Hnd as [|? ? Hnotin Hnd']; subst.
  destruct H1 as [-> | H1], H2 as [-> | H2]; auto.
  - exfalso. apply Hnotin. rewrite Hk. now apply in_map.
  - exfalso. apply Hnotin. rewrite <- Hk. now apply in_map.
Qed.

Lemma find_filter_kept {A} (p q : A -> bool) (l : list A) (x : A) :
  find p l = Some x -> q x = true -> find p (filter q l) = Some x.
Proof.
  induction l as [|y l IH]; simpl; [discriminate|].
  destruct (p y) eqn:Hp.
  - intros [= ->] Hq. rewrite Hq. simpl. now rewrite Hp.
  - intros Hf Hq. destruct (q y); simpl; [rewrite Hp|]; auto.
Qed.

Lemma find_filter_removed (cs : list ActivationCode.t)
    (q : ActivationCode.t -> bool) (user_id code : string)
    (crow : ActivationCode.t) :
  NoDup (map code_key cs) ->
  find (Sql.code_has_key user_id code) cs = Some crow ->
  q crow = false ->
  find (Sql.code_has_key user_id code) (filter q cs) = None.
Proof.
  intros Hnd Hf Hq.
  destruct (find (Sql.code_has_key user_id code) (filter q cs))
    as [r|] eqn:E; auto.
  exfalso. apply find_some in E. destruct E as [Hin Hk].
  apply filter_In in Hin. destruct Hin as [Hin Hqr].
  apply find_some in Hf. destruct Hf as [Hinc Hkc].
  apply has_key_iff in Hk, Hkc.
  assert (r = crow) by (eapply key_unique; eauto; congruence).
  subst r. congruence.
Qed.

(** The sweep against the verification, for an unused code row under the
    primary key, with [now] the clock reading of the sweep.
    - A row with [expires_at < now] is deleted: before the sweep the code
      is rejected with [ActivationCodeExpiredException] (once the check
      reads a time at or past the expiry), after it with
      [InvalidActivationCodeException].
    - A row with [now <= expires_at] is kept, also when [expires_at = now],
      an instant at which the verification already rejects the code as
      expired: the sweep compares with [<], [is_expired] with [>=]. *)
Theorem sweep_turns_expired_into_invalid
    (w : World) (user_id code : string) (crow : ActivationCode.t) :
  NoDup (map code_key (activation_codes w)) ->
  find (Sql.code_has_key user_id code) (activation_codes w) = Some crow ->
  ActivationCode.is_used crow = false ->
  let now := clock (env w) (tick w) in
  let w' := snd (ActivationCodeRepository.cleanup_expired_codes w) in
  (ActivationCode.expires_at crow < now ->
   (ActivationCode.expires_at crow <= check_time w crow ->
    fst (UserService._verify_activation_code user_id code w)
    = Raise (Service Exc.ActivationCodeExpiredException_))
   /\ fst (UserService._verify_activation_code user_id code w')
      = Raise (Service Exc.InvalidActivationCodeException_))
  /\ (now <= ActivationCode.expires_at crow ->
      find (Sql.code_has_key user_id code) (activation_codes w')
      = Some crow
      /\ (ActivationCode.expires_at crow <= check_time w' crow ->
          fst (UserService._verify_activation_code user_id code w')
          = Raise (Service Exc.ActivationCodeExpiredException_))
      /\ (check_time w' crow < ActivationCode.expires_at crow ->
          fst (UserService._verify_activation_code user_id code w')
          = Ok tt)).
Proof.
  intros Hnd Hf Hunused now w'.
  assert (Hw' : activation_codes w'
                = filter (fun r => negb (Sql.expired_or_used now r))
                         (activation_codes w)).
  { unfold w'. rewrite (cleanup_run w). reflexivity. }
  split.
  - intros Hexp. split.
    + intros Hcheck.
      destruct (verify_unused _ _ _ _ Hf Hunused) as (w2 & Hv & _).
      apply Z.leb_le in Hcheck. rewrite Hcheck in Hv. now rewrite Hv.
    + rewrite verify_absent; [reflexivity|].
      rewrite Hw'. eapply find_filter_removed; eauto.
      unfold Sql.expired_or_used.
      apply Z.ltb_lt in Hexp. now rewrite Hexp.
  - intros Hlive.
    assert (Hkept : find (Sql.code_has_key user_id code) (activation_codes w')
                    = Some crow).
    { rewrite Hw'. apply find_filter_kept; auto.
      unfold Sql.expired_or_used. rewrite Hunused.
      apply Z.ltb_ge in Hlive. now rewrite Hlive. }
    split; [exact Hkept|].
    destruct (verify_unused _ _ _ _ Hkept Hunused) as (w2 & Hv & _).
    split; intros Hc.
    + apply Z.leb_le in Hc. rewrite Hc in Hv. now rewrite Hv.
    + apply Z.leb_gt in Hc. rewrite Hc in Hv. now rewrite Hv.
Qed.

(** Seen through the slow clock the code "4821" of [Sample.registered]
    has expired: the verification says so, and after a sweep it says
    invalid. *)
Lemma sweep_turns_expired_into_invalid_witness :
  fst (UserService._verify_activation_code "u1" "4821"
         Sample.registered_late)
  = Raise (Service Exc.ActivationCodeExpiredException_)
  /\ fst (UserService._verify_activation_code "u1" "4821"
            (snd (ActivationCodeRepository.cleanup_expired_codes
                    Sample.registered_late)))
     = Raise (Service Exc.InvalidActivationCodeException_).
Proof.
  assert (Hrow : exists crow,
             find (Sql.code_has_key "u1" "4821")
                  (activation_codes Sample.registered_late) = Some crow
             /\ ActivationCode.is_used crow = false
             /\ ActivationCode.expires_at crow = 60001005
             /\ ActivationCode.created_at crow = Some 1006).
  { vm_compute. eexists. repeat split. }
  destruct Hrow as (crow & Hf & Hu & Hexp & Hcr).
  pose proof (sweep_turns_expired_into_invalid
                Sample.registered_late "u1" "4821" crow) as H.
  cbv zeta in H. destruct H as (H & _).
  - vm_compute. constructor; [intros []|constructor].
  - exact Hf.
  - exact Hu.
  - destruct H as [H1 H2].
    { rewrite Hexp. vm_compute. reflexivity. }
    split; [apply H1|exact H2].
    unfold check_time, code_reads. rewrite Hexp, Hcr.
    vm_compute. discriminate.
Defined.

(* ===================================================================== *)
(** * Edge behaviour of the repositories *)
(* ===================================================================== *)









(** [is_valid] against the check of the service.  [is_valid] answers
    without reading the clock when the code is used; and
    [_verify_activation_code], which does not call it, passes exactly when
    the store has a row for the key for which [is_valid] holds at the
    clock reading of the check. *)
Theorem verification_agrees_with_is_valid
    (w : World) (user_id code : string) :
  (forall ac, ActivationCode.is_used ac = true ->
              is_valid ac w = (Ok false, w))
  /\ (fst (UserService._verify_activation_code user_id code w) = Ok tt
      <-> exists crow,
            find (Sql.code_has_key user_id code) (activation_codes w)
            = Some crow
            /\ fst (is_valid crow (ticks (code_reads crow) w)) = Ok true).
Proof.
  split.
  { intros ac Hu. unfold is_valid. now rewrite Hu. }
  assert (Hvalid : forall crow,
            ActivationCode.is_used crow = false ->
            fst (is_valid crow (ticks (code_reads crow) w))
            = Ok (check_time w crow <? ActivationCode.expires_at crow)).
  { intros crow Hu. unfold is_valid, check_time, code_reads.
    rewrite Hu. simpl negb. cbv iota.
    destruct (ActivationCode.created_at crow); simpl.
    - now rewrite add_0_r_tick.
    - now rewrite add_1_r_tick. }
  split.
  - intros H.
    destruct (UserService._verify_activation_code user_id code w)
      as [r w'] eqn:E. simpl in H. subst r.
    destruct (verify_ok_inv _ _ _ _ E) as (crow & Hf & Hu & Hlive & _).
    exists crow. split; [exact Hf|]. rewrite (Hvalid crow Hu).
    apply Z.ltb_lt in Hlive. now rewrite Hlive.
  - intros (crow & Hf & Hv).
    destruct (ActivationCode.is_used crow) eqn:Hu.
    { unfold is_valid in Hv. rewrite Hu in Hv. discriminate. }
    rewrite (Hvalid crow Hu) in Hv.
    destruct (verify_unused _ _ _ _ Hf Hu) as (w2 & Hver & _).
    rewrite Hver. simpl.
    assert (Hlt : check_time w crow < ActivationCode.expires_at crow).
    { apply Z.ltb_lt. congruence. }
    apply Z.leb_gt in Hlt. now rewrite Hlt.
Qed.

(** The used code "4821" of [Sample.resent]. *)
Lemma verification_agrees_with_is_valid_witness :
  exists ac,
    find (Sql.code_has_key "u1" "4821") (activation_codes Sample.resent)
    = Some ac
    /\ is_valid ac Sample.resent = (Ok false, Sample.resent).
Proof.
  assert (Hrow : exists ac,
             find (Sql.code_has_key "u1" "4821")
                  (activation_codes Sample.resent) = Some ac
             /\ ActivationCode.is_used ac = true).
  { vm_compute. eexists. split; reflexivity. }
  destruct Hrow as (ac & Hf & Hu). exists ac. split; [exact Hf|].
  now apply (verification_agrees_with_is_valid Sample.resent "u1" "4821").
Defined.

(* ===================================================================== *)
(** * Relations that every step of a computation respects *)
(* ===================================================================== *)

Section Respects.

Variable R : World -> World -> Prop.
Hypothesis R_same : forall w w', same_store w w' -> R w w'.
Hypothesis R_trans : forall w1 w2 w3, R w1 w2 -> R w2 w3 -> R w1 w3.

Lemma respects_frame {A} (m : M A) : frame m -> respects R m.
Proof. intros Hm w r w' H. apply R_same. eapply Hm; eauto. Qed.

Lemma respects_ret {A} (a : A) : respects R (ret a).
Proof. apply respects_frame, frame_ret. Qed.

Lemma respects_raise {A} (e : Exn) : respects R (@raise A e).
Proof. apply respects_frame, frame_raise. Qed.

Lemma respects_bind {A B} (m : M A) (k : A -> M B) :
  respects R m -> (forall a, respects R (k a)) -> respects R (bind m k).
Proof.
  intros Hm Hk w r w' H. apply bind_inv in H.
  destruct H as [(a & w1 & H1 & H2) | (e & H1 & _)].
  - eapply R_trans; [eapply Hm; eauto | eapply Hk; eauto].
  - eapply Hm; eauto.
Qed.

Lemma respects_try_except {A} (m : M A) (h : Exn -> M A) :
  respects R m -> (forall e, respects R (h e)) ->
  respects R (try_except m h).
Proof.
  intros Hm Hh w r w' H. apply try_except_inv in H.
  destruct H as [(a & H1 & _) | (e & w1 & H1 & H2)].
  - eapply Hm; eauto.
  - eapply R_trans; [eapply Hm; eauto | eapply Hh; eauto].
Qed.

Lemma respects_execute_query {A} (stmt : M A) :
  respects R stmt -> respects R (execute_query stmt).
Proof.
  intros H. unfold execute_query.
  repeat (apply respects_try_except; [|intro]); auto;
    apply respects_frame; frame_auto.
Qed.

End Respects.

Lemma frame_User_init email password_hash status user_id c u a :
  frame (User_init email password_hash status user_id c u a).
Proof. unfold User_init, validate_email. frame_auto. Qed.

Lemma frame_generate_for_user (user_id : string) :
  frame (generate_for_user user_id).
Proof.
  unfold generate_for_user, randint, ActivationCode_init. frame_auto.
Qed.

#[local] Hint Resolve frame_User_init frame_generate_for_user : store.

(** One syntactic step of a proof that a relation is respected: the
    read-only parts by their frame, the statements that write from the
    hint database. *)
Ltac respects_step R_same R_trans :=
  lazymatch goal with
  | |- respects _ (bind _ _) =>
      apply (respects_bind _ R_trans); [|intro]
  | |- respects _ (try_except _ _) =>
      apply (respects_try_except _ R_trans); [|intro]
  | |- respects _ (execute_query _) =>
      apply (respects_execute_query _ R_same R_trans)
  | |- respects _ (match ?x with _ => _ end) => destruct x
  | |- respects _ _ =>
      first [ solve [apply (respects_frame _ R_same); frame_auto]
            | solve [apply (respects_frame _ R_same); eauto with store]
            | solve [eauto with writes] ]
  end.

Create HintDb writes.

(* ===================================================================== *)
(** * The constraints of the schema are kept *)
(* ===================================================================== *)

Lemma NoDup_snoc {A} (l : list A) (x : A) :
  NoDup l -> ~ In x l -> NoDup (l ++ [x]).
Proof.
  induction l as [|y l IH]; simpl; intros Hnd Hnotin.
  - constructor; [intros []|constructor].
  - inversion Hnd; subst. constructor.
    + rewrite in_app_iff. simpl. intuition congruence.
    + apply IH; auto.
Qed.

Lemma NoDup_map_filter {A B} (f : A -> B) (q : A -> bool) (l : list A) :
  NoDup (map f l) -> NoDup (map f (filter q l)).
Proof.
  induction l as [|x l IH]; simpl; intros Hnd; [constructor|].
  inversion Hnd; subst. destruct (q x); simpl; auto.
  constructor; auto.
  rewrite in_map_iff. intros (y & Hy & Hin).
  apply filter_In in Hin. destruct Hin as [Hin _].
  match goal with H : ~ In (f x) (map f l) |- _ => apply H end.
  rewrite <- Hy. now apply in_map.
Qed.

Lemma map_map_preserved {A B} (f : A -> B) (g : A -> A) (l : list A) :
  (forall x, f (g x) = f x) -> map f (map g l) = map f l.
Proof. intros H. rewrite map_map. now apply map_ext. Qed.

Lemma no_id_not_in (user_id : string) (us : list User.t) :
  existsb (Sql.user_has_id user_id) us = false ->
  ~ In user_id (map User.user_id us).
Proof.
  intros H Hin. apply in_map_iff in Hin. destruct Hin as (r & Hr & Hin).
  pose proof (existsb_false_all _ _ H r Hin) as E.
  unfold Sql.user_has_id in E. rewrite Hr, String.eqb_refl in E.
  discriminate.
Qed.

Lemma no_email_not_in (email : string) (us : list User.t) :
  existsb (Sql.user_has_email email) us = false ->
  ~ In email (map User.email us).
Proof.
  intros H Hin. apply in_map_iff in Hin. destruct Hin as (r & Hr & Hin).
  pose proof (existsb_false_all _ _ H r Hin) as E.
  unfold Sql.user_has_email in E. rewrite Hr, String.eqb_refl in E.
  discriminate.
Qed.

Lemma no_key_not_in (user_id code : string) (cs : list ActivationCode.t) :
  existsb (Sql.code_has_key user_id code) cs = false ->
  ~ In (user_id, code) (map code_key cs).
Proof.
  intros H Hin. apply in_map_iff in Hin. destruct Hin as (r & Hr & Hin).
  pose proof (existsb_false_all _ _ H r Hin) as E.
  apply has_key_iff in Hr. congruence.
Qed.



Lemma keeps_ok_insert_user user_id email password_hash status c u :
  respects keeps_ok
    (Sql.insert_user user_id email password_hash status c u).
Proof.
  intros w r w' H. unfold Sql.insert_user in H.
  destruct (existsb (Sql.user_has_id user_id) (users w)) eqn:Eid;
    [inversion H; subst; unfold keeps_ok; auto|].
  destruct (existsb (Sql.user_has_email email) (users w)) eqn:Eem;
    [inversion H; subst; unfold keeps_ok; auto|].
  inversion H; subst. clear H.
  intros (Hid & Hem & Hk & Hfk). unfold store_ok. simpl.
  rewrite !map_app. simpl.
  split; [apply NoDup_snoc; auto using no_id_not_in|].
  split; [apply NoDup_snoc; auto using no_email_not_in|].
  split; [exact Hk|].
  intros c0 Hin. rewrite existsb_app, (Hfk c0 Hin). reflexivity.
Qed.

Lemma existsb_has_id_map (uid : string) (g : User.t -> User.t)
    (us : list User.t) :
  (forall r, User.user_id (g r) = User.user_id r) ->
  existsb (Sql.user_has_id uid) (map g us)
  = existsb (Sql.user_has_id uid) us.
Proof.
  intros Hg. apply existsb_map_preserved. intros r.
  unfold Sql.user_has_id. now rewrite Hg.
Qed.

Lemma keeps_ok_update_user_status user_id status u a :
  respects keeps_ok (Sql.update_user_status user_id status u a).
Proof.
  intros w r w' H. unfold Sql.update_user_status in H.
  inversion H; subst. clear H.
  intros (Hid & Hem & Hk & Hfk). unfold store_ok. simpl.
  assert (Hg_id : forall r,
            User.user_id (if Sql.user_has_id user_id r
                          then Sql.set_status status u a r else r)
            = User.user_id r)
    by (intros r; now destruct (Sql.user_has_id user_id r)).
  assert (Hg_em : forall r,
            User.email (if Sql.user_has_id user_id r
                        then Sql.set_status status u a r else r)
            = User.email r)
    by (intros r; now destruct (Sql.user_has_id user_id r)).
  rewrite (map_map_preserved User.user_id _ _ Hg_id).
  rewrite (map_map_preserved User.email _ _ Hg_em).
  split; [exact Hid|]. split; [exact Hem|]. split; [exact Hk|].
  intros c Hin. rewrite (existsb_has_id_map _ _ _ Hg_id). auto.
Qed.

Lemma keeps_ok_insert_activation_code user_id code e c u :
  respects keeps_ok (Sql.insert_activation_code user_id code e c u).
Proof.
  intros w r w' H. unfold Sql.insert_activation_code in H.
  destruct (existsb (Sql.code_has_key user_id code) (activation_codes w))
    eqn:Ek; [inversion H; subst; unfold keeps_ok; auto|].
  destruct (existsb (Sql.user_has_id user_id) (users w)) eqn:Eu;
    simpl in H; [|inversion H; subst; unfold keeps_ok; auto].
  inversion H; subst. clear H.
  intros (Hid & Hem & Hk & Hfk). unfold store_ok. simpl.
  split; [exact Hid|]. split; [exact Hem|].
  split.
  - rewrite map_app. simpl. apply NoDup_snoc; auto.
    now apply no_key_not_in.
  - intros c0 Hin. apply in_app_iff in Hin.
    destruct Hin as [Hin | [<- | []]]; auto.
Qed.

Lemma keeps_ok_update_codes (sel : ActivationCode.t -> bool) (t : datetime) :
  respects keeps_ok (Sql.update_codes sel t).
Proof.
  intros w r w' H. unfold Sql.update_codes in H.
  inversion H; subst. clear H.
  intros (Hid & Hem & Hk & Hfk). unfold store_ok. simpl.
  split; [exact Hid|]. split; [exact Hem|].
  split.
  - rewrite map_map_preserved; auto.
    intros x. now destruct (sel x).
  - intros c Hin. apply in_map_iff in Hin.
    destruct Hin as (c0 & <- & Hin0).
    destruct (sel c0); simpl; auto.
Qed.

Lemma keeps_ok_delete :
  respects keeps_ok Sql.delete_expired_or_used.
Proof.
  intros w r w' H. unfold Sql.delete_expired_or_used in H.
  rewrite (bind_ok _ _ w (next_tick w) (clock (env w) (tick w))) in H
    by reflexivity.
  inversion H; subst. clear H.
  intros (Hid & Hem & Hk & Hfk). unfold store_ok. simpl.
  split; [exact Hid|]. split; [exact Hem|].
  split; [now apply NoDup_map_filter|].
  intros c Hin. apply filter_In in Hin. destruct Hin as [Hin _]. auto.
Qed.

Lemma keeps_ok_publish (m : Message) :
  respects keeps_ok (EmailService.publish_message m).
Proof.
  intros w r w' H. inversion H; subst. unfold keeps_ok, store_ok. auto.
Qed.

#[local] Hint Resolve keeps_ok_insert_user keeps_ok_update_user_status
  keeps_ok_insert_activation_code keeps_ok_update_codes keeps_ok_delete
  keeps_ok_publish : writes.









(* ===================================================================== *)
(** * What a request never undoes *)
(* ===================================================================== *)

Lemma evolves_refl_on (w w' : World) :
  users w' = users w -> activation_codes w' = activation_codes w ->
  evolves w w'.
Proof.
  intros Hu Hc. unfold evolves. rewrite Hu, Hc. split.
  - intros r Hin. exists r. auto 10.
  - intros c Hin. exists c. auto 10.
Qed.

Lemma evolves_same (w w' : World) : same_store w w' -> evolves w w'.
Proof. intros (_ & Hu & Hc & _). now apply evolves_refl_on. Qed.

Lemma evolves_trans (w1 w2 w3 : World) :
  evolves w1 w2 -> evolves w2 w3 -> evolves w1 w3.
Proof.
  intros [U12 C12] [U23 C23]. split.
  - intros r Hin.
    destruct (U12 r Hin) as (r2 & Hin2 & Hid2 & Hem2 & Hpw2 & Hc2 & Hs2).
    destruct (U23 r2 Hin2) as (r3 & Hin3 & Hid3 & Hem3 & Hpw3 & Hc3 & Hs3).
    exists r3. repeat split; try congruence.
    destruct Hs3 as [Hs3|Hs3]; [|now right].
    destruct Hs2 as [Hs2|Hs2]; [left|right]; congruence.
  - intros c Hin.
    destruct (C12 c Hin) as (c2 & Hin2 & Hk2 & He2 & Hc2 & Hu2).
    destruct (C23 c2 Hin2) as (c3 & Hin3 & Hk3 & He3 & Hc3 & Hu3).
    exists c3. repeat split; try congruence. auto.
Qed.

Lemma evolves_insert_user user_id email password_hash status c u :
  respects evolves
    (Sql.insert_user user_id email password_hash status c u).
Proof.
  intros w r w' H. unfold Sql.insert_user in H.
  destruct (existsb (Sql.user_has_id user_id) (users w));
    [inversion H; subst; now apply evolves_refl_on|].
  destruct (existsb (Sql.user_has_email email) (users w));
    [inversion H; subst; now apply evolves_refl_on|].
  inversion H; subst. clear H. split; simpl.
  - intros r0 Hin. exists r0. rewrite in_app_iff. auto 10.
  - intros c0 Hin. exists c0. auto 10.
Qed.

Lemma evolves_activate_row user_id u a :
  respects evolves (Sql.update_user_status user_id ACTIVE u a).
Proof.
  intros w r w' H. inversion H; subst. clear H. split; simpl.
  - intros r0 Hin.
    exists (if Sql.user_has_id user_id r0
            then Sql.set_status ACTIVE u a r0 else r0).
    split; [apply in_map_iff; exists r0; auto|].
    destruct (Sql.user_has_id user_id r0); simpl; auto 10.
  - intros c0 Hin. exists c0. auto 10.
Qed.

Lemma evolves_insert_activation_code user_id code e c u :
  respects evolves (Sql.insert_activation_code user_id code e c u).
Proof.
  intros w r w' H. unfold Sql.insert_activation_code in H.
  destruct (existsb (Sql.code_has_key user_id code) (activation_codes w));
    [inversion H; subst; now apply evolves_refl_on|].
  destruct (negb (existsb (Sql.user_has_id user_id) (users w)));
    [inversion H; subst; now apply evolves_refl_on|].
  inversion H; subst. clear H. split; simpl.
  - intros r0 Hin. exists r0. auto 10.
  - intros c0 Hin. exists c0. rewrite in_app_iff. auto 10.
Qed.

Lemma evolves_update_codes (sel : ActivationCode.t -> bool) (t : datetime) :
  respects evolves (Sql.update_codes sel t).
Proof.
  intros w r w' H. inversion H; subst. clear H. split; simpl.
  - intros r0 Hin. exists r0. auto 10.
  - intros c0 Hin.
    exists (if sel c0 then Sql.set_used t c0 else c0).
    split; [apply in_map_iff; exists c0; auto|].
    destruct (sel c0); simpl; auto 10.
Qed.

Lemma evolves_publish (m : Message) :
  respects evolves (EmailService.publish_message m).
Proof.
  intros w r w' H. inversion H; subst. now apply evolves_refl_on.
Qed.

#[local] Hint Resolve evolves_insert_user evolves_activate_row
  evolves_insert_activation_code evolves_update_codes evolves_publish
  : writes.

Ltac evolves_auto := repeat respects_step evolves_same evolves_trans.

Lemma evolves_register (email password : string) :
  respects evolves (UserService.register_user email password).
Proof.
  unfold UserService.register_user, PasswordValidator.validate,
    UserRepository.create_user, UserRepository.create_user_check,
    UserRepository.create_user_insert,
    UserService._generate_and_send_activation_code,
    ActivationCodeRepository.create_activation_code,
    ActivationCodeRepository.invalidate_user_codes,
    EmailService.send_activation_code, Sql.invalidate_unused.
  evolves_auto.
Qed.

Lemma evolves_activate (email password code : string) :
  respects evolves (UserService.activate_user email password code).
Proof.
  unfold UserService.activate_user, UserRepository.update_user_status,
    ActivationCodeRepository.mark_code_as_used, Sql.mark_code_used.
  evolves_auto.
Qed.

Lemma evolves_resend (email password : string) :
  respects evolves (UserService.resend_activation_code email password).
Proof.
  unfold UserService.resend_activation_code,
    UserService._generate_and_send_activation_code,
    ActivationCodeRepository.create_activation_code,
    ActivationCodeRepository.invalidate_user_codes,
    EmailService.send_activation_code, Sql.invalidate_unused.
  evolves_auto.
Qed.

Lemma evolves_handle (q : request) (w : World) :
  q <> Sweep -> evolves w (handle q w).
Proof.
  intro Hq. destruct q; cbn [handle]; [| | |congruence].
  - destruct (UserService.register_user email password w) as [r w'] eqn:E.
    exact (evolves_register email password w r w' E).
  - destruct (UserService.activate_user email password code w)
      as [r w'] eqn:E.
    exact (evolves_activate email password code w r w' E).
  - destruct (UserService.resend_activation_code email password w)
      as [r w'] eqn:E.
    exact (evolves_resend email password w r w' E).
Qed.

(** X12. No registration, activation or resend, successful or not, ever
    removes a user row or a code row, changes the id, the email, the
    password hash or the creation time of a user, moves a user to a
    status other than ACTIVE, changes the key, the expiry or the creation
    time of a code, or makes a used code unused again: only the sweep
    deletes. *)
Theorem requests_never_undo (qs : list request) (w : World) :
  ~ In Sweep qs -> evolves w (handle_all qs w).
Proof.
  unfold handle_all. revert w.
  induction qs as [|q qs IH]; intros w Hno; cbn [fold_left].
  - now apply evolves_refl_on.
  - apply evolves_trans with (handle q w).
    + apply evolves_handle. intro E. apply Hno. now left.
    + apply IH. intro Hin. apply Hno. now right.
Qed.

Lemma requests_never_undo_witness :
  ~ In Sweep [Register "a@x.com" "pass1234";
              Resend "a@x.com" "pass1234";
              Activate "a@x.com" "pass1234" "4821";
              Register "b@x.com" "pass1234"]
  /\ evolves Sample.registered
             (handle_all [Register "a@x.com" "pass1234";
                          Resend "a@x.com" "pass1234";
                          Activate "a@x.com" "pass1234" "4821";
                          Register "b@x.com" "pass1234"]
                         Sample.registered).
Proof.
  assert (H : ~ In Sweep [Register "a@x.com" "pass1234";
                          Resend "a@x.com" "pass1234";
                          Activate "a@x.com" "pass1234" "4821";
                          Register "b@x.com" "pass1234"]).
  { cbn [In]. intros [E|[E|[E|[E|[]]]]]; discriminate E. }
  split; [exact H|].
  apply (requests_never_undo _ Sample.registered). exact H.
Defined.

(* ===================================================================== *)
(** * From registration to activation *)
(* ===================================================================== *)







(* ===================================================================== *)
(** * The email addresses that [validate_email] accepts *)
(* ===================================================================== *)

Lemma append_empty_inv (s1 s2 : string) :
  (s1 ++ s2)%string = "" -> s1 = "" /\ s2 = "".
Proof. destruct s1; simpl; [auto|discriminate]. Qed.

Lemma append_empty_r (s : string) : (s ++ "")%string = s.
Proof. induction s; simpl; congruence. Qed.

Lemma append_assoc (s1 s2 s3 : string) :
  ((s1 ++ s2) ++ s3)%string = (s1 ++ s2 ++ s3)%string.
Proof. induction s1; simpl; congruence. Qed.

Lemma nullable_Matches (r : Re.regex) :
  Re.nullable r = true <-> Matches r "".
Proof.
  split.
  - induction r; simpl; intros H; try discriminate.
    + constructor.
    + apply andb_true_iff in H. destruct H.
      change ""%string with ("" ++ "")%string. constructor; auto.
    + apply orb_true_iff in H. destruct H; [apply MAltL|apply MAltR]; auto.
    + constructor.
  - intros H. remember ""%string as s eqn:Es.
    induction H; simpl; auto; try discriminate.
    + apply append_empty_inv in Es. destruct Es.
      rewrite IHMatches1, IHMatches2; auto.
    + rewrite IHMatches; auto.
    + rewrite IHMatches; auto using orb_true_r.
Qed.

Lemma Matches_deriv (c : ascii) (r : Re.regex) (s : string) :
  Matches (Re.deriv c r) s -> Matches r (String c s).
Proof.
  revert s. induction r; simpl; intros s H.
  - inversion H.
  - inversion H.
  - destruct (p c) eqn:Hp; inversion H; subst. now constructor.
  - destruct (Re.nullable r1) eqn:Hn.
    + inversion H; subst.
      * match goal with
        | Hs : Matches (Re.Seq _ _) _ |- _ => inversion Hs; subst
        end.
        change (String c (s1 ++ s2)) with (String c s1 ++ s2)%string.
        constructor; auto.
      * change (String c s) with ("" ++ String c s)%string.
        constructor; auto. now apply nullable_Matches.
    + inversion H; subst.
      change (String c (s1 ++ s2)) with (String c s1 ++ s2)%string.
      constructor; auto.
  - inversion H; subst; [apply MAltL|apply MAltR]; auto.
  - inversion H; subst.
    change (String c (s1 ++ s2)) with (String c s1 ++ s2)%string.
    constructor; auto.
Qed.

Lemma deriv_Matches (c : ascii) (r : Re.regex) (s : string) :
  Matches r (String c s) -> Matches (Re.deriv c r) s.
Proof.
  intros H. remember (String c s) as s0 eqn:Es. revert c s Es.
  induction H; intros c0 s0 Es; try discriminate.
  - inversion Es; subst. simpl. rewrite H. constructor.
  - simpl. destruct s1 as [|c1 s1]; simpl in Es.
    + subst s2. apply nullable_Matches in H. rewrite H.
      apply MAltR. auto.
    + inversion Es; subst.
      destruct (Re.nullable r1); [apply MAltL|]; constructor; auto.
  - simpl. apply MAltL. auto.
  - simpl. apply MAltR. auto.
  - destruct s1 as [|c1 s1]; simpl in Es.
    + auto.
    + inversion Es; subst. simpl. constructor; auto.
Qed.

(** The matcher by derivatives decides the language of the expression. *)
Lemma fullmatch_Matches (r : Re.regex) (s : string) :
  Re.fullmatch r s = true <-> Matches r s.
Proof.
  revert r. induction s as [|c s IH]; intros r; simpl.
  - apply nullable_Matches.
  - rewrite IH. split; [apply Matches_deriv|apply deriv_Matches].
Qed.

Lemma Matches_Seq_iff (r1 r2 : Re.regex) (s : string) :
  Matches (Re.Seq r1 r2) s
  <-> exists s1 s2, s = (s1 ++ s2)%string /\ Matches r1 s1 /\ Matches r2 s2.
Proof.
  split.
  - intros H. inversion H; subst. eauto.
  - intros (s1 & s2 & -> & H1 & H2). now constructor.
Qed.

Lemma Matches_Class_iff (p : ascii -> bool) (s : string) :
  Matches (Re.Class p) s <-> exists c, s = String c "" /\ p c = true.
Proof.
  split.
  - intros H. inversion H; subst. eauto.
  - intros (c & -> & Hp). now constructor.
Qed.

Lemma Matches_Star_Class (p : ascii -> bool) (s : string) :
  Matches (Re.Star (Re.Class p)) s <-> Py.all p s = true.
Proof.
  split.
  - intros H. remember (Re.Star (Re.Class p)) as r eqn:Er.
    induction H; try discriminate; [reflexivity|].
    inversion Er; subst. inversion H; subst. simpl.
    rewrite IHMatches2 by reflexivity.
    match goal with Hp : p _ = true |- _ => now rewrite Hp end.
  - induction s as [|c s IH]; simpl; intros H; [constructor|].
    apply andb_true_iff in H. destruct H as [Hc Hs].
    change (String c s) with (String c "" ++ s)%string.
    constructor; [now constructor|auto].
Qed.

Lemma Matches_Plus_Class (p : ascii -> bool) (s : string) :
  Matches (Re.Plus (Re.Class p)) s <-> s <> "" /\ Py.all p s = true.
Proof.
  unfold Re.Plus. rewrite Matches_Seq_iff. split.
  - intros (s1 & s2 & -> & H1 & H2).
    apply Matches_Class_iff in H1. destruct H1 as (c & -> & Hp).
    apply Matches_Star_Class in H2. simpl. rewrite Hp, H2.
    split; [discriminate|reflexivity].
  - intros [Hne Hall]. destruct s as [|c s]; [congruence|].
    simpl in Hall. apply andb_true_iff in Hall. destruct Hall as [Hc Hs].
    exists (String c ""), s. split; [reflexivity|].
    split; [now constructor|now apply Matches_Star_Class].
Qed.

Lemma Matches_AtLeast2_Class (p : ascii -> bool) (s : string) :
  Matches (Re.AtLeast2 (Re.Class p)) s
  <-> (2 <= String.length s)%nat /\ Py.all p s = true.
Proof.
  unfold Re.AtLeast2. rewrite Matches_Seq_iff. split.
  - intros (s1 & s2 & -> & H1 & H2).
    apply Matches_Class_iff in H1. destruct H1 as (c & -> & Hp).
    apply (Matches_Plus_Class p) in H2. destruct H2 as [Hne Hall].
    simpl. rewrite Hp, Hall. split; [|reflexivity].
    destruct s2; [congruence|simpl; lia].
  - intros [Hlen Hall]. destruct s as [|c s]; [simpl in Hlen; lia|].
    simpl in Hall. apply andb_true_iff in Hall. destruct Hall as [Hc Hs].
    exists (String c ""), s. split; [reflexivity|].
    split; [now constructor|].
    apply (Matches_Plus_Class p). split; [|exact Hs].
    destruct s; [simpl in Hlen; lia|discriminate].
Qed.

(** The language of [email_regex]. *)
Lemma email_regex_Matches (s : string) :
  Matches email_regex s
  <-> exists l d t,
        s = address l d t
        /\ l <> "" /\ Py.all local_part_char l = true
        /\ d <> "" /\ Py.all domain_char d = true
        /\ (2 <= String.length t)%nat
        /\ Py.all Py.is_ascii_letter t = true.
Proof.
  unfold email_regex, address. split.
  - intros H.
    apply Matches_Seq_iff in H. destruct H as (l & s1 & -> & Hl & H).
    apply Matches_Seq_iff in H. destruct H as (a & s2 & -> & Ha & H).
    apply Matches_Seq_iff in H. destruct H as (d & s3 & -> & Hd & H).
    apply Matches_Seq_iff in H. destruct H as (o & t & -> & Ho & Ht).
    apply Matches_Plus_Class in Hl, Hd.
    apply Matches_AtLeast2_Class in Ht.
    apply Matches_Class_iff in Ha, Ho.
    destruct Ha as (ca & -> & Hca). destruct Ho as (co & -> & Hco).
    unfold is_char in Hca, Hco. apply Ascii.eqb_eq in Hca, Hco. subst.
    exists l, d, t. intuition.
  - intros (l & d & t & -> & Hl & Hla & Hd & Hda & Ht & Hta).
    apply Matches_Seq_iff. exists l. eexists. split; [reflexivity|].
    split; [now apply Matches_Plus_Class|].
    apply Matches_Seq_iff. exists "@"%string. eexists.
    split; [reflexivity|]. split; [now constructor|].
    apply Matches_Seq_iff. exists d. eexists. split; [reflexivity|].
    split; [now apply Matches_Plus_Class|].
    apply Matches_Seq_iff. exists "."%string, t. split; [reflexivity|].
    split; [now constructor|now apply Matches_AtLeast2_Class].
Qed.

Lemma chomp_iff (s t : string) :
  Re.chomp s = Some t <-> s = (t ++ LF)%string.
Proof.
  unfold LF. revert t. induction s as [|c s IH]; intros t.
  - simpl. split; [discriminate|]. destruct t; discriminate.
  - cbn [Re.chomp]. destruct s as [|c' s'].
    + destruct (Ascii.eqb c "010"%char) eqn:E.
      * apply Ascii.eqb_eq in E. subst c. split.
        -- intros [= <-]. reflexivity.
        -- destruct t as [|a t]; [reflexivity|].
           simpl. intros [= _ H]. destruct t; discriminate.
      * apply Ascii.eqb_neq in E. split; [discriminate|].
        destruct t as [|a t]; simpl.
        -- intros [= H]. congruence.
        -- intros [= _ H]. destruct t; discriminate.
    + destruct (Re.chomp (String c' s')) as [u|] eqn:Eu.
      * pose proof (proj1 (IH u) eq_refl) as Hu. split.
        -- intros [= <-]. simpl. now rewrite <- Hu.
        -- destruct t as [|a t]; simpl; [discriminate|].
           intros [= -> H]. apply IH in H. congruence.
      * split; [discriminate|].
        destruct t as [|a t]; simpl; [discriminate|].
        intros [= -> H]. apply IH in H. discriminate.
Qed.

Lemma address_not_empty (l d t : string) : address l d t <> "".
Proof. unfold address. destruct l; discriminate. Qed.

(** The shape of the strings that [email_ok] accepts. *)
Lemma email_ok_shape (email : string) :
  email_ok email = true
  <-> exists l d t,
        (email = address l d t \/ email = (address l d t ++ LF)%string)
        /\ l <> "" /\ Py.all local_part_char l = true
        /\ d <> "" /\ Py.all domain_char d = true
        /\ (2 <= String.length t)%nat
        /\ Py.all Py.is_ascii_letter t = true.
Proof.
  split.
  - intros H. unfold email_ok in H.
    destruct email as [|c s]; [discriminate|].
    unfold Re.match_anchored in H. apply orb_true_iff in H.
    destruct H as [H|H].
    + apply fullmatch_Matches, email_regex_Matches in H.
      destruct H as (l & d & t & E & H). exists l, d, t. auto.
    + destruct (Re.chomp (String c s)) as [u|] eqn:Eu; [|discriminate].
      apply chomp_iff in Eu.
      apply fullmatch_Matches, email_regex_Matches in H.
      destruct H as (l & d & t & E & H). exists l, d, t.
      split; [right; congruence|exact H].
  - intros (l & d & t & E & H).
    assert (Hm : Re.fullmatch email_regex (address l d t) = true).
    { apply fullmatch_Matches, email_regex_Matches. eauto. }
    assert (Hne : email <> "").
    { destruct E as [-> | ->]; [apply address_not_empty|].
      pose proof (address_not_empty l d t).
      destruct (address l d t); [congruence|discriminate]. }
    unfold email_ok. destruct email as [|c s]; [congruence|].
    unfold Re.match_anchored. apply orb_true_iff.
    destruct E as [E | E].
    + left. now rewrite E.
    + right. apply chomp_iff in E. now rewrite E.
Qed.

(** X14. The addresses that [User.validate_email] lets through are
    exactly the strings [l@d.t], optionally followed by one line feed,
    with [l] a non-empty string over [[a-zA-Z0-9._%+-]], [d] a non-empty
    string over [[a-zA-Z0-9.-]] and [t] two or more ASCII letters; every
    other string raises the [ValidationException] of the email format.
    The line feed comes from [$], which also matches just before a
    final newline. *)
Theorem accepted_emails (email : string) (w : World) :
  (validate_email email w = (Ok tt, w)
   <-> exists l d t,
         (email = address l d t \/ email = (address l d t ++ LF)%string)
         /\ l <> "" /\ Py.all local_part_char l = true
         /\ d <> "" /\ Py.all domain_char d = true
         /\ (2 <= String.length t)%nat
         /\ Py.all Py.is_ascii_letter t = true)
  /\ (validate_email email w = (Ok tt, w)
      \/ validate_email email w = (Raise (Service invalid_email), w)).
Proof.
  unfold validate_email. split.
  - rewrite <- email_ok_shape. destruct (email_ok email); split; intros H;
      try reflexivity; discriminate.
  - destruct (email_ok email); [left|right]; reflexivity.
Qed.

(* ===================================================================== *)
(** * What the consumer of the queue sends out *)
(* ===================================================================== *)




(* ===================================================================== *)
(** * Basic authentication headers *)
(* ===================================================================== *)

Lemma dec_enc_char (s : SampleCodec.sextet) :
  SampleCodec.dec_char (SampleCodec.enc_char s) = Some s.
Proof.
  destruct s as [[[[[b5 b4] b3] b2] b1] b0].
  destruct b5, b4, b3, b2, b1, b0; reflexivity.
Qed.

Lemma string_ind3 (P : string -> Prop) :
  P "" ->
  (forall a, P (String a "")) ->
  (forall a b, P (String a (String b ""))) ->
  (forall a b c s, P s -> P (String a (String b (String c s)))) ->
  forall s, P s.
Proof.
  intros H0 H1 H2 H3 s.
  assert (H : P s /\ (forall a, P (String a s))
              /\ (forall a b, P (String a (String b s)))).
  { induction s as [|c s (IH0 & IH1 & IH2)]; auto. }
  apply H.
Qed.

Lemma b64decode_b64encode (b : BasicAuth.bytes) :
  SampleCodec.b64decode (SampleCodec.b64encode b) = Some b.
Proof.
  induction b as [|a|a b|a b c s IH] using string_ind3.
  - reflexivity.
  - destruct a as [a0 a1 a2 a3 a4 a5 a6 a7].
    cbn [SampleCodec.b64encode SampleCodec.enc1 SampleCodec.b64decode].
    rewrite !dec_enc_char. reflexivity.
  - destruct a as [a0 a1 a2 a3 a4 a5 a6 a7].
    destruct b as [b0 b1 b2 b3 b4 b5 b6 b7].
    cbn [SampleCodec.b64encode SampleCodec.enc2 SampleCodec.b64decode].
    rewrite !dec_enc_char. reflexivity.
  - destruct a as [a0 a1 a2 a3 a4 a5 a6 a7].
    destruct b as [b0 b1 b2 b3 b4 b5 b6 b7].
    destruct c as [c0 c1 c2 c3 c4 c5 c6 c7].
    cbn [SampleCodec.b64encode SampleCodec.enc3 SampleCodec.b64decode
         String.append].
    rewrite !dec_enc_char, IH. reflexivity.
Qed.

Lemma decode_utf8_encode_utf8 (s : string) :
  SampleCodec.decode_utf8 (SampleCodec.encode_utf8 s) = Some s.
Proof.
  induction s as [|c s IH]; [reflexivity|].
  destruct c as [a0 a1 a2 a3 a4 a5 a6 a7].
  destruct a0, a1, a2, a3, a4, a5, a6, a7;
    cbn [SampleCodec.encode_utf8 SampleCodec.encode_char String.append
         SampleCodec.decode_utf8];
    rewrite IH; reflexivity.
Qed.

Lemma sample_codec_round_trip : codec_round_trip SampleCodec.codec.
Proof.
  split; [exact b64decode_b64encode | exact decode_utf8_encode_utf8].
Qed.

Lemma contains_app (c : ascii) (a b : string) :
  BasicAuth.contains c (a ++ b)
  = BasicAuth.contains c a || BasicAuth.contains c b.
Proof.
  induction a as [|x a IH]; simpl; [reflexivity|].
  now rewrite IH, orb_assoc.
Qed.

Lemma split_once_first (c : ascii) (a b : string) :
  BasicAuth.contains c a = false ->
  BasicAuth.split_once c (a ++ String c b) = (a, b).
Proof.
  induction a as [|x a IH]; simpl; intros H.
  - now rewrite Ascii.eqb_refl.
  - apply orb_false_iff in H. destruct H as [Hx Ha].
    now rewrite Hx, (IH Ha).
Qed.

Lemma all_excludes (p : ascii -> bool) (c : ascii) (s : string) :
  Py.all p s = true -> p c = false -> BasicAuth.contains c s = false.
Proof.
  intros Hall Hc. induction s as [|x s IH]; simpl in *; [reflexivity|].
  apply andb_true_iff in Hall. destruct Hall as [Hx Hs].
  rewrite (IH Hs), orb_false_r.
  destruct (Ascii.eqb x c) eqn:E; [|reflexivity].
  apply Ascii.eqb_eq in E. congruence.
Qed.

(** No address that [validate_email] accepts has a colon. *)
Lemma email_ok_no_colon (email : string) :
  email_ok email = true -> BasicAuth.contains ":" email = false.
Proof.
  intros H. apply email_ok_shape in H.
  destruct H as (l & d & t & E & _ & Hl & _ & Hd & _ & Ht).
  assert (Ha : BasicAuth.contains ":" (address l d t) = false).
  { unfold address. rewrite contains_app. cbn [String.append].
    cbn [BasicAuth.contains]. rewrite contains_app.
    cbn [String.append BasicAuth.contains].
    rewrite (all_excludes _ ":" _ Hl eq_refl),
      (all_excludes _ ":" _ Hd eq_refl), (all_excludes _ ":" _ Ht eq_refl).
    reflexivity. }
  destruct E as [-> | ->]; [exact Ha|].
  rewrite contains_app, Ha. reflexivity.
Qed.

Lemma decode_create (C : BasicAuth.Codec) (username password : string) :
  codec_round_trip C ->
  BasicAuth.decode_basic_auth
    C (BasicAuth.create_basic_auth_header C username password)
  = Ok (BasicAuth.split_once ":" (username ++ ":" ++ password)).
Proof.
  intros [Hb Hu].
  unfold BasicAuth.decode_basic_auth, BasicAuth.create_basic_auth_header.
  cbn [String.append BasicAuth.startswith BasicAuth.slice_from
       Ascii.eqb Bool.eqb andb negb].
  rewrite Hb, Hu, contains_app. cbn [BasicAuth.contains String.append].
  rewrite Ascii.eqb_refl, orb_true_r. reflexivity.
Qed.

(** X16. Basic authentication headers.  With codecs that undo each
    other, [decode_basic_auth] after [create_basic_auth_header] returns
    the username and the password when the username has no colon, which
    is the case of every address that [validate_email] accepts; a
    username [a:b] comes back as the username [a] with the password
    [b:password], because the credentials are split at the first colon.
    A header that does not start with ["Basic "] is refused, and whatever
    the header, the only exception is [AuthenticationException]. *)
Theorem basic_auth_round_trip (C : BasicAuth.Codec)
    (username password : string) :
  codec_round_trip C ->
  let header := BasicAuth.create_basic_auth_header C username password in
  (BasicAuth.contains ":" username = false ->
   BasicAuth.decode_basic_auth C header = Ok (username, password))
  /\ (email_ok username = true ->
      BasicAuth.decode_basic_auth C header = Ok (username, password))
  /\ (forall a b,
        username = (a ++ ":" ++ b)%string ->
        BasicAuth.contains ":" a = false ->
        BasicAuth.decode_basic_auth C header
        = Ok (a, (b ++ ":" ++ password)%string))
  /\ (forall h,
        BasicAuth.startswith "Basic " h = false ->
        BasicAuth.decode_basic_auth C h
        = Raise (Service Exc.AuthenticationException_))
  /\ (forall h e,
        BasicAuth.decode_basic_auth C h = Raise e ->
        e = Service Exc.AuthenticationException_).
Proof.
  intros Hrt header. unfold header. rewrite (decode_create _ _ _ Hrt).
  assert (Hplain : BasicAuth.contains ":" username = false ->
                   Ok (BasicAuth.split_once ":" (username ++ ":" ++ password))
                   = Ok (username, password)).
  { intros Hno. cbn [String.append].
    now rewrite (split_once_first _ _ _ Hno). }
  split; [exact Hplain|].
  split; [intros Hok; apply Hplain; now apply email_ok_no_colon|].
  split.
  - intros a b -> Hno. rewrite append_assoc. cbn [String.append].
    now rewrite (split_once_first _ _ _ Hno).
  - split.
    + intros h Hh. unfold BasicAuth.decode_basic_auth. now rewrite Hh.
    + intros h e. unfold BasicAuth.decode_basic_auth.
      destruct (negb (BasicAuth.startswith "Basic " h)); [congruence|].
      destruct (BasicAuth.b64decode C (BasicAuth.slice_from 6 h));
        [|congruence].
      destruct (BasicAuth.decode_utf8 C b); [|congruence].
      destruct (negb (BasicAuth.contains ":" s)); [congruence|discriminate].
Qed.

(** The header of the user of the scenario, with Base64 and UTF-8. *)
Lemma basic_auth_round_trip_witness :
  codec_round_trip SampleCodec.codec
  /\ BasicAuth.create_basic_auth_header SampleCodec.codec
       "a@x.com" "pass1234"
     = "Basic YUB4LmNvbTpwYXNzMTIzNA=="
  /\ BasicAuth.decode_basic_auth SampleCodec.codec
       "Basic YUB4LmNvbTpwYXNzMTIzNA=="
     = Ok ("a@x.com", "pass1234").
Proof.
  split; [exact sample_codec_round_trip|].
  split; [reflexivity|].
  pose proof (basic_auth_round_trip SampleCodec.codec "a@x.com" "pass1234"
                sample_codec_round_trip) as H.
  cbv zeta in H. destruct H as (H & _). apply H. reflexivity.
Defined.
